(** * PreviewFlow: preview build and lifecycle orchestrator

    A shallow embedding of the backend of PreviewFlow:

    - [services/dockerService.js]: [run], [removeContainer], [isPortFree],
      [portReservedInDB], [findAvailablePort], [generateContainerName],
      [removeContainerIfExists] and [buildPreview] (the revision of the
      file that allocates ports and versions container names);
    - [services/prHandlers.js]: [handlePROpenOrSync], [handlePRClosed];
    - [routes/previewActions.js]: the rebuild and delete routes.

    JavaScript strings are modelled as [string] (8-bit code units; project
    ids are cuids, hence ASCII), integers as [Z], nullable columns as
    [option], the Prisma table of previews as a [gmap] keyed by the row id,
    and asynchronous code that may throw as a state-and-exception monad
    over the machine state. *)

From Stdlib Require Import ZArith String Ascii DecimalString DecimalZ.
From stdpp Require Import gmap strings list fin_maps.

Open Scope string_scope.
Open Scope Z_scope.

(** ** JavaScript string helpers *)

(** [String(n)] / template interpolation of an integer: its decimal
    rendering, with a leading minus sign for negative numbers. *)
Definition numToString (n : Z) : string :=
  NilEmpty.string_of_int (Z.to_int n).

Fixpoint mapString (f : ascii -> ascii) (s : string) : string :=
  match s with
  | EmptyString => EmptyString
  | String c s' => String (f c) (mapString f s')
  end.

Definition isUpper (c : ascii) : bool :=
  let n := N_of_ascii c in (65 <=? n)%N && (n <=? 90)%N.

Definition isLower (c : ascii) : bool :=
  let n := N_of_ascii c in (97 <=? n)%N && (n <=? 122)%N.

Definition isDigit (c : ascii) : bool :=
  let n := N_of_ascii c in (48 <=? n)%N && (n <=? 57)%N.

Definition isHyphen (c : ascii) : bool := (N_of_ascii c =? 45)%N.

Definition lowerChar (c : ascii) : ascii :=
  if isUpper c then ascii_of_N (N_of_ascii c + 32) else c.

(** [s.toLowerCase()] *)
Definition toLowerCase (s : string) : string := mapString lowerChar s.

(** One step of [.replace(/[^a-z0-9\-]/g, "-")]. *)
Definition sanitizeChar (c : ascii) : ascii :=
  if isLower c || isDigit c || isHyphen c then c else "-"%char.

Definition replaceDisallowed (s : string) : string := mapString sanitizeChar s.

(** [s.slice(0, 8)] *)
Definition slice8 (s : string) : string := String.substring 0 8 s.

(** A JavaScript string is truthy when it is not empty. *)
Definition truthyString (s : string) : bool :=
  match s with EmptyString => false | _ => true end.

(** ** Data model *)

Module Project.
Record t := mk {
  id : string;
  repoOwner : string;
  repoName : string;
  userId : string
}.
End Project.

(** ** Container naming *)

(** [generateContainerName(project, prNumber, buildNumber)] *)
Definition generateContainerName (project : Project.t) (prNumber buildNumber : Z)
  : string :=
  let projectIdShort := slice8 (Project.id project) in
  let base := "preview-p" +:+ projectIdShort +:+ "-pr" +:+ numToString prNumber
              +:+ "-b" +:+ numToString buildNumber in
  replaceDisallowed (toLowerCase base).

(** ** Previews *)

Module Status.
Inductive t := building | live | error | deleted.

Definition eqb (a b : t) : bool :=
  match a, b with
  | building, building | live, live | error, error | deleted, deleted => true
  | _, _ => false
  end.

Lemma eqb_eq (a b : t) : eqb a b = true ↔ a = b.
Proof. destruct a, b; simpl; split; intros H; (done || discriminate). Qed.
End Status.

Module Preview.
(** A row of the [preview] table. Timestamps are clock readings. *)
Record t := mk {
  id : string;
  projectId : string;
  prNumber : Z;
  status : Status.t;
  url : option string;
  port : option Z;
  containerName : option string;
  buildNumber : Z;
  buildStartedAt : option Z;
  buildCompletedAt : option Z;
  buildLogs : option string
}.

(** Field assignments of a Prisma [data] object. *)
Definition setStatus (v : Status.t) (p : t) : t :=
  mk (id p) (projectId p) (prNumber p) v (url p) (port p) (containerName p)
     (buildNumber p) (buildStartedAt p) (buildCompletedAt p) (buildLogs p).
Definition setUrl (v : option string) (p : t) : t :=
  mk (id p) (projectId p) (prNumber p) (status p) v (port p) (containerName p)
     (buildNumber p) (buildStartedAt p) (buildCompletedAt p) (buildLogs p).
Definition setPort (v : option Z) (p : t) : t :=
  mk (id p) (projectId p) (prNumber p) (status p) (url p) v (containerName p)
     (buildNumber p) (buildStartedAt p) (buildCompletedAt p) (buildLogs p).
Definition setContainerName (v : option string) (p : t) : t :=
  mk (id p) (projectId p) (prNumber p) (status p) (url p) (port p) v
     (buildNumber p) (buildStartedAt p) (buildCompletedAt p) (buildLogs p).
(** [buildNumber: { increment: k }] *)
Definition incrementBuildNumber (k : Z) (p : t) : t :=
  mk (id p) (projectId p) (prNumber p) (status p) (url p) (port p) (containerName p)
     (buildNumber p + k) (buildStartedAt p) (buildCompletedAt p) (buildLogs p).
Definition setBuildStartedAt (v : option Z) (p : t) : t :=
  mk (id p) (projectId p) (prNumber p) (status p) (url p) (port p) (containerName p)
     (buildNumber p) v (buildCompletedAt p) (buildLogs p).
Definition setBuildCompletedAt (v : option Z) (p : t) : t :=
  mk (id p) (projectId p) (prNumber p) (status p) (url p) (port p) (containerName p)
     (buildNumber p) (buildStartedAt p) v (buildLogs p).
Definition setBuildLogs (v : option string) (p : t) : t :=
  mk (id p) (projectId p) (prNumber p) (status p) (url p) (port p) (containerName p)
     (buildNumber p) (buildStartedAt p) (buildCompletedAt p) v.

(** The row that [create: { projectId, prNumber, status }] inserts: the
    other columns take their defaults, [buildNumber] starting at 1. *)
Definition created (newId projectId : string) (prNumber : Z) (st : Status.t) : t :=
  mk newId projectId prNumber st None None None 1 None None None.
End Preview.

(** JavaScript truthiness of a nullable number and of a nullable string. *)
Definition truthyNumber (v : option Z) : option Z :=
  match v with
  | Some n => if Z.eqb n 0 then None else Some n
  | None => None
  end.

Definition truthyText (v : option string) : option string :=
  match v with
  | Some s => if truthyString s then Some s else None
  | None => None
  end.

(** ** Exceptions and the monad of asynchronous code *)

(** A thrown [Error]; only its message is ever read. *)
Record Exn := JsError { message : string }.

(** [await]-sequenced code over a state [S]: it returns or throws, and in
    both cases leaves a state behind. *)
Definition M (S A : Type) : Type := S → (Exn + A) * S.

Section Monad.
Context {S : Type}.

Definition ret {A} (a : A) : M S A := λ s, (inr a, s).

Definition bind {A B} (m : M S A) (k : A → M S B) : M S B :=
  λ s, match m s with
       | (inl e, s') => (inl e, s')
       | (inr a, s') => k a s'
       end.

Definition throw {A} (e : Exn) : M S A := λ s, (inl e, s).

(** [try { m } catch (err) { h err }] *)
Definition tryCatch {A} (m : M S A) (h : Exn → M S A) : M S A :=
  λ s, match m s with
       | (inl e, s') => h e s'
       | (inr a, s') => (inr a, s')
       end.

Definition gets {A} (f : S → A) : M S A := λ s, (inr (f s), s).

Definition modify (f : S → S) : M S unit := λ s, (inr tt, f s).
End Monad.

Declare Scope js_scope.
Delimit Scope js_scope with js.
Notation "x <- m ;; k" := (bind m (λ x, k))
  (at level 100, m at next level, right associativity) : js_scope.
Notation "m ;; k" := (bind m (λ _, k))
  (at level 100, k at level 200, right associativity) : js_scope.
Open Scope js_scope.

Fixpoint forEach {S A} (l : list A) (f : A → M S unit) : M S unit :=
  match l with
  | [] => ret tt
  | x :: l' => f x ;; forEach l' f
  end.

(** ** Port allocation *)

Definition noFreePorts : Exn :=
  JsError "No free ports available in configured range (4000-4999)".

Section PortAllocation.
Context {S : Type}.
(** The two probes, as effectful queries of whatever state they run in. *)
Variable portReservedInDB : Z → M S bool.
Variable isPortFree : Z → M S bool.

(** The body of [for (let port = minPort; port <= maxPort; port++)],
    with [n] the number of candidates left. *)
Fixpoint scanPorts (n : nat) (port : Z) : M S Z :=
  match n with
  | O => throw noFreePorts
  | Datatypes.S n' =>
      reserved <- portReservedInDB port ;;
      if reserved then scanPorts n' (port + 1) else
      free <- isPortFree port ;;
      if negb free then scanPorts n' (port + 1) else
      reserved2 <- portReservedInDB port ;;
      if reserved2 then scanPorts n' (port + 1) else
      ret port
  end.

(** [findAvailablePort(minPort, maxPort)] *)
Definition findAvailablePort (minPort maxPort : Z) : M S Z :=
  scanPorts (Z.to_nat (maxPort - minPort + 1)) minPort.

(** What the allocator is meant to do, as a relation between the range,
    the state it starts in, and its outcome: candidates are taken in
    ascending order, each one is put through the store check, the bind
    check and the store check again, the first one to pass all three is
    returned, and running out of candidates is the error. *)
Inductive Allocates : Z → Z → S → (Exn + Z) * S → Prop :=
| Alloc_exhausted lo hi s :
    hi < lo → Allocates lo hi s (inl noFreePorts, s)
| Alloc_found lo hi s s1 s2 s3 :
    lo ≤ hi →
    portReservedInDB lo s = (inr false, s1) →
    isPortFree lo s1 = (inr true, s2) →
    portReservedInDB lo s2 = (inr false, s3) →
    Allocates lo hi s (inr lo, s3)
| Alloc_skip_reserved lo hi s s1 r :
    lo ≤ hi →
    portReservedInDB lo s = (inr true, s1) →
    Allocates (lo + 1) hi s1 r →
    Allocates lo hi s r
| Alloc_skip_bound lo hi s s1 s2 r :
    lo ≤ hi →
    portReservedInDB lo s = (inr false, s1) →
    isPortFree lo s1 = (inr false, s2) →
    Allocates (lo + 1) hi s2 r →
    Allocates lo hi s r
| Alloc_skip_claimed lo hi s s1 s2 s3 r :
    lo ≤ hi →
    portReservedInDB lo s = (inr false, s1) →
    isPortFree lo s1 = (inr true, s2) →
    portReservedInDB lo s2 = (inr true, s3) →
    Allocates (lo + 1) hi s3 r →
    Allocates lo hi s r
| Alloc_store_throws lo hi s s1 e :
    lo ≤ hi →
    portReservedInDB lo s = (inl e, s1) →
    Allocates lo hi s (inl e, s1)
| Alloc_bind_throws lo hi s s1 s2 e :
    lo ≤ hi →
    portReservedInDB lo s = (inr false, s1) →
    isPortFree lo s1 = (inl e, s2) →
    Allocates lo hi s (inl e, s2)
| Alloc_recheck_throws lo hi s s1 s2 s3 e :
    lo ≤ hi →
    portReservedInDB lo s = (inr false, s1) →
    isPortFree lo s1 = (inr true, s2) →
    portReservedInDB lo s2 = (inl e, s3) →
    Allocates lo hi s (inl e, s3).
End PortAllocation.

(** ** The machine state and the outside world *)

(** How a child process ends: the [close] event with its exit code ([None]
    when it was killed by a signal), or the [error] event. *)
Inductive ProcEnd := Exited (code : option Z) | Crashed (err : Exn).

Record Proc := mkProc {
  output : list string;   (* stdout and stderr chunks, in arrival order *)
  ending : ProcEnd
}.

Inductive Payload :=
| LogChunk (chunk : string)
| LogFinish (url : string)
| LogError (msg : string)
| StatusUpdate (previewId : option string) (projectId : string) (prNumber : Z)
               (status : Status.t) (url : option string)
| Snapshot (row : Preview.t).

Inductive Effect :=
| Emit (room : option string) (topic : string) (payload : Payload)
| Exec (command : string)
| RmSync (path : string)
| Console (text : string).

(** What the surroundings answer during one operation. *)
Record Env := mkEnv {
  osPortFree : Z → bool;             (* can 127.0.0.1:port be bound right now *)
  ioFails : nat → bool;              (* does the n-th use of the socket throw *)
  ioError : Exn;
  cloneRepo : string → string → option string → Exn + string;
  shell : string → Proc;             (* behaviour of a shell command *)
  staleContainers : string → Exn + list string;  (* docker ps -aq -f name=... *)
  dockerfile : string;               (* path.resolve of the build template *)
  newId : string                     (* id given to a created row *)
}.

Record World := mkWorld {
  previews : gmap string Preview.t;  (* prisma.preview *)
  projects : gmap string Project.t;  (* prisma.project *)
  clock : Z;                         (* next reading of new Date() *)
  logs : string;                     (* [logs] of the running buildPreview *)
  ioCalls : nat;                     (* uses of the socket so far *)
  effects : list Effect;             (* most recent first *)
  history : list Preview.t           (* every row written, most recent first *)
}.

Definition writeRow (id : string) (row : Preview.t) (w : World) : World :=
  mkWorld (<[id := row]> (previews w)) (projects w) (clock w) (logs w)
          (ioCalls w) (effects w) (row :: history w).

Definition setLogs (v : string) (w : World) : World :=
  mkWorld (previews w) (projects w) (clock w) v (ioCalls w) (effects w) (history w).

Definition addEffect (e : Effect) (w : World) : World :=
  mkWorld (previews w) (projects w) (clock w) (logs w) (ioCalls w)
          (e :: effects w) (history w).

Definition tick (w : World) : World :=
  mkWorld (previews w) (projects w) (clock w + 1) (logs w) (ioCalls w)
          (effects w) (history w).

Definition countIo (w : World) : World :=
  mkWorld (previews w) (projects w) (clock w) (logs w) (Datatypes.S (ioCalls w))
          (effects w) (history w).

(** [new Date()] *)
Definition newDate : M World Z := λ w, (inr (clock w), tick w).

Definition effect (e : Effect) : M World unit := modify (addEffect e).

(** [getIO().emit(topic, payload)], or [getIO().to(room).emit(...)]. *)
Definition emit (env : Env) (room : option string) (topic : string)
    (payload : Payload) : M World unit :=
  λ w, if ioFails env (ioCalls w)
       then (inl (ioError env), countIo w)
       else (inr tt, addEffect (Emit room topic payload) (countIo w)).

(** *** The record store *)

Definition recordNotFound : Exn := JsError "Record to update not found.".
Definition uniqueViolation : Exn := JsError "Unique constraint failed on the fields: (id)".

(** [prisma.preview.update({ where: { id }, data })] *)
Definition prismaUpdate (id : string) (data : Preview.t → Preview.t)
  : M World Preview.t :=
  λ w, match previews w !! id with
       | None => (inl recordNotFound, w)
       | Some p => (inr (data p), writeRow id (data p) w)
       end.

(** [prisma.preview.findUnique({ where: { id } })] *)
Definition prismaFindUnique (id : string) : M World (option Preview.t) :=
  gets (λ w, previews w !! id).

Definition findFirst (where_ : Preview.t → bool) (db : gmap string Preview.t)
  : option Preview.t :=
  List.find where_ (snd <$> map_to_list db).

(** [prisma.preview.findFirst({ where })] *)
Definition prismaFindFirst (where_ : Preview.t → bool) : M World (option Preview.t) :=
  gets (λ w, findFirst where_ (previews w)).

(** [prisma.preview.create({ data })] *)
Definition prismaCreate (row : Preview.t) : M World Preview.t :=
  λ w, match previews w !! Preview.id row with
       | Some _ => (inl uniqueViolation, w)
       | None => (inr row, writeRow (Preview.id row) row w)
       end.

(** [prisma.preview.upsert({ where: { projectId_prNumber }, update, create })] *)
Definition prismaUpsert (projectId : string) (prNumber : Z)
    (update : Preview.t → Preview.t) (create : Preview.t) : M World Preview.t :=
  existing <- prismaFindFirst
    (λ p, String.eqb (Preview.projectId p) projectId && Z.eqb (Preview.prNumber p) prNumber) ;;
  match existing with
  | Some p => prismaUpdate (Preview.id p) update
  | None => prismaCreate create
  end.

(** ** dockerService.js *)

Definition nl : string := String (ascii_of_N 10) EmptyString.
Definition dq : string := String (ascii_of_N 34) EmptyString.

Definition codeToString (code : option Z) : string :=
  match code with Some c => numToString c | None => "null" end.

(** [run(command, onData)] *)
Definition run (env : Env) (command : string) (onData : string → M World unit)
  : M World unit :=
  effect (Exec command) ;;
  forEach (output (shell env command)) onData ;;
  match ending (shell env command) with
  | Exited (Some 0) => ret tt
  | Exited code => throw (JsError ("Command failed with exit code " +:+ codeToString code))
  | Crashed err => throw err
  end.

(** [removeContainer(name)]: resolves to whether [docker rm -f] went well. *)
Definition removeContainer (env : Env) (name : string) : M World bool :=
  let command := "docker rm -f " +:+ name in
  effect (Exec command) ;;
  match ending (shell env command) with
  | Exited (Some 0) => ret true
  | _ => ret false
  end.

(** [isPortFree(port)] *)
Definition isPortFree (env : Env) (port : Z) : M World bool :=
  ret (osPortFree env port).

Definition isSome {A} (o : option A) : bool :=
  match o with Some _ => true | None => false end.

(** [portReservedInDB(port)] *)
Definition portReservedInDB (port : Z) : M World bool :=
  existing <- prismaFindFirst
    (λ p, bool_decide (Preview.port p = Some port)
          && negb (Status.eqb (Preview.status p) Status.deleted)) ;;
  ret (isSome existing).

(** [removeContainerIfExists(containerName)]: never throws. *)
Definition removeContainerIfExists (env : Env) (containerName : string)
  : M World unit :=
  effect (Exec ("docker ps -aq -f name=" +:+ containerName)) ;;
  match staleContainers env containerName with
  | inr lines =>
      forEach lines (λ id,
        let command := "docker rm -f " +:+ id in
        effect (Exec command) ;;
        match ending (shell env command) with
        | Exited (Some 0) => ret tt
        | _ => effect (Console "Failed to remove container")
        end)
  | inl _ => effect (Console "Error checking/removing container")
  end.

(** [err?.message || String(err)] *)
Definition errDetail (err : Exn) : string :=
  if truthyString (message err) then message err else "Error".

(** The closure [push] of [buildPreview]: append to [logs], then forward
    the chunk to the preview's room, ignoring socket errors. *)
Definition push (env : Env) (previewId : string) (chunk : string) : M World unit :=
  modify (λ w, setLogs (logs w +:+ chunk) w) ;;
  tryCatch (emit env (Some previewId) "log" (LogChunk chunk)) (λ _, ret tt).

Definition baseName (project : Project.t) (prNumber : Z) : string :=
  replaceDisallowed (toLowerCase
    (Project.repoOwner project +:+ "-" +:+ Project.repoName project +:+ "-pr-"
     +:+ numToString prNumber)).

Definition dockerBuildCommand (imageName dockerfile repoPath : string) : string :=
  "docker build -t " +:+ imageName +:+ " -f " +:+ dq +:+ dockerfile +:+ dq
  +:+ " " +:+ dq +:+ repoPath +:+ dq.

Definition dockerRunCommand (containerName : string) (port : Z) (imageName : string)
  : string :=
  "docker run -d --name " +:+ containerName +:+ " -p " +:+ numToString port
  +:+ ":80 " +:+ imageName.

(** The block "Assign or revalidate port" of [buildPreview]. *)
Definition assignPort (env : Env) (previewId : string) (preview : Preview.t)
  : M World Z :=
  match truthyNumber (Preview.port preview) with
  | None =>
      freePort <- findAvailablePort portReservedInDB (isPortFree env) 5000 5999 ;;
      prismaUpdate previewId (Preview.setPort (Some freePort)) ;;
      ret freePort
  | Some assignedPort =>
      free <- isPortFree env assignedPort ;;
      if negb free then
        freePort <- findAvailablePort portReservedInDB (isPortFree env) 4000 4999 ;;
        prismaUpdate previewId (Preview.setPort (Some freePort)) ;;
        ret freePort
      else ret assignedPort
  end.

(** [buildPreview({ project, previewId, repoPath, prNumber })] *)
Definition buildPreview (env : Env) (project : Project.t)
    (previewId repoPath : string) (prNumber : Z) : M World string :=
  modify (setLogs EmptyString) ;;
  buildStartedAt <- newDate ;;
  prismaUpdate previewId
    (λ p, Preview.setBuildStartedAt (Some buildStartedAt)
            (Preview.setStatus Status.building p)) ;;
  found <- prismaFindUnique previewId ;;
  match found with
  | None => throw (JsError ("Preview row not found: " +:+ previewId))
  | Some preview =>
      let nextBuildNumber :=
        if Z.eqb (Preview.buildNumber preview) 0 then 1
        else Preview.buildNumber preview in
      let containerName := generateContainerName project prNumber nextBuildNumber in
      removeContainerIfExists env containerName ;;
      tryCatch
        (assignedPort <- assignPort env previewId preview ;;
         prismaUpdate previewId
           (λ p, Preview.incrementBuildNumber 1
                   (Preview.setContainerName (Some containerName) p)) ;;
         let imageName := baseName project prNumber in
         push env previewId
           (nl +:+ "> " +:+ dockerBuildCommand imageName (dockerfile env) repoPath +:+ nl) ;;
         run env (dockerBuildCommand imageName (dockerfile env) repoPath)
           (push env previewId) ;;
         push env previewId
           (nl +:+ "> " +:+ dockerRunCommand containerName assignedPort imageName +:+ nl) ;;
         run env (dockerRunCommand containerName assignedPort imageName)
           (push env previewId) ;;
         let url := "http://localhost:" +:+ numToString assignedPort in
         buildCompletedAt <- newDate ;;
         text <- gets logs ;;
         prismaUpdate previewId
           (λ p, Preview.setBuildCompletedAt (Some buildCompletedAt)
                   (Preview.setBuildLogs (Some text)
                      (Preview.setUrl (Some url)
                         (Preview.setStatus Status.live p)))) ;;
         tryCatch (emit env (Some previewId) "log-finish" (LogFinish url))
                  (λ _, ret tt) ;;
         ret url)
        (λ err,
           tryCatch
             (text <- gets logs ;;
              completedAt <- newDate ;;
              prismaUpdate previewId
                (λ p, Preview.setPort None
                        (Preview.setBuildCompletedAt (Some completedAt)
                           (Preview.setBuildLogs
                              (Some (text +:+ nl +:+ nl +:+ "ERROR:" +:+ nl +:+ errDetail err))
                              (Preview.setStatus Status.error p)))) ;;
              ret tt)
             (λ _, effect (Console "Failed to mark preview error & free port:")) ;;
           tryCatch (emit env (Some previewId) "log-error" (LogError (message err)))
                    (λ _, ret tt) ;;
           throw err)
  end.

(** ** prHandlers.js *)

(** [fs.rmSync(path, { recursive: true, force: true })] *)
Definition rmSync (path : string) : M World unit := effect (RmSync path).

(** [cloneRepo({ repoOwner, repoName, ref })] *)
Definition cloneRepoM (env : Env) (repoOwner repoName : string) (ref : option string)
  : M World string :=
  match cloneRepo env repoOwner repoName ref with
  | inl e => throw e
  | inr path => ret path
  end.

(** [handlePROpenOrSync({ project, prNumber, ref })] *)
Definition handlePROpenOrSync (env : Env) (project : Project.t) (prNumber : Z)
    (ref : option string) : M World unit :=
  preview <- prismaUpsert (Project.id project) prNumber
               (Preview.setStatus Status.building)
               (Preview.created (newId env) (Project.id project) prNumber Status.building) ;;
  emit env None "preview-status-update"
    (StatusUpdate None (Project.id project) prNumber Status.building None) ;;
  repoPath <- cloneRepoM env (Project.repoOwner project) (Project.repoName project) ref ;;
  tryCatch
    (url <- buildPreview env project (Preview.id preview) repoPath prNumber ;;
     rmSync repoPath ;;
     emit env None "preview-status-update"
       (StatusUpdate None (Project.id project) prNumber Status.live (Some url)))
    (λ err,
       rmSync repoPath ;;
       emit env None "preview-status-update"
         (StatusUpdate None (Project.id project) prNumber Status.error None) ;;
       throw err).

(** [handlePRClosed({ project, prNumber })] *)
Definition handlePRClosed (env : Env) (project : Project.t) (prNumber : Z)
  : M World unit :=
  found <- prismaFindFirst
    (λ p, String.eqb (Preview.projectId p) (Project.id project)
          && Z.eqb (Preview.prNumber p) prNumber) ;;
  match found with
  | None => ret tt
  | Some preview =>
      match truthyText (Preview.containerName preview) with
      | Some name => removeContainer env name ;; ret tt
      | None => ret tt
      end ;;
      prismaUpdate (Preview.id preview)
        (λ p, Preview.setUrl None (Preview.setStatus Status.deleted p)) ;;
      emit env None "preview-status-update"
        (StatusUpdate None (Project.id project) prNumber Status.deleted None)
  end.

(** ** routes/previewActions.js *)

Inductive Body :=
| ErrorBody (error : string)              (* { error } *)
| OkBody                                  (* { ok: true } *)
| OkUrlBody (url : string)                (* { ok: true, url } *)
| FailedBody (error : string).            (* { ok: false, error } *)

Record Response := mkResponse { statusCode : Z; body : Body }.

Definition typeError : Exn := JsError "Cannot read properties of null".

(** [findUnique({ where: { id }, include: { project: true } })] *)
Definition findPreviewWithProject (id : string)
  : M World (option (Preview.t * option Project.t)) :=
  gets (λ w, match previews w !! id with
             | Some p => Some (p, projects w !! Preview.projectId p)
             | None => None
             end).

(** Reading a property of a value that may be [null]. *)
Definition notNull {A} (v : option A) : M World A :=
  match v with Some a => ret a | None => throw typeError end.

Definition snapshotOf (id : string) : M World Preview.t :=
  updated <- prismaFindUnique id ;; notNull updated.

(** [POST /preview/:id/rebuild], past the [auth] middleware; [userId] is
    [req.user.userId] and [id] is [req.params.id]. *)
Definition rebuildRoute (env : Env) (userId id : string) : M World Response :=
  tryCatch
    (found <- findPreviewWithProject id ;;
     match found with
     | None => ret (mkResponse 404 (ErrorBody "Preview not found"))
     | Some (preview, owner) =>
         project <- notNull owner ;;
         if negb (String.eqb (Project.userId project) userId)
         then ret (mkResponse 403 (ErrorBody "Not allowed"))
         else
           match truthyText (Preview.containerName preview) with
           | Some name => removeContainer env name ;; ret tt
           | None => ret tt
           end ;;
           startedAt <- newDate ;;
           prismaUpdate (Preview.id preview)
             (λ p, Preview.setBuildCompletedAt None
                     (Preview.setBuildStartedAt (Some startedAt)
                        (Preview.setUrl None
                           (Preview.setStatus Status.building p)))) ;;
           emit env None "preview-status-update"
             (StatusUpdate (Some (Preview.id preview)) (Preview.projectId preview)
                (Preview.prNumber preview) Status.building None) ;;
           repoPath <- cloneRepoM env (Project.repoOwner project)
                         (Project.repoName project) None ;;
           tryCatch
             (url <- buildPreview env project (Preview.id preview) repoPath
                       (Preview.prNumber preview) ;;
              tryCatch (rmSync repoPath) (λ _, ret tt) ;;
              updated <- snapshotOf (Preview.id preview) ;;
              emit env None "preview-status-update" (Snapshot updated) ;;
              ret (mkResponse 200 (OkUrlBody url)))
             (λ err,
                completedAt <- newDate ;;
                prismaUpdate (Preview.id preview)
                  (λ p, Preview.setContainerName None
                          (Preview.setUrl None
                             (Preview.setBuildCompletedAt (Some completedAt)
                                (Preview.setStatus Status.error p)))) ;;
                updated <- snapshotOf (Preview.id preview) ;;
                emit env None "preview-status-update" (Snapshot updated) ;;
                tryCatch (rmSync repoPath) (λ _, ret tt) ;;
                ret (mkResponse 500 (FailedBody "Build failed")))
     end)
    (λ err,
       effect (Console "rebuild error:") ;;
       ret (mkResponse 500 (ErrorBody "Unexpected error"))).

(** [POST /preview/:id/delete], past the [auth] middleware. *)
Definition deleteRoute (env : Env) (userId id : string) : M World Response :=
  tryCatch
    (found <- findPreviewWithProject id ;;
     match found with
     | None => ret (mkResponse 404 (ErrorBody "Preview not found"))
     | Some (preview, owner) =>
         project <- notNull owner ;;
         if negb (String.eqb (Project.userId project) userId)
         then ret (mkResponse 403 (ErrorBody "Not allowed"))
         else
           match truthyText (Preview.containerName preview) with
           | Some name => removeContainer env name ;; ret tt
           | None => ret tt
           end ;;
           completedAt <- newDate ;;
           prismaUpdate (Preview.id preview)
             (λ p, Preview.setBuildCompletedAt (Some completedAt)
                     (Preview.setContainerName None
                        (Preview.setUrl None
                           (Preview.setStatus Status.deleted p)))) ;;
           updated <- snapshotOf (Preview.id preview) ;;
           emit env None "preview-status-update" (Snapshot updated) ;;
           ret (mkResponse 200 OkBody)
     end)
    (λ err,
       effect (Console "delete preview error:") ;;
       ret (mkResponse 500 (ErrorBody "Delete failed"))).

(** The store query behind [portReservedInDB]. *)
Definition holdsPort (port : Z) (p : Preview.t) : bool :=
  bool_decide (Preview.port p = Some port)
  && negb (Status.eqb (Preview.status p) Status.deleted).

Definition reservedIn (db : gmap string Preview.t) (port : Z) : bool :=
  isSome (findFirst (holdsPort port) db).


(** ** Sample data *)

Definition sampleProject : Project.t :=
  Project.mk "ckv9x2ab4000" "Acme" "Web_App" "user-1".

Definition quietProc : Proc := mkProc ["ok"] (Exited (Some 0)).

(** Everything outside goes well: every port can be bound, the socket
    works, the clone and every command succeed. *)
Definition calmEnv : Env :=
  mkEnv (λ _, true) (λ _, false) (JsError "Socket.io not initialized!")
        (λ _ _ _, inr "/tmp/repo") (λ _, quietProc) (λ _, inr [])
        "/srv/deploy-templates/vite.Dockerfile" "pv-new".

Definition liveRow (id : string) (prNumber port : Z) : Preview.t :=
  Preview.mk id (Project.id sampleProject) prNumber Status.live
    (Some ("http://localhost:" +:+ numToString port)) (Some port)
    (Some (generateContainerName sampleProject prNumber 1)) 2
    (Some 10) (Some 11) (Some "built").

Definition worldOf (rows : list Preview.t) : World :=
  mkWorld (list_to_map ((λ p, (Preview.id p, p)) <$> rows))
          {[ Project.id sampleProject := sampleProject ]}
          100 EmptyString 0 [] [].

(** Port 5001 is bound by a process the store knows nothing about. *)
Definition env5001Bound : Env :=
  mkEnv (λ port, negb (Z.eqb port 5001)) (λ _, false) (ioError calmEnv)
        (cloneRepo calmEnv) (shell calmEnv) (staleContainers calmEnv)
        (dockerfile calmEnv) (newId calmEnv).


(** ** The store-relevant part of the state

    What the table, the clock, the log buffer and the write history hold;
    the socket counter and the effect log are left out. *)

Record Core := mkCore {
  cPreviews : gmap string Preview.t;
  cProjects : gmap string Project.t;
  cClock : Z;
  cLogs : string;
  cHistory : list Preview.t
}.

Definition core (w : World) : Core :=
  mkCore (previews w) (projects w) (clock w) (logs w) (history w).

Definition coreWrite (id : string) (row : Preview.t) (c : Core) : Core :=
  mkCore (<[id := row]> (cPreviews c)) (cProjects c) (cClock c) (cLogs c)
         (row :: cHistory c).

Definition coreTick (c : Core) : Core :=
  mkCore (cPreviews c) (cProjects c) (cClock c + 1) (cLogs c) (cHistory c).

Definition coreLogs (text : string) (c : Core) : Core :=
  mkCore (cPreviews c) (cProjects c) (cClock c) text (cHistory c).

(** [post m c R]: run from any state whose store-relevant part is [c], the
    computation [m] ends with a result and a store-relevant part related
    by [R]. *)
Definition post {A} (m : M World A) (c : Core) (R : Exn + A → Core → Prop) : Prop :=
  ∀ w, core w = c → R (fst (m w)) (core (snd (m w))).

(** How a command run by [run] is settled. *)
Definition procOutcome (pr : Proc) : Exn + unit :=
  match ending pr with
  | Exited (Some 0) => inr tt
  | Exited code => inl (JsError ("Command failed with exit code " +:+ codeToString code))
  | Crashed err => inl err
  end.

Fixpoint joinChunks (chunks : list string) : string :=
  match chunks with
  | [] => EmptyString
  | x :: rest => x +:+ joinChunks rest
  end.

(** The least port of [n] candidates from [port] on that is neither
    reserved in the store nor bound. *)
Fixpoint firstFree (env : Env) (db : gmap string Preview.t) (n : nat) (port : Z)
  : option Z :=
  match n with
  | O => None
  | Datatypes.S n' =>
      if reservedIn db port || negb (osPortFree env port)
      then firstFree env db n' (port + 1)
      else Some port
  end.

(** What "Assign or revalidate port" comes to. *)
Inductive PortPlan := Reuse (port : Z) | Fresh (port : Z) | NoPort.

Definition portPlan (env : Env) (db : gmap string Preview.t) (held : option Z)
  : PortPlan :=
  match truthyNumber held with
  | None =>
      match firstFree env db 1000 5000 with
      | Some q => Fresh q
      | None => NoPort
      end
  | Some q0 =>
      if osPortFree env q0 then Reuse q0
      else match firstFree env db 1000 4000 with
           | Some q => Fresh q
           | None => NoPort
           end
  end.

(** ** What one call of [buildPreview] comes to

    The rows it writes, named after the [data] objects of the source. *)

Definition nextBuildNumberOf (p : Preview.t) : Z :=
  if Z.eqb (Preview.buildNumber p) 0 then 1 else Preview.buildNumber p.

Definition started (t : Z) (p : Preview.t) : Preview.t :=
  Preview.setBuildStartedAt (Some t) (Preview.setStatus Status.building p).

Definition named (name : string) (p : Preview.t) : Preview.t :=
  Preview.incrementBuildNumber 1 (Preview.setContainerName (Some name) p).

Definition finishedLive (t : Z) (text url : string) (p : Preview.t) : Preview.t :=
  Preview.setBuildCompletedAt (Some t)
    (Preview.setBuildLogs (Some text)
       (Preview.setUrl (Some url) (Preview.setStatus Status.live p))).

Definition failedRow (t : Z) (text : string) (err : Exn) (p : Preview.t) : Preview.t :=
  Preview.setPort None
    (Preview.setBuildCompletedAt (Some t)
       (Preview.setBuildLogs
          (Some (text +:+ nl +:+ nl +:+ "ERROR:" +:+ nl +:+ errDetail err))
          (Preview.setStatus Status.error p))).

Definition announce (command : string) : string := nl +:+ "> " +:+ command +:+ nl.

(** The log buffer after a command was announced and has run. *)
Definition logsAfter (env : Env) (command : string) (c : Core) : Core :=
  coreLogs ((cLogs c +:+ announce command) +:+ joinChunks (output (shell env command))) c.

Definition failSummary (id : string) (e : Exn) (p : Preview.t) (c : Core)
  : (Exn + string) * Core :=
  (inl e, coreWrite id (failedRow (cClock c) (cLogs c) e p) (coreTick c)).

Definition launchSummary (env : Env) (project : Project.t) (id repoPath : string)
    (prNumber : Z) (name : string) (q : Z) (p2 : Preview.t) (c2 : Core)
  : (Exn + string) * Core :=
  let p3 := named name p2 in
  let c3 := coreWrite id p3 c2 in
  let image := baseName project prNumber in
  let buildCmd := dockerBuildCommand image (dockerfile env) repoPath in
  let cB := logsAfter env buildCmd c3 in
  match procOutcome (shell env buildCmd) with
  | inl e => failSummary id e p3 cB
  | inr _ =>
      let runCmd := dockerRunCommand name q image in
      let cR := logsAfter env runCmd cB in
      match procOutcome (shell env runCmd) with
      | inl e => failSummary id e p3 cR
      | inr _ =>
          let url := "http://localhost:" +:+ numToString q in
          (inr url,
           coreWrite id (finishedLive (cClock cR) (cLogs cR) url p3) (coreTick cR))
      end
  end.

Definition buildSummary (env : Env) (project : Project.t) (id repoPath : string)
    (prNumber : Z) (c : Core) (p0 : Preview.t) : (Exn + string) * Core :=
  let p1 := started (cClock c) p0 in
  let c1 := coreWrite id p1 (coreTick (coreLogs EmptyString c)) in
  let name := generateContainerName project prNumber (nextBuildNumberOf p1) in
  match portPlan env (cPreviews c1) (Preview.port p1) with
  | NoPort => failSummary id noFreePorts p1 c1
  | Reuse q => launchSummary env project id repoPath prNumber name q p1 c1
  | Fresh q =>
      let p2 := Preview.setPort (Some q) p1 in
      launchSummary env project id repoPath prNumber name q p2 (coreWrite id p2 c1)
  end.

(** ** Operations and the row invariant *)

(** The entry points of the core. *)
Inductive Op :=
| PROpenOrSync (project : Project.t) (prNumber : Z) (ref : option string)
| PRClosed (project : Project.t) (prNumber : Z)
| Build (project : Project.t) (previewId repoPath : string) (prNumber : Z)
| Rebuild (userId id : string)
| Delete (userId id : string).

(** One operation, run to its end in the surroundings [env]. *)
Definition runOp (env : Env) (op : Op) (w : World) : World :=
  match op with
  | PROpenOrSync project prNumber ref => snd (handlePROpenOrSync env project prNumber ref w)
  | PRClosed project prNumber => snd (handlePRClosed env project prNumber w)
  | Build project previewId repoPath prNumber =>
      snd (buildPreview env project previewId repoPath prNumber w)
  | Rebuild userId id => snd (rebuildRoute env userId id w)
  | Delete userId id => snd (deleteRoute env userId id w)
  end.

(** Operations one after the other, each in its own surroundings. *)
Fixpoint runOps (ops : list (Env * Op)) (w : World) : World :=
  match ops with
  | [] => w
  | (env, op) :: rest => runOps rest (runOp env op w)
  end.

(** A live row has a non-empty url and a non-empty port; a deleted row has
    no url. *)
Definition RowOk (p : Preview.t) : Prop :=
  (Preview.status p = Status.live →
     isSome (truthyText (Preview.url p)) = true
     ∧ isSome (truthyNumber (Preview.port p)) = true)
  ∧ (Preview.status p = Status.deleted → Preview.url p = None).

(** Every row of the table, and every row ever written, is as [RowOk] says. *)
Definition CoreInv (c : Core) : Prop :=
  map_Forall (λ _ p, RowOk p) (cPreviews c) ∧ Forall RowOk (cHistory c).

(** A computation that keeps the invariant. *)
Definition keeps {A} (m : M World A) : Prop :=
  ∀ c, CoreInv c → post m c (λ _ c', CoreInv c').

(** Between two states only rows satisfying [P] were written: the history
    grew by such rows, a row of the table is an old one or such a row, and
    no row went away. *)
Definition wroteOnly (P : Preview.t → Prop) (c c' : Core) : Prop :=
  (∃ rows, cHistory c' = (rows ++ cHistory c)%list ∧ Forall P rows)
  ∧ (∀ k p, cPreviews c' !! k = Some p → cPreviews c !! k = Some p ∨ P p)
  ∧ (∀ k, is_Some (cPreviews c !! k) → is_Some (cPreviews c' !! k)).

(** A computation all of whose steps are in the relation [T]. *)
Definition steps (T : Core → Core → Prop) {A} (m : M World A) : Prop :=
  ∀ c, post m c (λ _ c', T c c').

Definition emptyWorld : World :=
  mkWorld ∅ {[ Project.id sampleProject := sampleProject ]} 100 EmptyString 0 [] [].

(** A pull request is opened, built, and then closed. *)
Definition openThenClose : list (Env * Op) :=
  [ (calmEnv, PROpenOrSync sampleProject 42 (Some "refs/pull/42/head"));
    (calmEnv, PRClosed sampleProject 42) ].

(** The build counter of every row, in the table and in the history, is at
    least 1. *)
Definition Counted (c : Core) : Prop :=
  map_Forall (λ _ p, 1 ≤ Preview.buildNumber p) (cPreviews c)
  ∧ Forall (λ p, 1 ≤ Preview.buildNumber p) (cHistory c).

Definition keepsCounted (c c' : Core) : Prop := Counted c → Counted c'.

Definition isNoPort (plan : PortPlan) : bool :=
  match plan with NoPort => true | _ => false end.

(** Surroundings in which one thing goes wrong. *)
Definition withShell (sh : string → Proc) (env : Env) : Env :=
  mkEnv (osPortFree env) (ioFails env) (ioError env) (cloneRepo env) sh
        (staleContainers env) (dockerfile env) (newId env).

Definition withPorts (free : Z → bool) (env : Env) : Env :=
  mkEnv free (ioFails env) (ioError env) (cloneRepo env) (shell env)
        (staleContainers env) (dockerfile env) (newId env).

Definition withClone (clone : Exn + string) (env : Env) : Env :=
  mkEnv (osPortFree env) (ioFails env) (ioError env) (λ _ _ _, clone) (shell env)
        (staleContainers env) (dockerfile env) (newId env).

Definition withSocket (fails : nat → bool) (env : Env) : Env :=
  mkEnv (osPortFree env) fails (ioError env) (cloneRepo env) (shell env)
        (staleContainers env) (dockerfile env) (newId env).

Definition brokenProc : Proc := mkProc ["npm ERR! missing script: build"] (Exited (Some 1)).

(** [docker build] exits with status 1. *)
Definition buildFailsEnv : Env :=
  withShell (λ command, if String.prefix "docker build" command
                        then brokenProc else quietProc) calmEnv.

(** [docker run] exits with status 1. *)
Definition runFailsEnv : Env :=
  withShell (λ command, if String.prefix "docker run" command
                        then brokenProc else quietProc) calmEnv.

(** No port can be bound. *)
Definition noPortsEnv : Env := withPorts (λ _, false) calmEnv.

(** The clone fails. *)
Definition cloneFailsEnv : Env :=
  withClone (inl (JsError "git clone failed")) calmEnv.

(** A row that is not deleted. *)
Definition Active (p : Preview.t) : Prop := Preview.status p ≠ Status.deleted.

(** The row the rebuild route writes first. *)
Definition rebuildStarted (t : Z) (p : Preview.t) : Preview.t :=
  Preview.setBuildCompletedAt None
    (Preview.setBuildStartedAt (Some t)
       (Preview.setUrl None (Preview.setStatus Status.building p))).

(** A pull request is opened and built, closed, and then rebuilt from the
    dashboard. *)
Definition openCloseRebuild : list (Env * Op) :=
  (openThenClose ++ [ (calmEnv, Rebuild "user-1" "pv-new") ])%list.

(** A pull request is opened and built, closed, and then synchronised. *)
Definition openCloseSync : list (Env * Op) :=
  (openThenClose ++ [ (calmEnv, PROpenOrSync sampleProject 42 None) ])%list.

(** The rebuild route from the point where the row has been marked
    building: the announcement, the clone, the build and its two ends. *)
Definition rebuildTail (env : Env) (project : Project.t) (preview : Preview.t)
  : M World Response :=
  emit env None "preview-status-update"
    (StatusUpdate (Some (Preview.id preview)) (Preview.projectId preview)
       (Preview.prNumber preview) Status.building None) ;;
  repoPath <- cloneRepoM env (Project.repoOwner project)
                (Project.repoName project) None ;;
  tryCatch
    (url <- buildPreview env project (Preview.id preview) repoPath
              (Preview.prNumber preview) ;;
     tryCatch (rmSync repoPath) (λ _, ret tt) ;;
     updated <- snapshotOf (Preview.id preview) ;;
     emit env None "preview-status-update" (Snapshot updated) ;;
     ret (mkResponse 200 (OkUrlBody url)))
    (λ err,
       completedAt <- newDate ;;
       prismaUpdate (Preview.id preview)
         (λ p, Preview.setContainerName None
                 (Preview.setUrl None
                    (Preview.setBuildCompletedAt (Some completedAt)
                       (Preview.setStatus Status.error p)))) ;;
       updated <- snapshotOf (Preview.id preview) ;;
       emit env None "preview-status-update" (Snapshot updated) ;;
       tryCatch (rmSync repoPath) (λ _, ret tt) ;;
       ret (mkResponse 500 (FailedBody "Build failed"))).

Definition unexpectedError : Response :=
  mkResponse 500 (ErrorBody "Unexpected error").

(** The open-or-sync handler from the point where the row has been
    upserted. *)
Definition syncTail (env : Env) (project : Project.t) (prNumber : Z)
    (ref : option string) (preview : Preview.t) : M World unit :=
  emit env None "preview-status-update"
    (StatusUpdate None (Project.id project) prNumber Status.building None) ;;
  repoPath <- cloneRepoM env (Project.repoOwner project) (Project.repoName project) ref ;;
  tryCatch
    (url <- buildPreview env project (Preview.id preview) repoPath prNumber ;;
     rmSync repoPath ;;
     emit env None "preview-status-update"
       (StatusUpdate None (Project.id project) prNumber Status.live (Some url)))
    (λ err,
       rmSync repoPath ;;
       emit env None "preview-status-update"
         (StatusUpdate None (Project.id project) prNumber Status.error None) ;;
       throw err).

(** The row [p], stored under [id], is the only row of its pull request. *)
Definition onlyRowOf (db : gmap string Preview.t) (id : string) (p : Preview.t) : Prop :=
  db !! id = Some p ∧ Preview.id p = id
  ∧ ∀ k q, db !! k = Some q →
           Preview.projectId q = Preview.projectId p →
           Preview.prNumber q = Preview.prNumber p → k = id.

Definition deletedRow (id : string) (prNumber port : Z) : Preview.t :=
  Preview.mk id (Project.id sampleProject) prNumber Status.deleted
    None (Some port)
    (Some (generateContainerName sampleProject prNumber 1)) 2
    (Some 10) (Some 12) (Some "built").

(** ** Port availability, as seen before a rebuild *)

(** Every port of the range is reserved in the store or bound. *)
Definition Exhausted (env : Env) (db : gmap string Preview.t) (lo hi : Z) : Prop :=
  ∀ q, lo ≤ q ≤ hi → reservedIn db q = true ∨ osPortFree env q = false.

(** Some port of the range is neither reserved in the store nor bound. *)
Definition Available (env : Env) (db : gmap string Preview.t) (lo hi : Z) : Prop :=
  ∃ q, lo ≤ q ≤ hi ∧ reservedIn db q = false ∧ osPortFree env q = true.

(** The port step of a build of a row holding [held] cannot succeed:
    nothing is left in the range it draws from, and the held port, if
    any, is bound. *)
Definition portStepFails (env : Env) (db : gmap string Preview.t) (held : option Z)
  : Prop :=
  match truthyNumber held with
  | None => Exhausted env db 5000 5999
  | Some q0 => osPortFree env q0 = false ∧ Exhausted env db 4000 4999
  end.

(** The port step succeeds: the held port can be bound, or the range it
    falls back to has a port left. *)
Definition portStepSucceeds (env : Env) (db : gmap string Preview.t) (held : option Z)
  : Prop :=
  match truthyNumber held with
  | None => Available env db 5000 5999
  | Some q0 => osPortFree env q0 = true ∨ Available env db 4000 4999
  end.

(** The row under [id] keeps its build counter. *)
Definition sameCounter (id : string) (c c' : Core) : Prop :=
  ∀ p, cPreviews c !! id = Some p →
       ∃ p', cPreviews c' !! id = Some p'
             ∧ Preview.buildNumber p' = Preview.buildNumber p.

(** Port 5007 is bound; every other port can be bound. *)
Definition env5007Bound : Env := withPorts (λ port, negb (Z.eqb port 5007)) calmEnv.

(** The socket throws at every use. *)
Definition socketDownEnv : Env := withSocket (λ _, true) calmEnv.

(** The socket works for log chunks and throws from the seventh use on, that
    is at the announcement that follows a successful build. *)
Definition socketDropsEnv : Env := withSocket (λ n, (6 <=? n)%nat) calmEnv.

(** ** Further properties: definitions *)

(** The status codes the two routes answer with. *)
Definition knownCode (resp : Response) : Prop :=
  statusCode resp = 200 ∨ statusCode resp = 403
  ∨ statusCode resp = 404 ∨ statusCode resp = 500.

(** A computation that, when it returns, returns one of those answers. *)
Definition answers (m : M World Response) : Prop :=
  ∀ w, match fst (m w) with
       | inr resp => knownCode resp
       | inl _ => True
       end.

Definition notFound : Response := mkResponse 404 (ErrorBody "Preview not found").
Definition notAllowed : Response := mkResponse 403 (ErrorBody "Not allowed").

(** Two surroundings that agree on the ports, on the commands and on the
    build template; they may differ in the socket, in the clone, in the
    stale containers and in the ids they hand out. *)
Definition sameMachine (env1 env2 : Env) : Prop :=
  (∀ q, osPortFree env1 q = osPortFree env2 q)
  ∧ (∀ command, shell env1 command = shell env2 command)
  ∧ dockerfile env1 = dockerfile env2.

(** The announcement and output of the two commands of a build that went
    through, as they end up in [buildLogs]. *)
Definition buildTranscript (env : Env) (buildCmd runCmd : string) : string :=
  announce buildCmd +:+ joinChunks (output (shell env buildCmd))
  +:+ announce runCmd +:+ joinChunks (output (shell env runCmd)).

(** The row [q] stored under [k] stays as it is, and so does the table of
    projects. *)
Definition keepsRow (k : string) (q : Preview.t) (c c' : Core) : Prop :=
  cProjects c' = cProjects c
  ∧ (cPreviews c !! k = Some q → cPreviews c' !! k = Some q).

(** Every row is stored under its own id. *)
Definition wellKeyed (db : gmap string Preview.t) : Prop :=
  ∀ k p, db !! k = Some p → Preview.id p = k.

(** The rows an operation is about: the row of its pull request for the
    two handlers, the row of its id for a build and for the two routes. *)
Definition concerns (op : Op) (k : string) (q : Preview.t) : Prop :=
  match op with
  | PROpenOrSync project prNumber _ | PRClosed project prNumber =>
      Preview.projectId q = Project.id project ∧ Preview.prNumber q = prNumber
  | Build _ id _ _ | Rebuild _ id | Delete _ id => k = id
  end.

(** A later state of the same row: same identity, and a build counter
    that is not smaller. *)
Definition grownFrom (p p' : Preview.t) : Prop :=
  Preview.id p' = Preview.id p
  ∧ Preview.projectId p' = Preview.projectId p
  ∧ Preview.prNumber p' = Preview.prNumber p
  ∧ Preview.buildNumber p ≤ Preview.buildNumber p'.

Definition evolves (c c' : Core) : Prop :=
  cProjects c' = cProjects c
  ∧ cClock c ≤ cClock c'
  ∧ (∃ rows, cHistory c' = (rows ++ cHistory c)%list)
  ∧ ∀ k p, cPreviews c !! k = Some p →
           ∃ p', cPreviews c' !! k = Some p' ∧ grownFrom p p'.

(** A row as the open-or-sync handler creates it. *)
Definition newRow (id : string) (prNumber : Z) : Preview.t :=
  Preview.created id (Project.id sampleProject) prNumber Status.building.

(** What an answer of the rebuild route says about the row under [id]. *)
Definition rebuildAnswerOk (id : string) (resp : Response)
    (db : gmap string Preview.t) : Prop :=
  match body resp with
  | OkUrlBody url =>
      statusCode resp = 200
      ∧ ∃ pf, db !! id = Some pf
              ∧ Preview.status pf = Status.live ∧ Preview.url pf = Some url
  | FailedBody _ =>
      statusCode resp = 500
      ∧ ∃ pf, db !! id = Some pf
              ∧ Preview.status pf = Status.error ∧ Preview.url pf = None
              ∧ Preview.containerName pf = None
  | ErrorBody _ => statusCode resp ≠ 200
  | OkBody => False
  end.

(** The row the delete route writes. *)
Definition deletedAt (t : Z) (p : Preview.t) : Preview.t :=
  Preview.setBuildCompletedAt (Some t)
    (Preview.setContainerName None
       (Preview.setUrl None (Preview.setStatus Status.deleted p))).

(** What an answer of the delete route says about the row under [id],
    given the table and the clock before the request. *)
Definition deleteAnswerOk (id : string) (resp : Response)
    (before : gmap string Preview.t) (t : Z) (after : gmap string Preview.t) : Prop :=
  match body resp with
  | OkBody =>
      statusCode resp = 200
      ∧ ∃ p, before !! id = Some p ∧ after !! id = Some (deletedAt t p)
  | ErrorBody _ => statusCode resp ≠ 200
  | _ => False
  end.

(** The row the pull-request-closed handler writes. *)
Definition closedRow (p : Preview.t) : Preview.t :=
  Preview.setUrl None (Preview.setStatus Status.deleted p).

(** No row of the table belongs to the pull request. *)
Definition noRowOf (db : gmap string Preview.t) (project : Project.t) (prNumber : Z)
  : Prop :=
  ∀ k p, db !! k = Some p →
         ¬ (Preview.projectId p = Project.id project ∧ Preview.prNumber p = prNumber).

(** The characters a container name is made of. *)
Definition nameChar (c : ascii) : bool := isLower c || isDigit c || isHyphen c.

Fixpoint allChars (f : ascii → bool) (s : string) : bool :=
  match s with
  | EmptyString => true
  | String c s' => f c && allChars f s'
  end.

(** The part of a container name that comes from the project. *)
Definition namePrefix (project : Project.t) : string :=
  replaceDisallowed (toLowerCase ("preview-p" +:+ slice8 (Project.id project) +:+ "-pr")).

(** A second project, whose id starts with the same eight characters. *)
Definition siblingProject : Project.t :=
  Project.mk "ckv9x2ab4001" "Acme" "Docs" "user-2".

(** The string [s] does not contain the character [x]. *)
Fixpoint lacks (x : ascii) (s : string) : Prop :=
  match s with
  | EmptyString => True
  | String c s' => c ≠ x ∧ lacks x s'
  end.

(** Rows stored under their ids stay stored under their ids. *)
Definition keepsKeys (c c' : Core) : Prop :=
  wellKeyed (cPreviews c) → wellKeyed (cPreviews c').

(** What [buildPreview] for the preview [id] may do to the outside: emit
    log events to the room of the preview, run docker commands, and write
    to the console. It does not remove the checkout. *)
Definition scoped (id : string) (e : Effect) : Prop :=
  match e with
  | Emit room topic _ =>
      room = Some id ∧ (topic = "log" ∨ topic = "log-finish" ∨ topic = "log-error")
  | Exec command => String.prefix "docker " command = true
  | RmSync _ => False
  | Console _ => True
  end.

(** Between two states only effects satisfying [P] were added. *)
Definition addsOnly (P : Effect → Prop) (w w' : World) : Prop :=
  ∃ es, effects w' = (es ++ effects w)%list ∧ Forall P es.

Definition acts (P : Effect → Prop) {A} (m : M World A) : Prop :=
  ∀ w, addsOnly P w (snd (m w)).

(** The row the rebuild route writes when the build has failed. *)
Definition rebuildFailed (t : Z) (p : Preview.t) : Preview.t :=
  Preview.setContainerName None
    (Preview.setUrl None
       (Preview.setBuildCompletedAt (Some t) (Preview.setStatus Status.error p))).

(** How a handler ends that passes on what the build did. *)
Definition passedOn (r : Exn + string) : Exn + unit :=
  match r with
  | inr _ => inr tt
  | inl e => inl e
  end.

(** A preview that was closed and a live preview of another pull request
    that was given the same port afterwards. *)
Definition sharedPortWorld : World :=
  worldOf [deletedRow "pv-a" 7 5007; liveRow "pv-b" 8 5007].

(** Any effect at all. *)
Definition anyEffect (e : Effect) : Prop := True.
(** * Verification *)

(** ** Container names *)

Lemma append_nil (b : string) : EmptyString +:+ b = b.
Proof. reflexivity. Qed.

Lemma append_cons (x : ascii) (a b : string) :
  String x a +:+ b = String x (a +:+ b).
Proof. reflexivity. Qed.

Lemma append_assoc (a b c : string) : (a +:+ b) +:+ c = a +:+ (b +:+ c).
Proof.
  induction a as [|x a IH]; [done |].
  by rewrite !append_cons, IH.
Qed.

Lemma mapString_app f (a b : string) :
  mapString f (a +:+ b) = mapString f a +:+ mapString f b.
Proof.
  induction a as [|c a IH]; [done |].
  rewrite append_cons. simpl. by rewrite IH, append_cons.
Qed.

Lemma mapString_compose f g (s : string) :
  mapString f (mapString g s) = mapString (λ c, f (g c)) s.
Proof. induction s as [|c s IH]; simpl; [done | by rewrite IH]. Qed.

(** The characters of a rendered number survive sanitisation. *)
Definition keptChar (c : ascii) : Prop := sanitizeChar (lowerChar c) = c.

Fixpoint allKept (s : string) : Prop :=
  match s with
  | EmptyString => True
  | String c s' => keptChar c ∧ allKept s'
  end.

Lemma mapString_kept (s : string) :
  allKept s → mapString (λ c, sanitizeChar (lowerChar c)) s = s.
Proof.
  induction s as [|c s IH]; simpl; [done |].
  intros [Hc Hs]. unfold keptChar in Hc. by rewrite Hc, IH.
Qed.

Lemma uint_allKept (d : Decimal.uint) : allKept (NilEmpty.string_of_uint d).
Proof. induction d; simpl; (done || (split; [reflexivity | assumption])). Qed.

Lemma numToString_allKept (n : Z) : allKept (numToString n).
Proof.
  unfold numToString. destruct (Z.to_int n) as [d|d]; simpl.
  - apply uint_allKept.
  - split; [reflexivity | apply uint_allKept].
Qed.

Lemma numToString_inj (a b : Z) : numToString a = numToString b → a = b.
Proof.
  unfold numToString. intros H.
  apply DecimalZ.to_int_inj.
  assert (Some (Z.to_int a) = Some (Z.to_int b)) as E.
  { rewrite <- !NilEmpty.isi. by rewrite H. }
  by inversion E.
Qed.

Lemma sanitized_number (n : Z) :
  replaceDisallowed (toLowerCase (numToString n)) = numToString n.
Proof.
  unfold replaceDisallowed, toLowerCase. rewrite mapString_compose.
  apply mapString_kept, numToString_allKept.
Qed.

(** The name is a fixed prefix, determined by the project and the pull
    request, followed by the decimal build number. *)
Lemma generateContainerName_split (project : Project.t) (prNumber buildNumber : Z) :
  generateContainerName project prNumber buildNumber =
  replaceDisallowed (toLowerCase
    ("preview-p" +:+ slice8 (Project.id project) +:+ "-pr" +:+ numToString prNumber +:+ "-b"))
  +:+ numToString buildNumber.
Proof.
  unfold generateContainerName; cbv zeta.
  rewrite <- (sanitized_number buildNumber) at 2.
  unfold replaceDisallowed, toLowerCase.
  rewrite <- !mapString_app. do 2 f_equal.
  by rewrite !append_assoc.
Qed.

Lemma generateContainerName_buildNumber_inj (project : Project.t) (prNumber b1 b2 : Z) :
  generateContainerName project prNumber b1 = generateContainerName project prNumber b2 →
  b1 = b2.
Proof.
  intros E. rewrite !generateContainerName_split in E.
  by apply String.app_inj, numToString_inj in E.
Qed.

(** C8. [generateContainerName] is a function of its three arguments only:
    equal (project, prNumber, buildNumber) triples give equal identifiers;
    and for a fixed project and pull request, two different build numbers
    give two different identifiers. *)
Theorem generateContainerName_deterministic :
  (∀ p1 p2 pr1 pr2 b1 b2,
      (p1, pr1, b1) = (p2, pr2, b2) →
      generateContainerName p1 pr1 b1 = generateContainerName p2 pr2 b2) ∧
  (∀ p pr b1 b2,
      b1 ≠ b2 → generateContainerName p pr b1 ≠ generateContainerName p pr b2).
Proof.
  split.
  - intros p1 p2 pr1 pr2 b1 b2 E. by inversion E.
  - intros p pr b1 b2 Hne E. apply Hne.
    by apply (generateContainerName_buildNumber_inj p pr).
Qed.

(** ** The port allocator *)

Section AllocatorFacts.
Context {S : Type}.
Variable reserved : Z → M S bool.
Variable free : Z → M S bool.

Lemma scanPorts_Allocates (n : nat) :
  ∀ lo hi s, n = Z.to_nat (hi - lo + 1) →
    Allocates reserved free lo hi s (scanPorts reserved free n lo s).
Proof.
  induction n as [|n IH]; intros lo hi s Hn.
  - simpl. apply Alloc_exhausted. lia.
  - assert (lo ≤ hi) as Hle by lia.
    assert (n = Z.to_nat (hi - (lo + 1) + 1)) as Hn' by lia.
    simpl. unfold bind at 1.
    destruct (reserved lo s) as [[e|[|]] s1] eqn:Ha.
    + by eapply Alloc_store_throws.
    + eapply Alloc_skip_reserved; eauto.
    + unfold bind at 1.
      destruct (free lo s1) as [[e|[|]] s2] eqn:Hb; simpl.
      * by eapply Alloc_bind_throws.
      * unfold bind at 1.
        destruct (reserved lo s2) as [[e|[|]] s3] eqn:Hc.
        -- by eapply Alloc_recheck_throws.
        -- eapply Alloc_skip_claimed; eauto.
        -- by eapply Alloc_found.
      * eapply Alloc_skip_bound; eauto.
Qed.
End AllocatorFacts.

Lemma findFirst_Some (f : Preview.t → bool) (db : gmap string Preview.t) p :
  findFirst f db = Some p → f p = true ∧ ∃ k, db !! k = Some p.
Proof.
  unfold findFirst. intros H. apply find_some in H as [Hin Hf].
  split; [done |].
  apply list_elem_of_In, list_elem_of_fmap in Hin as [[k q] [-> Hin]].
  exists k. by apply elem_of_map_to_list.
Qed.

Lemma findFirst_None (f : Preview.t → bool) (db : gmap string Preview.t) :
  findFirst f db = None → ∀ k p, db !! k = Some p → f p = false.
Proof.
  unfold findFirst. intros H k p Hk.
  eapply find_none in H; [exact H |].
  apply list_elem_of_In, list_elem_of_fmap. exists (k, p).
  split; [done |]. by apply elem_of_map_to_list.
Qed.

Lemma reservedIn_true (db : gmap string Preview.t) port k p :
  db !! k = Some p → Preview.port p = Some port →
  Preview.status p ≠ Status.deleted → reservedIn db port = true.
Proof.
  intros Hk Hp Hs. unfold reservedIn.
  destruct (findFirst (holdsPort port) db) as [q|] eqn:E; [done |].
  eapply findFirst_None in E; [|exact Hk].
  unfold holdsPort in E. rewrite bool_decide_eq_true_2 in E by done.
  destruct (Preview.status p); simpl in E; (discriminate || done).
Qed.

Lemma portReservedInDB_run (port : Z) (w : World) :
  portReservedInDB port w = (inr (reservedIn (previews w) port), w).
Proof. reflexivity. Qed.

Lemma scanPorts_World_step (env : Env) (w : World) (n : nat) (lo : Z) :
  scanPorts portReservedInDB (isPortFree env) (Datatypes.S n) lo w =
  if reservedIn (previews w) lo || negb (osPortFree env lo)
  then scanPorts portReservedInDB (isPortFree env) n (lo + 1) w
  else (inr lo, w).
Proof.
  cbn [scanPorts]. unfold bind. rewrite portReservedInDB_run.
  destruct (reservedIn (previews w) lo) eqn:Hr; [done |].
  unfold isPortFree, ret.
  destruct (osPortFree env lo); cbn [negb]; [|done].
  by rewrite portReservedInDB_run, Hr.
Qed.

(** Against the store and the operating system of one instant, the scan
    leaves the state alone and returns the least port of the range that is
    neither reserved nor bound. *)
Lemma scanPorts_World (env : Env) (w : World) (n : nat) :
  ∀ lo,
    (∃ p, scanPorts portReservedInDB (isPortFree env) n lo w = (inr p, w)
          ∧ lo ≤ p < lo + Z.of_nat n
          ∧ reservedIn (previews w) p = false ∧ osPortFree env p = true
          ∧ ∀ q, lo ≤ q < p →
                 reservedIn (previews w) q = true ∨ osPortFree env q = false)
    ∨ (scanPorts portReservedInDB (isPortFree env) n lo w = (inl noFreePorts, w)
       ∧ ∀ q, lo ≤ q < lo + Z.of_nat n →
              reservedIn (previews w) q = true ∨ osPortFree env q = false).
Proof.
  induction n as [|n IH]; intros lo.
  - right. split; [done | intros q Hq; lia].
  - rewrite scanPorts_World_step.
    destruct (reservedIn (previews w) lo) eqn:Hr;
      [|destruct (osPortFree env lo) eqn:Hf]; simpl.
    + destruct (IH (lo + 1)) as [(p & E & Hp & Hrp & Hfp & Hlt)|[E Hall]].
      * left. exists p. repeat split; try done; try lia.
        intros q Hq. destruct (decide (q = lo)) as [->|]; [by left | apply Hlt; lia].
      * right. split; [done |]. intros q Hq.
        destruct (decide (q = lo)) as [->|]; [by left | apply Hall; lia].
    + left. exists lo. repeat split; try done; try lia.
    + destruct (IH (lo + 1)) as [(p & E & Hp & Hrp & Hfp & Hlt)|[E Hall]].
      * left. exists p. repeat split; try done; try lia.
        intros q Hq. destruct (decide (q = lo)) as [->|]; [by right | apply Hlt; lia].
      * right. split; [done |]. intros q Hq.
        destruct (decide (q = lo)) as [->|]; [by right | apply Hall; lia].
Qed.

Lemma findAvailablePort_World (env : Env) (w : World) (lo hi : Z) :
  match findAvailablePort portReservedInDB (isPortFree env) lo hi w with
  | (inr p, w') =>
      w' = w ∧ lo ≤ p ≤ hi
      ∧ reservedIn (previews w) p = false ∧ osPortFree env p = true
      ∧ ∀ q, lo ≤ q < p →
             reservedIn (previews w) q = true ∨ osPortFree env q = false
  | (inl e, w') =>
      w' = w ∧ e = noFreePorts
      ∧ ∀ q, lo ≤ q ≤ hi →
             reservedIn (previews w) q = true ∨ osPortFree env q = false
  end.
Proof.
  unfold findAvailablePort.
  destruct (scanPorts_World env w (Z.to_nat (hi - lo + 1)) lo)
    as [(p & -> & Hp & Hr & Hf & Hlt)|[-> Hall]].
  - repeat split; try done; lia.
  - repeat split; try done. intros q Hq. apply Hall. lia.
Qed.

(** C4. The allocator takes the candidates of the inclusive range in
    ascending order, puts each through the store check, the loopback bind
    check and the store check again, returns the first candidate that
    passes the three, and throws its exhaustion error when none is left.
    Against a store and an operating system that do not move meanwhile,
    that is the least port of the range neither reserved nor bound; and on
    the range 5000-5001, with 5000 held by a preview that is not deleted
    and 5001 bound, the allocation fails with the exhaustion error. *)
Theorem findAvailablePort_scans_range :
  (∀ (S : Type) (reserved free : Z → M S bool) (lo hi : Z) (s : S),
      Allocates reserved free lo hi s (findAvailablePort reserved free lo hi s))
  ∧ (∀ (env : Env) (w : World) (lo hi : Z),
      match findAvailablePort portReservedInDB (isPortFree env) lo hi w with
      | (inr p, w') =>
          w' = w ∧ lo ≤ p ≤ hi
          ∧ reservedIn (previews w) p = false ∧ osPortFree env p = true
          ∧ ∀ q, lo ≤ q < p →
                 reservedIn (previews w) q = true ∨ osPortFree env q = false
      | (inl e, w') =>
          w' = w ∧ e = noFreePorts
          ∧ ∀ q, lo ≤ q ≤ hi →
                 reservedIn (previews w) q = true ∨ osPortFree env q = false
      end)
  ∧ (∀ (env : Env) (w : World) (k : string) (p : Preview.t),
      previews w !! k = Some p →
      Preview.port p = Some 5000 →
      Preview.status p ≠ Status.deleted →
      osPortFree env 5001 = false →
      findAvailablePort portReservedInDB (isPortFree env) 5000 5001 w
      = (inl noFreePorts, w)).
Proof.
  split; [|split].
  - intros S reserved free lo hi s. by apply scanPorts_Allocates.
  - apply findAvailablePort_World.
  - intros env w k p Hk Hport Hst Hos.
    unfold findAvailablePort.
    change (Z.to_nat (5001 - 5000 + 1)) with 2%nat.
    rewrite !scanPorts_World_step.
    rewrite (reservedIn_true _ _ _ _ Hk Hport Hst). simpl.
    change (5000 + 1) with 5001. by rewrite Hos, orb_true_r.
Qed.

Lemma findAvailablePort_scans_range_witness :
  findAvailablePort portReservedInDB (isPortFree env5001Bound) 5000 5001
    (worldOf [liveRow "pv-a" 7 5000])
  = (inl noFreePorts, worldOf [liveRow "pv-a" 7 5000]).
Proof.
  apply (proj2 (proj2 findAvailablePort_scans_range) env5001Bound
           (worldOf [liveRow "pv-a" 7 5000]) "pv-a" (liveRow "pv-a" 7 5000)).
  - vm_compute. reflexivity.
  - reflexivity.
  - discriminate.
  - reflexivity.
Defined.

(** ** Reasoning rules for the monad *)

Section Rules.
Context {A B : Type}.

Lemma post_ret (a : A) c (R : Exn + A → Core → Prop) :
  R (inr a) c → post (ret a) c R.
Proof. intros H w <-. exact H. Qed.

Lemma post_throw (e : Exn) c (R : Exn + A → Core → Prop) :
  R (inl e) c → post (throw e) c R.
Proof. intros H w <-. exact H. Qed.

Lemma post_weaken (m : M World A) c (R1 R : Exn + A → Core → Prop) :
  post m c R1 → (∀ r c', R1 r c' → R r c') → post m c R.
Proof. intros H HR w Hw. apply HR, H, Hw. Qed.

Lemma post_bind (m : M World A) (k : A → M World B) c R1 (R : Exn + B → Core → Prop) :
  post m c R1 →
  (∀ a c1, R1 (inr a) c1 → post (k a) c1 R) →
  (∀ e c1, R1 (inl e) c1 → R (inl e) c1) →
  post (bind m k) c R.
Proof.
  intros Hm Hk He w Hw. specialize (Hm w Hw). unfold bind.
  destruct (m w) as [[e|a] w1]; simpl in *.
  - by apply He.
  - by apply (Hk a (core w1)).
Qed.

Lemma post_tryCatch (m : M World A) (h : Exn → M World A) c R1
    (R : Exn + A → Core → Prop) :
  post m c R1 →
  (∀ e c1, R1 (inl e) c1 → post (h e) c1 R) →
  (∀ a c1, R1 (inr a) c1 → R (inr a) c1) →
  post (tryCatch m h) c R.
Proof.
  intros Hm Hh Ha w Hw. specialize (Hm w Hw). unfold tryCatch.
  destruct (m w) as [[e|a] w1]; simpl in *.
  - by apply (Hh e (core w1)).
  - by apply Ha.
Qed.
End Rules.

(** *** The primitives *)

Lemma post_newDate c :
  post newDate c (λ r c', r = inr (cClock c) ∧ c' = coreTick c).
Proof. by intros w <-. Qed.

Lemma post_effect (e : Effect) c :
  post (effect e) c (λ r c', r = inr tt ∧ c' = c).
Proof. by intros w <-. Qed.

Lemma post_setLogs (text : string) c :
  post (modify (setLogs text)) c (λ r c', r = inr tt ∧ c' = coreLogs text c).
Proof. by intros w <-. Qed.

Lemma post_getLogs c :
  post (gets logs) c (λ r c', r = inr (cLogs c) ∧ c' = c).
Proof. by intros w <-. Qed.

Lemma post_emit (env : Env) room topic payload c :
  post (emit env room topic payload) c
       (λ r c', (r = inr tt ∨ r = inl (ioError env)) ∧ c' = c).
Proof.
  intros w <-. unfold emit. destruct (ioFails env (ioCalls w)); simpl; auto.
Qed.

Lemma post_emit_up (env : Env) room topic payload c :
  (∀ n, ioFails env n = false) →
  post (emit env room topic payload) c (λ r c', r = inr tt ∧ c' = c).
Proof. intros Hup w <-. unfold emit. by rewrite Hup. Qed.

(** An emission inside [try { ... } catch { }] never throws. *)
Lemma post_emit_guarded (env : Env) room topic payload c :
  post (tryCatch (emit env room topic payload) (λ _, ret tt)) c
       (λ r c', r = inr tt ∧ c' = c).
Proof.
  eapply post_tryCatch; [apply post_emit | |].
  - intros e c1 [_ ->]. by apply post_ret.
  - intros [] c1 [_ ->]. done.
Qed.

Lemma post_prismaUpdate (id : string) (data : Preview.t → Preview.t) c :
  post (prismaUpdate id data) c
       (λ r c', match cPreviews c !! id with
                | Some p => r = inr (data p) ∧ c' = coreWrite id (data p) c
                | None => r = inl recordNotFound ∧ c' = c
                end).
Proof.
  intros w <-. unfold prismaUpdate. simpl.
  by destruct (previews w !! id).
Qed.

Lemma post_prismaFindUnique (id : string) c :
  post (prismaFindUnique id) c (λ r c', r = inr (cPreviews c !! id) ∧ c' = c).
Proof. by intros w <-. Qed.

Lemma post_prismaFindFirst (where_ : Preview.t → bool) c :
  post (prismaFindFirst where_) c
       (λ r c', r = inr (findFirst where_ (cPreviews c)) ∧ c' = c).
Proof. by intros w <-. Qed.

Lemma post_prismaCreate (row : Preview.t) c :
  post (prismaCreate row) c
       (λ r c', match cPreviews c !! Preview.id row with
                | Some _ => r = inl uniqueViolation ∧ c' = c
                | None => r = inr row ∧ c' = coreWrite (Preview.id row) row c
                end).
Proof.
  intros w <-. unfold prismaCreate. simpl.
  by destruct (previews w !! Preview.id row).
Qed.

Lemma post_findPreviewWithProject (id : string) c :
  post (findPreviewWithProject id) c
       (λ r c', r = inr (match cPreviews c !! id with
                         | Some p => Some (p, cProjects c !! Preview.projectId p)
                         | None => None
                         end) ∧ c' = c).
Proof. by intros w <-. Qed.

Lemma post_notNull {A} (v : option A) c :
  post (notNull v) c
       (λ r c', r = match v with Some a => inr a | None => inl typeError end ∧ c' = c).
Proof. intros w <-. by destruct v. Qed.

Lemma post_rmSync (path : string) c :
  post (rmSync path) c (λ r c', r = inr tt ∧ c' = c).
Proof. apply post_effect. Qed.

Lemma post_cloneRepoM (env : Env) owner name ref c :
  post (cloneRepoM env owner name ref) c
       (λ r c', r = cloneRepo env owner name ref ∧ c' = c).
Proof. intros w <-. unfold cloneRepoM. by destruct (cloneRepo env owner name ref). Qed.

Lemma post_isPortFree (env : Env) (port : Z) c :
  post (isPortFree env port) c (λ r c', r = inr (osPortFree env port) ∧ c' = c).
Proof. by intros w <-. Qed.

Lemma post_removeContainer (env : Env) (name : string) c :
  post (removeContainer env name) c (λ r c', (∃ b, r = inr b) ∧ c' = c).
Proof.
  intros w <-. unfold removeContainer, bind, effect, modify. simpl.
  destruct (ending (shell env ("docker rm -f " +:+ name))) as [[[| |]|]|];
    simpl; eauto.
Qed.

Lemma post_forEach_quiet {X} (l : list X) (f : X → M World unit) c :
  (∀ x, post (f x) c (λ r c', r = inr tt ∧ c' = c)) →
  post (forEach l f) c (λ r c', r = inr tt ∧ c' = c).
Proof.
  intros Hf. induction l as [|x l IH]; simpl.
  - by apply post_ret.
  - eapply post_bind; [apply Hf | |].
    + intros [] c1 [_ ->]. apply IH.
    + intros e c1 [? _]. discriminate.
Qed.

Lemma post_removeContainerIfExists (env : Env) (name : string) c :
  post (removeContainerIfExists env name) c (λ r c', r = inr tt ∧ c' = c).
Proof.
  unfold removeContainerIfExists.
  eapply post_bind; [apply post_effect | |].
  - intros [] c1 [_ ->].
    destruct (staleContainers env name) as [e|lines]; [apply post_effect |].
    apply post_forEach_quiet. intros id.
    eapply post_bind; [apply post_effect | |].
    + intros [] c2 [_ ->].
      destruct (ending (shell env ("docker rm -f " +:+ id))) as [[[| |]|]|];
        (by apply post_ret) || apply post_effect.
    + intros e c2 [? _]. discriminate.
  - intros e c1 [? _]. discriminate.
Qed.

Lemma coreLogs_coreLogs (a b : string) c : coreLogs a (coreLogs b c) = coreLogs a c.
Proof. reflexivity. Qed.

Lemma append_nil_r (a : string) : a +:+ EmptyString = a.
Proof. induction a as [|x a IH]; [done |]. by rewrite append_cons, IH. Qed.

Lemma post_appendLogs (chunk : string) c :
  post (modify (λ w, setLogs (logs w +:+ chunk) w)) c
       (λ r c', r = inr tt ∧ c' = coreLogs (cLogs c +:+ chunk) c).
Proof. by intros w <-. Qed.

Lemma post_push (env : Env) (id chunk : string) c :
  post (push env id chunk) c
       (λ r c', r = inr tt ∧ c' = coreLogs (cLogs c +:+ chunk) c).
Proof.
  unfold push. eapply post_bind; [apply post_appendLogs | |].
  - intros [] c1 [_ ->]. apply post_emit_guarded.
  - intros e c1 [? _]. discriminate.
Qed.

Lemma post_forEach_push (env : Env) (id : string) (chunks : list string) :
  ∀ c, post (forEach chunks (push env id)) c
            (λ r c', r = inr tt ∧ c' = coreLogs (cLogs c +:+ joinChunks chunks) c).
Proof.
  induction chunks as [|x chunks IH]; intros c; simpl.
  - apply post_ret. split; [done |]. rewrite append_nil_r. by destruct c.
  - eapply post_bind; [apply post_push | |].
    + intros [] c1 [_ ->]. eapply post_weaken; [apply IH |].
      intros r c' [-> ->]. split; [done |].
      simpl. by rewrite coreLogs_coreLogs, append_assoc.
    + intros e c1 [? _]. discriminate.
Qed.

(** [run] with [push] as its listener: the output lands in the log buffer
    and the command is settled by how it ended. *)
Lemma post_run (env : Env) (id command : string) c :
  post (run env command (push env id)) c
       (λ r c', r = procOutcome (shell env command)
                ∧ c' = coreLogs (cLogs c +:+ joinChunks (output (shell env command))) c).
Proof.
  unfold run.
  eapply post_bind; [apply post_effect | |].
  - intros [] c1 [_ ->].
    eapply post_bind; [apply post_forEach_push | |].
    + intros [] c2 [_ ->]. unfold procOutcome.
      destruct (ending (shell env command)) as [[[| |]|]|];
        (by apply post_ret) || (by apply post_throw).
    + intros e c2 [? _]. discriminate.
  - intros e c1 [? _]. discriminate.
Qed.

(** ** The build flow *)

Lemma scanPorts_firstFree (env : Env) (w : World) (n : nat) :
  ∀ lo, scanPorts portReservedInDB (isPortFree env) n lo w
        = (match firstFree env (previews w) n lo with
           | Some q => inr q
           | None => inl noFreePorts
           end, w).
Proof.
  induction n as [|n IH]; intros lo; [done |].
  rewrite scanPorts_World_step. simpl.
  destruct (reservedIn (previews w) lo || negb (osPortFree env lo)); [apply IH | done].
Qed.

Lemma post_findAvailablePort (env : Env) (lo hi : Z) c :
  post (findAvailablePort portReservedInDB (isPortFree env) lo hi) c
       (λ r c', r = match firstFree env (cPreviews c) (Z.to_nat (hi - lo + 1)) lo with
                    | Some q => inr q
                    | None => inl noFreePorts
                    end ∧ c' = c).
Proof. intros w <-. unfold findAvailablePort. by rewrite scanPorts_firstFree. Qed.

Lemma firstFree_Some (env : Env) db (n : nat) :
  ∀ lo q, firstFree env db n lo = Some q →
    lo ≤ q < lo + Z.of_nat n ∧ reservedIn db q = false ∧ osPortFree env q = true.
Proof.
  induction n as [|n IH]; intros lo q; simpl; [done |].
  destruct (reservedIn db lo) eqn:Hr; simpl.
  - intros H. apply IH in H as (H1 & H2 & H3). repeat split; try done; lia.
  - destruct (osPortFree env lo) eqn:Hf; simpl.
    + intros [= <-]. repeat split; try done; lia.
    + intros H. apply IH in H as (H1 & H2 & H3). repeat split; try done; lia.
Qed.

Lemma firstFree_None (env : Env) db (n : nat) :
  ∀ lo, firstFree env db n lo = None ↔
        ∀ q, lo ≤ q < lo + Z.of_nat n →
             reservedIn db q = true ∨ osPortFree env q = false.
Proof.
  induction n as [|n IH]; intros lo; simpl.
  - split; [intros _ q Hq; lia | done].
  - destruct (reservedIn db lo) eqn:Hr; [|destruct (osPortFree env lo) eqn:Hf]; simpl.
    + rewrite IH. split; intros H q Hq.
      * destruct (decide (q = lo)) as [->|]; [by left | apply H; lia].
      * apply H. lia.
    + split; [done |]. intros H. destruct (H lo) as [?|?]; [lia | congruence..].
    + rewrite IH. split; intros H q Hq.
      * destruct (decide (q = lo)) as [->|]; [by right | apply H; lia].
      * apply H. lia.
Qed.

Global Arguments firstFree : simpl never.

Lemma post_assignPort (env : Env) (id : string) (preview p : Preview.t) c :
  cPreviews c !! id = Some p →
  post (assignPort env id preview) c
       (λ r c', match portPlan env (cPreviews c) (Preview.port preview) with
                | NoPort => r = inl noFreePorts ∧ c' = c
                | Reuse q => r = inr q ∧ c' = c
                | Fresh q => r = inr q ∧ c' = coreWrite id (Preview.setPort (Some q) p) c
                end).
Proof.
  intros Hp. unfold assignPort, portPlan.
  assert (∀ lo hi,
    post (freePort <- findAvailablePort portReservedInDB (isPortFree env) lo hi ;;
          prismaUpdate id (Preview.setPort (Some freePort)) ;; ret freePort) c
         (λ r c', match firstFree env (cPreviews c) (Z.to_nat (hi - lo + 1)) lo with
                  | Some q => r = inr q ∧ c' = coreWrite id (Preview.setPort (Some q) p) c
                  | None => r = inl noFreePorts ∧ c' = c
                  end)) as Halloc.
  { intros lo hi. eapply post_bind; [apply post_findAvailablePort | |].
    - intros q c1 [E ->].
      destruct (firstFree env (cPreviews c) (Z.to_nat (hi - lo + 1)) lo) as [q'|];
        [injection E as <- | discriminate].
      eapply post_bind; [apply post_prismaUpdate | |]; rewrite Hp.
      + intros a c1 [_ ->]. by apply post_ret.
      + intros e c1 [? _]. discriminate.
    - intros e c1 [E ->].
      destruct (firstFree env (cPreviews c) (Z.to_nat (hi - lo + 1)) lo);
        [discriminate | by injection E as <-]. }
  destruct (truthyNumber (Preview.port preview)) as [q0|].
  - eapply post_bind; [apply post_isPortFree | |].
    + intros free c1 [[= ->] ->].
      destruct (osPortFree env q0); cbn [negb].
      * by apply post_ret.
      * eapply post_weaken; [apply (Halloc 4000 4999) |].
        intros r c'. change (Z.to_nat (4999 - 4000 + 1)) with 1000%nat.
        by destruct (firstFree env (cPreviews c) 1000 4000).
    + intros e c1 [? _]. discriminate.
  - eapply post_weaken; [apply (Halloc 5000 5999) |].
    intros r c'. change (Z.to_nat (5999 - 5000 + 1)) with 1000%nat.
    by destruct (firstFree env (cPreviews c) 1000 5000).
Qed.

(** One step through a sequence whose head cannot throw. *)
Tactic Notation "step" open_constr(lem) :=
  eapply post_bind; [apply lem | | try (intros ? ? [? _]; discriminate)].

(** [buildPreview] on an existing row does what [buildSummary] says,
    whatever the socket does. *)
Lemma buildPreview_summary (env : Env) (project : Project.t) (id repoPath : string)
    (prNumber : Z) c p0 :
  cPreviews c !! id = Some p0 →
  post (buildPreview env project id repoPath prNumber) c
       (λ r c', (r, c') = buildSummary env project id repoPath prNumber c p0).
Proof.
  intros Hp. unfold buildPreview.
  step post_setLogs. intros [] c1 [_ ->].
  step post_newDate. intros t c1 [[= ->] ->].
  eapply post_bind; [apply post_prismaUpdate | |]; cbn [cPreviews coreTick coreLogs]; rewrite Hp;
    [|intros ? ? [? _]; discriminate].
  intros row c1 [[= ->] ->].
  step post_prismaFindUnique. intros found c1 [[= ->] ->].
  cbn [cPreviews coreWrite]. rewrite lookup_insert_eq.
  step post_removeContainerIfExists. intros [] c1 [_ ->].
  change (Preview.setBuildStartedAt (Some (cClock c)) (Preview.setStatus Status.building p0))
    with (started (cClock c) p0).
  unfold buildSummary.
  set (p1 := started (cClock c) p0).
  set (c1 := coreWrite id p1 (coreTick (coreLogs EmptyString c))).
  change (if Preview.buildNumber p1 =? 0 then 1 else Preview.buildNumber p1)
    with (nextBuildNumberOf p1).
  set (name := generateContainerName project prNumber (nextBuildNumberOf p1)).
  set (goal := match portPlan env (cPreviews c1) (Preview.port p1) with
               | NoPort => _ | _ => _ end).
  eapply post_tryCatch with
    (R1 := λ r cx, match r with
                   | inr url => (inr url, cx) = goal
                   | inl e => ∃ p, cPreviews cx !! id = Some p ∧ failSummary id e p cx = goal
                   end).
  - eapply post_bind; [apply (post_assignPort env id p1 p1 c1); apply lookup_insert_eq | |].
    + intros q cx Hplan.
      assert (∃ p2 c2, cx = c2 ∧ cPreviews c2 !! id = Some p2 ∧
                goal = launchSummary env project id repoPath prNumber name q p2 c2)
        as (p2 & c2 & -> & Hp2 & Hgoal).
      { subst goal.
        destruct (portPlan env (cPreviews c1) (Preview.port p1)) as [q'|q'|];
          destruct Hplan as [[= ->] ->].
        - exists p1, c1. split; [done|]. split; [apply lookup_insert_eq | done].
        - eexists _, _. split; [done|]. split; [apply lookup_insert_eq | done]. }
      clearbody goal. subst goal. unfold launchSummary.
      eapply post_bind; [apply post_prismaUpdate | |]; rewrite Hp2;
        [|intros ? ? [? _]; discriminate].
      intros row cx [[= ->] ->].
      set (p3 := named name p2).
      change (Preview.incrementBuildNumber 1 (Preview.setContainerName (Some name) p2))
        with p3.
      set (c3 := coreWrite id p3 c2).
      assert (cPreviews c3 !! id = Some p3) as Hp3 by apply lookup_insert_eq.
      clearbody c3.
      set (buildCmd := dockerBuildCommand (baseName project prNumber) (dockerfile env) repoPath).
      set (runCmd := dockerRunCommand name q (baseName project prNumber)).
      step post_push. intros [] cx [_ ->].
      eapply post_bind; [apply post_run | |].
      * intros [] cx [Hout ->]. rewrite <- Hout.
        change (coreLogs _ (coreLogs _ c3)) with (logsAfter env buildCmd c3).
        set (cB := logsAfter env buildCmd c3).
        step post_push. intros [] cx [_ ->].
        eapply post_bind; [apply post_run | |].
        -- intros [] cx [Hrun ->]. rewrite <- Hrun.
           change (coreLogs _ (coreLogs _ cB)) with (logsAfter env runCmd cB).
           set (cR := logsAfter env runCmd cB).
           step post_newDate. intros t cx [[= ->] ->].
           step post_getLogs. intros text cx [[= ->] ->].
           eapply post_bind; [apply post_prismaUpdate | |];
             change (cPreviews (coreTick cR) !! id) with (cPreviews c3 !! id);
             rewrite Hp3; [|intros ? ? [? _]; discriminate].
           intros row cx [[= ->] ->].
           step post_emit_guarded. intros [] cx [_ ->].
           by apply post_ret.
        -- intros e cx [Hrun ->]. rewrite <- Hrun.
           exists p3. split; [exact Hp3 | reflexivity].
      * intros e cx [Hout ->]. rewrite <- Hout.
        exists p3. split; [exact Hp3 | reflexivity].
    + intros e cx Hplan. subst goal.
      destruct (portPlan env (cPreviews c1) (Preview.port p1)) as [q'|q'|];
        destruct Hplan as [[= ->] ->].
      exists p1. split; [apply lookup_insert_eq | reflexivity].
  - intros e cx (p & Hpx & <-). unfold failSummary.
    eapply post_bind with (R1 := λ r c', r = inr tt ∧ c' = coreWrite id (failedRow (cClock cx) (cLogs cx) e p) (coreTick cx)).
    + eapply post_tryCatch with (R1 := λ r c', r = inr tt ∧ c' = coreWrite id (failedRow (cClock cx) (cLogs cx) e p) (coreTick cx)).
      * step post_getLogs. intros text c' [[= ->] ->].
        step post_newDate. intros t c' [[= ->] ->].
        eapply post_bind; [apply post_prismaUpdate | |];
          change (cPreviews (coreTick cx) !! id) with (cPreviews cx !! id);
          rewrite Hpx; [|intros ? ? [? _]; discriminate].
        intros row c' [[= ->] ->]. by apply post_ret.
      * intros ? ? [? _]. discriminate.
      * done.
    + intros [] c' [_ ->].
      step post_emit_guarded. intros [] c' [_ ->].
      by apply post_throw.
    + intros ? ? [? _]. discriminate.
  - done.
Qed.

Lemma buildPreview_missing (env : Env) (project : Project.t) (id repoPath : string)
    (prNumber : Z) c :
  cPreviews c !! id = None →
  post (buildPreview env project id repoPath prNumber) c
       (λ r c', r = inl recordNotFound ∧ c' = coreTick (coreLogs EmptyString c)).
Proof.
  intros Hp. unfold buildPreview.
  step post_setLogs. intros [] c1 [_ ->].
  step post_newDate. intros t c1 [[= ->] ->].
  eapply post_bind; [apply post_prismaUpdate | |];
    cbn [cPreviews coreTick coreLogs]; rewrite Hp.
  - intros ? ? [? _]. discriminate.
  - intros e c1 [[= ->] ->]. done.
Qed.

(** ** The row invariant *)

Lemma CoreInv_write (id : string) (row : Preview.t) c :
  RowOk row → CoreInv c → CoreInv (coreWrite id row c).
Proof.
  intros Hrow [Hdb Hh]. split; simpl.
  - by apply map_Forall_insert_2.
  - by constructor.
Qed.

Lemma CoreInv_tick c : CoreInv c → CoreInv (coreTick c).
Proof. done. Qed.

Lemma CoreInv_logs text c : CoreInv c → CoreInv (coreLogs text c).
Proof. done. Qed.

Lemma CoreInv_lookup c id p : CoreInv c → cPreviews c !! id = Some p → RowOk p.
Proof. intros [Hdb _] Hp. by apply (Hdb id p). Qed.

Section Keeps.
Context {A B : Type}.

Lemma keeps_ret (a : A) : keeps (ret a).
Proof. intros c Hc. by apply post_ret. Qed.

Lemma keeps_throw (e : Exn) : keeps (@throw World A e).
Proof. intros c Hc. by apply post_throw. Qed.

Lemma keeps_bind (m : M World A) (k : A → M World B) :
  keeps m → (∀ a, keeps (k a)) → keeps (bind m k).
Proof.
  intros Hm Hk c Hc. eapply post_bind; [by apply Hm | |].
  - intros a c1 Hc1. by apply Hk.
  - intros e c1 Hc1. done.
Qed.

Lemma keeps_tryCatch (m : M World A) (h : Exn → M World A) :
  keeps m → (∀ e, keeps (h e)) → keeps (tryCatch m h).
Proof.
  intros Hm Hh c Hc. eapply post_tryCatch; [by apply Hm | |].
  - intros e c1 Hc1. by apply Hh.
  - intros a c1 Hc1. done.
Qed.

(** Whatever leaves the store-relevant part alone keeps the invariant. *)
Lemma keeps_quiet (m : M World A) (R : Core → Exn + A → Prop) :
  (∀ c, post m c (λ r c', R c r ∧ c' = c)) → keeps m.
Proof.
  intros Hm c Hc. eapply post_weaken; [apply Hm |].
  by intros r c' [_ ->].
Qed.
End Keeps.

Lemma keeps_newDate : keeps newDate.
Proof.
  intros c Hc. eapply post_weaken; [apply post_newDate |].
  intros r c' [_ ->]. by apply CoreInv_tick.
Qed.

Lemma keeps_getLogs : keeps (gets logs).
Proof. eapply keeps_quiet. intros c. apply post_getLogs. Qed.

Lemma keeps_effect (e : Effect) : keeps (effect e).
Proof. eapply keeps_quiet. intros c. apply post_effect. Qed.

Lemma keeps_emit (env : Env) room topic payload : keeps (emit env room topic payload).
Proof. eapply keeps_quiet. intros c. apply post_emit. Qed.

Lemma keeps_removeContainer (env : Env) name : keeps (removeContainer env name).
Proof. eapply keeps_quiet. intros c. apply post_removeContainer. Qed.

Lemma keeps_cloneRepoM (env : Env) owner name ref : keeps (cloneRepoM env owner name ref).
Proof. eapply keeps_quiet. intros c. apply post_cloneRepoM. Qed.

Lemma keeps_findPreviewWithProject (id : string) : keeps (findPreviewWithProject id).
Proof. eapply keeps_quiet. intros c. apply post_findPreviewWithProject. Qed.

Lemma keeps_prismaFindFirst where_ : keeps (prismaFindFirst where_).
Proof. eapply keeps_quiet. intros c. apply post_prismaFindFirst. Qed.

Lemma keeps_prismaFindUnique (id : string) : keeps (prismaFindUnique id).
Proof. eapply keeps_quiet. intros c. apply post_prismaFindUnique. Qed.

Lemma keeps_notNull {A} (v : option A) : keeps (notNull v).
Proof. eapply keeps_quiet. intros c. apply post_notNull. Qed.

Lemma keeps_snapshotOf (id : string) : keeps (snapshotOf id).
Proof.
  apply keeps_bind; [apply keeps_prismaFindUnique | intros a; apply keeps_notNull].
Qed.

(** A write keeps the invariant when the row it produces is in order
    whatever the row it started from. *)
Lemma keeps_prismaUpdate (id : string) (data : Preview.t → Preview.t) :
  (∀ p, RowOk (data p)) → keeps (prismaUpdate id data).
Proof.
  intros Hdata c Hc. eapply post_weaken; [apply post_prismaUpdate |].
  intros r c'. destruct (cPreviews c !! id) as [p|]; intros [_ ->]; [|done].
  by apply CoreInv_write.
Qed.

Lemma keeps_prismaCreate (row : Preview.t) : RowOk row → keeps (prismaCreate row).
Proof.
  intros Hrow c Hc. eapply post_weaken; [apply post_prismaCreate |].
  intros r c'. destruct (cPreviews c !! Preview.id row); intros [_ ->]; [done |].
  by apply CoreInv_write.
Qed.

Lemma keeps_prismaUpsert projectId prNumber update create :
  (∀ p, RowOk (update p)) → RowOk create →
  keeps (prismaUpsert projectId prNumber update create).
Proof.
  intros Hu Hc. unfold prismaUpsert.
  apply keeps_bind; [apply keeps_prismaFindFirst |].
  intros [p|]; [by apply keeps_prismaUpdate | by apply keeps_prismaCreate].
Qed.

(** Rows whose status is neither live nor deleted are in order. *)
Lemma RowOk_building p : Preview.status p = Status.building → RowOk p.
Proof. intros H. split; rewrite H; discriminate. Qed.

Lemma RowOk_error p : Preview.status p = Status.error → RowOk p.
Proof. intros H. split; rewrite H; discriminate. Qed.

Lemma RowOk_deleted p :
  Preview.status p = Status.deleted → Preview.url p = None → RowOk p.
Proof. intros H Hu. split; rewrite H; [discriminate | done]. Qed.

Lemma portPlan_Reuse (env : Env) db held q :
  portPlan env db held = Reuse q →
  truthyNumber held = Some q ∧ osPortFree env q = true.
Proof.
  unfold portPlan. destruct (truthyNumber held) as [q0|].
  - destruct (osPortFree env q0) eqn:Hf.
    + by intros [= <-].
    + by destruct (firstFree env db 1000 4000).
  - by destruct (firstFree env db 1000 5000).
Qed.

Lemma portPlan_Fresh (env : Env) db held q :
  portPlan env db held = Fresh q →
  4000 ≤ q ≤ 5999 ∧ reservedIn db q = false ∧ osPortFree env q = true.
Proof.
  unfold portPlan. destruct (truthyNumber held) as [q0|].
  - destruct (osPortFree env q0); [done |].
    destruct (firstFree env db 1000 4000) as [q1|] eqn:E; [|done].
    intros [= <-]. apply firstFree_Some in E as (H1 & H2 & H3).
    repeat split; try done; lia.
  - destruct (firstFree env db 1000 5000) as [q1|] eqn:E; [|done].
    intros [= <-]. apply firstFree_Some in E as (H1 & H2 & H3).
    repeat split; try done; lia.
Qed.

Lemma truthyNumber_nonzero (q : Z) : q ≠ 0 → truthyNumber (Some q) = Some q.
Proof. intros H. simpl. by destruct (Z.eqb_spec q 0). Qed.

Lemma truthyNumber_Some (v : option Z) (q : Z) :
  truthyNumber v = Some q → v = Some q ∧ q ≠ 0.
Proof.
  destruct v as [n|]; simpl; [|done].
  destruct (Z.eqb_spec n 0); [done |]. by intros [= <-].
Qed.

(** The port a launch goes ahead with is the one on the row. *)
Definition portOnRow (q : Z) (p : Preview.t) : Prop :=
  Preview.port p = Some q ∧ q ≠ 0.

Lemma RowOk_finishedLive t text q p :
  portOnRow q p →
  RowOk (finishedLive t text ("http://localhost:" +:+ numToString q) p).
Proof.
  intros [Hport Hq]. split; simpl; [|intros H; discriminate H].
  intros _. split; [reflexivity |].
  rewrite Hport. simpl. by destruct (Z.eqb_spec q 0).
Qed.

Lemma RowOk_failedRow t text e p : RowOk (failedRow t text e p).
Proof. by apply RowOk_error. Qed.

Lemma failSummary_keeps id e p c :
  CoreInv c → CoreInv (snd (failSummary id e p c)).
Proof.
  intros Hc. apply CoreInv_write; [apply RowOk_failedRow | by apply CoreInv_tick].
Qed.

Lemma launchSummary_keeps (env : Env) project id repoPath prNumber name q p2 c2 :
  Preview.status p2 = Status.building →
  portOnRow q p2 → CoreInv c2 →
  CoreInv (snd (launchSummary env project id repoPath prNumber name q p2 c2)).
Proof.
  intros Hst Hq Hc. unfold launchSummary.
  assert (CoreInv (coreWrite id (named name p2) c2)) as Hc3.
  { apply CoreInv_write; [|done]. by apply RowOk_building. }
  destruct (procOutcome (shell env _)) as [e|[]].
  { by apply failSummary_keeps, CoreInv_logs. }
  destruct (procOutcome (shell env _)) as [e|[]].
  { by apply failSummary_keeps, CoreInv_logs, CoreInv_logs. }
  apply CoreInv_write.
  - by apply RowOk_finishedLive.
  - by apply CoreInv_tick, CoreInv_logs, CoreInv_logs.
Qed.

Lemma buildSummary_keeps (env : Env) project id repoPath prNumber c p0 :
  CoreInv c →
  CoreInv (snd (buildSummary env project id repoPath prNumber c p0)).
Proof.
  intros Hc. unfold buildSummary.
  set (p1 := started (cClock c) p0).
  set (c1 := coreWrite id p1 (coreTick (coreLogs EmptyString c))).
  assert (CoreInv c1) as Hc1.
  { apply CoreInv_write; [by apply RowOk_building |].
    by apply CoreInv_tick, CoreInv_logs. }
  destruct (portPlan env (cPreviews c1) (Preview.port p1)) as [q|q|] eqn:Hplan.
  - apply portPlan_Reuse in Hplan as [Hheld _].
    apply truthyNumber_Some in Hheld as [Hport Hq].
    by apply launchSummary_keeps.
  - apply portPlan_Fresh in Hplan as (Hrange & _ & _).
    apply launchSummary_keeps; [done | split; [done | lia] |].
    apply CoreInv_write; [by apply RowOk_building | done].
  - by apply failSummary_keeps.
Qed.

Lemma keeps_buildPreview (env : Env) project id repoPath prNumber :
  keeps (buildPreview env project id repoPath prNumber).
Proof.
  intros c Hc. destruct (cPreviews c !! id) as [p0|] eqn:Hp.
  - eapply post_weaken; [by apply buildPreview_summary |].
    intros r c' E.
    change c' with (snd (r, c')). rewrite E. by apply buildSummary_keeps.
  - eapply post_weaken; [by apply buildPreview_missing |].
    intros r c' [_ ->]. by apply CoreInv_tick, CoreInv_logs.
Qed.

Ltac row_ok :=
  intros;
  first [ apply RowOk_building; reflexivity
        | apply RowOk_error; reflexivity
        | apply RowOk_deleted; reflexivity ].

Ltac keeps_step :=
  first
    [ apply keeps_buildPreview
    | apply keeps_prismaUpsert; row_ok
    | apply keeps_prismaUpdate; row_ok
    | apply keeps_snapshotOf | apply keeps_removeContainer | apply keeps_cloneRepoM
    | apply keeps_findPreviewWithProject | apply keeps_prismaFindFirst
    | apply keeps_notNull | apply keeps_emit | apply keeps_effect
    | apply keeps_newDate | apply keeps_ret | apply keeps_throw
    | apply keeps_tryCatch | apply keeps_bind
    | match goal with
      | |- keeps (match ?x with _ => _ end) => destruct x
      | |- keeps (if ?b then _ else _) => destruct b
      | |- ∀ _, _ => intro
      end ].

Lemma keeps_handlePROpenOrSync env project prNumber ref :
  keeps (handlePROpenOrSync env project prNumber ref).
Proof. unfold handlePROpenOrSync, rmSync. repeat keeps_step. Qed.

Lemma keeps_handlePRClosed env project prNumber :
  keeps (handlePRClosed env project prNumber).
Proof. unfold handlePRClosed. repeat keeps_step. Qed.

Lemma keeps_rebuildRoute env userId id : keeps (rebuildRoute env userId id).
Proof. unfold rebuildRoute, rmSync. repeat keeps_step. Qed.

Lemma keeps_deleteRoute env userId id : keeps (deleteRoute env userId id).
Proof. unfold deleteRoute. repeat keeps_step. Qed.

Lemma runOp_keeps (env : Env) (op : Op) (w : World) :
  CoreInv (core w) → CoreInv (core (runOp env op w)).
Proof.
  intros Hw. destruct op; simpl.
  - by apply (keeps_handlePROpenOrSync env project prNumber ref (core w) Hw w).
  - by apply (keeps_handlePRClosed env project prNumber (core w) Hw w).
  - by apply (keeps_buildPreview env project previewId repoPath prNumber (core w) Hw w).
  - by apply (keeps_rebuildRoute env userId id (core w) Hw w).
  - by apply (keeps_deleteRoute env userId id (core w) Hw w).
Qed.

Lemma runOps_keeps (ops : list (Env * Op)) :
  ∀ w, CoreInv (core w) → CoreInv (core (runOps ops w)).
Proof.
  induction ops as [|[env op] ops IH]; intros w Hw; simpl; [done |].
  by apply IH, runOp_keeps.
Qed.

(** ** Which rows an operation writes *)

Lemma wroteOnly_refl P c : wroteOnly P c c.
Proof. split; [by exists [] | split; [by left | done]]. Qed.

Lemma wroteOnly_trans P c1 c2 c3 :
  wroteOnly P c1 c2 → wroteOnly P c2 c3 → wroteOnly P c1 c3.
Proof.
  intros [(r1 & E1 & F1) [T1 D1]] [(r2 & E2 & F2) [T2 D2]]. split; [|split].
  - exists (r2 ++ r1)%list. split.
    + by rewrite E2, E1, app_assoc.
    + by apply Forall_app.
  - intros k p Hk. destruct (T2 k p Hk) as [H|H]; [by apply T1 | by right].
  - intros k Hk. by apply D2, D1.
Qed.

Lemma wroteOnly_write P id row c : P row → wroteOnly P c (coreWrite id row c).
Proof.
  intros Hrow. split; [|split].
  - exists [row]. split; [done | by constructor].
  - intros k p. simpl. rewrite lookup_insert.
    case_decide; [intros [= <-]; by right | by left].
  - intros k Hk. simpl. rewrite lookup_insert. by case_decide.
Qed.

Lemma wroteOnly_tick P c : wroteOnly P c (coreTick c).
Proof. split; [by exists [] | split; [by left | done]]. Qed.

Lemma wroteOnly_logs P text c : wroteOnly P c (coreLogs text c).
Proof. split; [by exists [] | split; [by left | done]]. Qed.

Lemma wroteOnly_weaken (P Q : Preview.t → Prop) c c' :
  (∀ p, P p → Q p) → wroteOnly P c c' → wroteOnly Q c c'.
Proof.
  intros HPQ [(rows & E & F) [T D]]. split; [|split].
  - exists rows. split; [done |]. eapply Forall_impl; eauto.
  - intros k p Hk. destruct (T k p Hk); auto.
  - done.
Qed.

Section Steps.
Context (T : Core → Core → Prop).
Hypothesis T_refl : ∀ c, T c c.
Hypothesis T_trans : ∀ c1 c2 c3, T c1 c2 → T c2 c3 → T c1 c3.

Lemma steps_ret {A} (a : A) : steps T (ret a).
Proof. intros c. by apply post_ret. Qed.

Lemma steps_throw {A} (e : Exn) : steps T (@throw World A e).
Proof. intros c. by apply post_throw. Qed.

Lemma steps_quiet {A} (m : M World A) (R : Core → Exn + A → Prop) :
  (∀ c, post m c (λ r c', R c r ∧ c' = c)) → steps T m.
Proof.
  intros Hm c. eapply post_weaken; [apply Hm |].
  intros r c' [_ ->]. apply T_refl.
Qed.

Lemma steps_bind {A B} (m : M World A) (k : A → M World B) :
  steps T m → (∀ a, steps T (k a)) → steps T (bind m k).
Proof.
  intros Hm Hk c w Hw. specialize (Hm c w Hw). unfold bind.
  destruct (m w) as [[e|a] w1]; simpl in *; [done |].
  eapply T_trans; [exact Hm |]. by apply (Hk a (core w1) w1).
Qed.

Lemma steps_tryCatch {A} (m : M World A) (h : Exn → M World A) :
  steps T m → (∀ e, steps T (h e)) → steps T (tryCatch m h).
Proof.
  intros Hm Hh c w Hw. specialize (Hm c w Hw). unfold tryCatch.
  destruct (m w) as [[e|a] w1]; simpl in *; [|done].
  eapply T_trans; [exact Hm |]. by apply (Hh e (core w1) w1).
Qed.
End Steps.

Section Writes.
Context (P : Preview.t → Prop).

Lemma writes_prismaUpdate (id : string) (data : Preview.t → Preview.t) :
  (∀ p, P (data p)) → steps (wroteOnly P) (prismaUpdate id data).
Proof.
  intros Hdata c. eapply post_weaken; [apply post_prismaUpdate |].
  intros r c'. destruct (cPreviews c !! id) as [p|]; intros [_ ->].
  - by apply wroteOnly_write.
  - apply wroteOnly_refl.
Qed.

Lemma writes_quiet {A} (m : M World A) (R : Core → Exn + A → Prop) :
  (∀ c, post m c (λ r c', R c r ∧ c' = c)) → steps (wroteOnly P) m.
Proof. apply steps_quiet, wroteOnly_refl. Qed.

Lemma writes_ret {A} (a : A) : steps (wroteOnly P) (ret a).
Proof. apply steps_ret, wroteOnly_refl. Qed.

Lemma writes_throw {A} (e : Exn) : steps (wroteOnly P) (@throw World A e).
Proof. apply steps_throw, wroteOnly_refl. Qed.

Lemma writes_bind {A B} (m : M World A) (k : A → M World B) :
  steps (wroteOnly P) m → (∀ a, steps (wroteOnly P) (k a)) →
  steps (wroteOnly P) (bind m k).
Proof. apply steps_bind, wroteOnly_trans. Qed.

Lemma writes_tryCatch {A} (m : M World A) (h : Exn → M World A) :
  steps (wroteOnly P) m → (∀ e, steps (wroteOnly P) (h e)) →
  steps (wroteOnly P) (tryCatch m h).
Proof. apply steps_tryCatch, wroteOnly_trans. Qed.

Lemma writes_newDate : steps (wroteOnly P) newDate.
Proof.
  intros c. eapply post_weaken; [apply post_newDate |].
  intros r c' [_ ->]. apply wroteOnly_tick.
Qed.
End Writes.

Ltac writes_step :=
  first
    [ apply writes_prismaUpdate; intros; repeat split; reflexivity
    | apply writes_newDate
    | eapply writes_quiet; intros; first
        [ apply post_removeContainer | apply post_findPreviewWithProject
        | apply post_prismaFindFirst | apply post_prismaFindUnique
        | apply post_notNull | apply post_emit | apply post_effect ]
    | apply writes_ret | apply writes_throw
    | apply writes_tryCatch | apply writes_bind
    | match goal with
      | |- steps _ (match ?x with _ => _ end) => destruct x
      | |- steps _ (if ?b then _ else _) => destruct b
      | |- ∀ _, _ => intro
      end ].

(** The delete route writes nothing but deleted rows without url and
    without container name. *)
Lemma deleteRoute_writes env userId id :
  steps (wroteOnly (λ p, Preview.status p = Status.deleted
                         ∧ Preview.url p = None
                         ∧ Preview.containerName p = None))
        (deleteRoute env userId id).
Proof. unfold deleteRoute, snapshotOf. repeat writes_step. Qed.

(** The pull-request-closed handler writes nothing but deleted rows
    without url. *)
Lemma handlePRClosed_writes env project prNumber :
  steps (wroteOnly (λ p, Preview.status p = Status.deleted ∧ Preview.url p = None))
        (handlePRClosed env project prNumber).
Proof. unfold handlePRClosed. repeat writes_step. Qed.

(** ** Claims about the lifecycle *)

(** C1, as the code has it. With the operations on a preview run one at a
    time, every row of the table and every row ever written satisfies: a
    live row has a non-empty url and a non-empty port, and a deleted row
    has no url. The delete route writes only deleted rows with url and
    container name cleared, and the pull-request-closed handler writes
    only deleted rows with url cleared. *)
Theorem live_rows_have_url_and_port :
  (∀ (ops : list (Env * Op)) (w : World),
      map_Forall (λ _ p, RowOk p) (previews w) → Forall RowOk (history w) →
      map_Forall (λ _ p, RowOk p) (previews (runOps ops w))
      ∧ Forall RowOk (history (runOps ops w)))
  ∧ (∀ (env : Env) (userId id : string) (w : World),
      wroteOnly (λ p, Preview.status p = Status.deleted
                      ∧ Preview.url p = None
                      ∧ Preview.containerName p = None)
                (core w) (core (snd (deleteRoute env userId id w))))
  ∧ (∀ (env : Env) (project : Project.t) (prNumber : Z) (w : World),
      wroteOnly (λ p, Preview.status p = Status.deleted ∧ Preview.url p = None)
                (core w) (core (snd (handlePRClosed env project prNumber w)))).
Proof.
  split; [|split].
  - intros ops w Hdb Hh. by apply (runOps_keeps ops w).
  - intros env userId id w. by apply (deleteRoute_writes env userId id (core w) w).
  - intros env project prNumber w.
    by apply (handlePRClosed_writes env project prNumber (core w) w).
Qed.

Lemma live_rows_have_url_and_port_witness :
  map_Forall (λ _ p, RowOk p) (previews (runOps openThenClose emptyWorld))
  ∧ Forall RowOk (history (runOps openThenClose emptyWorld)).
Proof.
  apply (proj1 live_rows_have_url_and_port openThenClose emptyWorld).
  - apply map_Forall_empty.
  - constructor.
Defined.

(** C1 as stated fails: once the pull request is closed, the row is
    deleted while its port 5000 and its container name are still set. *)
Lemma closed_preview_keeps_port :
  ∃ p, previews (runOps openThenClose emptyWorld) !! "pv-new" = Some p
       ∧ Preview.status p = Status.deleted
       ∧ Preview.port p = Some 5000
       ∧ Preview.containerName p = Some "preview-pckv9x2ab-pr42-b1"
       ∧ ¬ (Preview.status p = Status.deleted
            ↔ Preview.url p = None ∧ Preview.port p = None).
Proof.
  eexists. split; [vm_compute; reflexivity |].
  repeat split; try reflexivity.
  intros [H _]. specialize (H eq_refl) as [_ H]. discriminate H.
Qed.

Lemma generateContainerName_deterministic_witness :
  generateContainerName sampleProject 42 1 ≠ generateContainerName sampleProject 42 2.
Proof.
  apply (proj2 generateContainerName_deterministic sampleProject 42 1 2). lia.
Defined.

(** ** The build counter never drops below 1 *)

Lemma keepsCounted_refl c : keepsCounted c c.
Proof. by intros H. Qed.

Lemma keepsCounted_trans c1 c2 c3 :
  keepsCounted c1 c2 → keepsCounted c2 c3 → keepsCounted c1 c3.
Proof. intros H1 H2 H. by apply H2, H1. Qed.

Section CountedSteps.
Lemma counted_ret {A} (a : A) : steps keepsCounted (ret a).
Proof. apply steps_ret, keepsCounted_refl. Qed.

Lemma counted_throw {A} (e : Exn) : steps keepsCounted (@throw World A e).
Proof. apply steps_throw, keepsCounted_refl. Qed.

Lemma counted_bind {A B} (m : M World A) (k : A → M World B) :
  steps keepsCounted m → (∀ a, steps keepsCounted (k a)) →
  steps keepsCounted (bind m k).
Proof. apply steps_bind, keepsCounted_trans. Qed.

Lemma counted_tryCatch {A} (m : M World A) (h : Exn → M World A) :
  steps keepsCounted m → (∀ e, steps keepsCounted (h e)) →
  steps keepsCounted (tryCatch m h).
Proof. apply steps_tryCatch, keepsCounted_trans. Qed.

Lemma counted_quiet {A} (m : M World A) (R : Core → Exn + A → Prop) :
  (∀ c, post m c (λ r c', R c r ∧ c' = c)) → steps keepsCounted m.
Proof. apply steps_quiet, keepsCounted_refl. Qed.

Lemma counted_newDate : steps keepsCounted newDate.
Proof.
  intros c. eapply post_weaken; [apply post_newDate |].
  intros r c' [_ ->] H. exact H.
Qed.

Lemma counted_setLogs text : steps keepsCounted (modify (setLogs text)).
Proof.
  intros c. eapply post_weaken; [apply post_setLogs |].
  intros r c' [_ ->] H. exact H.
Qed.

Lemma counted_push env id chunk : steps keepsCounted (push env id chunk).
Proof.
  intros c. eapply post_weaken; [apply post_push |].
  intros r c' [_ ->] H. exact H.
Qed.

Lemma counted_run env id command :
  steps keepsCounted (run env command (push env id)).
Proof.
  intros c. eapply post_weaken; [apply post_run |].
  intros r c' [_ ->] H. exact H.
Qed.

Lemma counted_prismaUpdate (id : string) (data : Preview.t → Preview.t) :
  (∀ p, 1 ≤ Preview.buildNumber p → 1 ≤ Preview.buildNumber (data p)) →
  steps keepsCounted (prismaUpdate id data).
Proof.
  intros Hdata c. eapply post_weaken; [apply post_prismaUpdate |].
  intros r c'. destruct (cPreviews c !! id) as [p|] eqn:Hp; intros [_ ->]; [|by intros H].
  intros [Hdb Hh]. assert (1 ≤ Preview.buildNumber (data p)) by by apply Hdata, (Hdb id).
  split; simpl; [by apply map_Forall_insert_2 | by constructor].
Qed.

Lemma counted_prismaCreate (row : Preview.t) :
  1 ≤ Preview.buildNumber row → steps keepsCounted (prismaCreate row).
Proof.
  intros Hrow c. eapply post_weaken; [apply post_prismaCreate |].
  intros r c'. destruct (cPreviews c !! Preview.id row); intros [_ ->]; [by intros H |].
  intros [Hdb Hh].
  split; simpl; [by apply map_Forall_insert_2 | by constructor].
Qed.
End CountedSteps.

Ltac counted_step :=
  first
    [ apply counted_run | apply counted_push | apply counted_setLogs
    | apply counted_newDate
    | apply counted_prismaUpdate; simpl; intros; lia
    | apply counted_prismaCreate; simpl; lia
    | eapply counted_quiet; intros; first
        [ apply post_removeContainer | apply post_removeContainerIfExists
        | apply post_findPreviewWithProject | apply post_cloneRepoM
        | apply post_prismaFindFirst | apply post_prismaFindUnique
        | apply post_findAvailablePort | apply post_isPortFree
        | apply post_getLogs | apply post_notNull | apply post_emit
        | apply post_effect ]
    | apply counted_ret | apply counted_throw
    | apply counted_tryCatch | apply counted_bind
    | match goal with
      | |- steps _ (match ?x with _ => _ end) => destruct x
      | |- steps _ (if ?b then _ else _) => destruct b
      | |- ∀ _, _ => intro
      end ].

Lemma counted_buildPreview env project id repoPath prNumber :
  steps keepsCounted (buildPreview env project id repoPath prNumber).
Proof. unfold buildPreview, assignPort. repeat counted_step. Qed.

Lemma counted_runOp (env : Env) (op : Op) (w : World) :
  Counted (core w) → Counted (core (runOp env op w)).
Proof.
  assert (∀ A (m : M World A), steps keepsCounted m →
            Counted (core w) → Counted (core (snd (m w)))) as Hrun.
  { intros A m Hm Hw. by apply (Hm (core w) w). }
  destruct op; simpl; apply Hrun.
  - unfold handlePROpenOrSync, prismaUpsert, rmSync.
    repeat first [apply counted_buildPreview | counted_step].
  - unfold handlePRClosed. repeat counted_step.
  - apply counted_buildPreview.
  - unfold rebuildRoute, snapshotOf, rmSync.
    repeat first [apply counted_buildPreview | counted_step].
  - unfold deleteRoute, snapshotOf. repeat counted_step.
Qed.

Lemma counted_runOps (ops : list (Env * Op)) :
  ∀ w, Counted (core w) → Counted (core (runOps ops w)).
Proof.
  induction ops as [|[env op] ops IH]; intros w Hw; simpl; [done |].
  by apply IH, counted_runOp.
Qed.

(** ** What a build attempt leaves behind *)

Lemma buildSummary_result (env : Env) project id repoPath prNumber c p0 r c' :
  buildSummary env project id repoPath prNumber c p0 = (r, c') →
  let plan := portPlan env (<[id := started (cClock c) p0]> (cPreviews c)) (Preview.port p0) in
  let name := generateContainerName project prNumber (nextBuildNumberOf p0) in
  ∃ pf, cPreviews c' !! id = Some pf
    ∧ Preview.id pf = Preview.id p0
    ∧ Preview.buildCompletedAt pf = Some (cClock c + 1)
    ∧ Preview.buildNumber pf = Preview.buildNumber p0 + (if isNoPort plan then 0 else 1)
    ∧ Preview.containerName pf
      = (if isNoPort plan then Preview.containerName p0 else Some name)
    ∧ match r with
      | inr url =>
          Preview.status pf = Status.live ∧ Preview.url pf = Some url
          ∧ Preview.buildLogs pf = Some (cLogs c')
          ∧ isNoPort plan = false
          ∧ ∃ q, Preview.port pf = Some q ∧ q ≠ 0
                 ∧ url = "http://localhost:" +:+ numToString q
      | inl e =>
          Preview.status pf = Status.error ∧ Preview.port pf = None
          ∧ Preview.url pf = Preview.url p0
          ∧ Preview.buildLogs pf
            = Some (cLogs c' +:+ nl +:+ nl +:+ "ERROR:" +:+ nl +:+ errDetail e)
          ∧ (isNoPort plan = true → e = noFreePorts)
      end.
Proof.
  intros E plan name. subst plan name. unfold buildSummary in E.
  change (Preview.port (started (cClock c) p0)) with (Preview.port p0) in E.
  change (cPreviews (coreWrite id (started (cClock c) p0) (coreTick (coreLogs EmptyString c))))
    with (<[id := started (cClock c) p0]> (cPreviews c)) in E.
  change (nextBuildNumberOf (started (cClock c) p0)) with (nextBuildNumberOf p0) in E.
  destruct (portPlan env (<[id := started (cClock c) p0]> (cPreviews c)) (Preview.port p0))
    as [q|q|] eqn:Hplan; cbn [isNoPort].
  - apply portPlan_Reuse in Hplan as [Hheld _].
    apply truthyNumber_Some in Hheld as [Hport Hq].
    unfold launchSummary, failSummary in E.
    destruct (procOutcome (shell env _)) as [e|[]] in E;
      [|destruct (procOutcome (shell env _)) as [e|[]] in E];
      injection E as <- <-; (eexists; split; [apply lookup_insert_eq |]);
      repeat split; try done; try lia.
    exists q. done.
  - apply portPlan_Fresh in Hplan as (Hrange & _ & _).
    unfold launchSummary, failSummary in E.
    destruct (procOutcome (shell env _)) as [e|[]] in E;
      [|destruct (procOutcome (shell env _)) as [e|[]] in E];
      injection E as <- <-; (eexists; split; [apply lookup_insert_eq |]);
      repeat split; try done; try lia.
    exists q. repeat split; try done; lia.
  - unfold failSummary in E. injection E as <- <-.
    eexists; split; [apply lookup_insert_eq |].
    repeat split; try done; simpl; lia.
Qed.

Lemma buildPreview_result (env : Env) project id repoPath prNumber w p0 r w' :
  previews w !! id = Some p0 →
  buildPreview env project id repoPath prNumber w = (r, w') →
  buildSummary env project id repoPath prNumber (core w) p0 = (r, core w').
Proof.
  intros Hp E.
  pose proof (buildPreview_summary env project id repoPath prNumber (core w) p0 Hp w eq_refl) as H.
  rewrite E in H. by symmetry.
Qed.

(** C10. After a successful [buildPreview] on a row whose counter is at
    least 1, the persisted [buildNumber] is one more than before and the
    persisted [containerName] is the name generated from the counter as it
    was before: the stored counter is exactly one ahead of the number in
    the stored name. The counter starts at 1 and no operation lowers it,
    so every row the operations reach has a counter of at least 1. *)
Theorem containerName_lags_buildNumber :
  (∀ (env : Env) (project : Project.t) (id repoPath : string) (prNumber : Z)
     (w w' : World) (p0 : Preview.t) (url : string),
      previews w !! id = Some p0 →
      1 ≤ Preview.buildNumber p0 →
      buildPreview env project id repoPath prNumber w = (inr url, w') →
      ∃ pf, previews w' !! id = Some pf
            ∧ Preview.buildNumber pf = Preview.buildNumber p0 + 1
            ∧ Preview.containerName pf
              = Some (generateContainerName project prNumber (Preview.buildNumber p0))
            ∧ Preview.containerName pf
              = Some (generateContainerName project prNumber (Preview.buildNumber pf - 1)))
  ∧ (∀ (ops : list (Env * Op)) (w : World),
      map_Forall (λ _ p, 1 ≤ Preview.buildNumber p) (previews w) →
      Forall (λ p, 1 ≤ Preview.buildNumber p) (history w) →
      map_Forall (λ _ p, 1 ≤ Preview.buildNumber p) (previews (runOps ops w))).
Proof.
  split.
  - intros env project id repoPath prNumber w w' p0 url Hp Hbn E.
    apply (buildPreview_result _ _ _ _ _ _ _ _ _ Hp) in E.
    apply buildSummary_result in E as (pf & Hpf & _ & _ & Hn & Hname & Hr).
    destruct Hr as (_ & _ & _ & Hplan & _). rewrite Hplan in Hn, Hname.
    exists pf. split; [exact Hpf |]. split; [exact Hn |].
    assert (nextBuildNumberOf p0 = Preview.buildNumber p0) as Hnext.
    { unfold nextBuildNumberOf. destruct (Z.eqb_spec (Preview.buildNumber p0) 0); lia. }
    rewrite Hnext in Hname. split; [exact Hname |].
    rewrite Hname. do 2 f_equal. lia.
  - intros ops w Hdb Hh.
    by apply (counted_runOps ops w (conj Hdb Hh)).
Qed.

Lemma containerName_lags_buildNumber_witness :
  ∃ pf, previews (snd (buildPreview calmEnv sampleProject "pv-a" "/tmp/repo" 7
                         (worldOf [liveRow "pv-a" 7 5007]))) !! "pv-a" = Some pf
        ∧ Preview.buildNumber pf = 2 + 1
        ∧ Preview.containerName pf = Some (generateContainerName sampleProject 7 2)
        ∧ Preview.containerName pf
          = Some (generateContainerName sampleProject 7 (Preview.buildNumber pf - 1)).
Proof.
  apply (proj1 containerName_lags_buildNumber calmEnv sampleProject "pv-a" "/tmp/repo" 7
           (worldOf [liveRow "pv-a" 7 5007]) _ (liveRow "pv-a" 7 5007)
           "http://localhost:5007").
  - vm_compute. reflexivity.
  - simpl. lia.
  - vm_compute. reflexivity.
Defined.

(** C3, as the code has it. Whenever [buildPreview] throws on an existing
    row (the port allocation, the image build or the container run
    failed), the row it leaves has status error and no port, its build
    logs are the log buffer as accumulated so far followed by the error
    block with the failure detail, and its completion time is set. A
    failing clone happens before [buildPreview] is called and is not part
    of this transition. *)
Theorem build_failure_marks_error :
  ∀ (env : Env) (project : Project.t) (id repoPath : string) (prNumber : Z)
    (w w' : World) (p0 : Preview.t) (e : Exn),
    previews w !! id = Some p0 →
    buildPreview env project id repoPath prNumber w = (inl e, w') →
    ∃ pf, previews w' !! id = Some pf
          ∧ Preview.status pf = Status.error
          ∧ Preview.port pf = None
          ∧ Preview.buildLogs pf
            = Some (logs w' +:+ nl +:+ nl +:+ "ERROR:" +:+ nl +:+ errDetail e)
          ∧ Preview.buildCompletedAt pf = Some (clock w + 1).
Proof.
  intros env project id repoPath prNumber w w' p0 e Hp E.
  apply (buildPreview_result _ _ _ _ _ _ _ _ _ Hp) in E.
  apply buildSummary_result in E as (pf & Hpf & _ & Hdone & _ & _ & Hr).
  destruct Hr as (Hst & Hport & _ & Hlogs & _).
  by exists pf.
Qed.

Lemma build_failure_marks_error_witness :
  ∃ pf, previews (snd (buildPreview buildFailsEnv sampleProject "pv-a" "/tmp/repo" 7
                         (worldOf [liveRow "pv-a" 7 5007]))) !! "pv-a" = Some pf
        ∧ Preview.status pf = Status.error
        ∧ Preview.port pf = None
        ∧ Preview.buildLogs pf
          = Some (logs (snd (buildPreview buildFailsEnv sampleProject "pv-a" "/tmp/repo" 7
                               (worldOf [liveRow "pv-a" 7 5007])))
                  +:+ nl +:+ nl +:+ "ERROR:" +:+ nl
                  +:+ errDetail (JsError "Command failed with exit code 1"))
        ∧ Preview.buildCompletedAt pf = Some (100 + 1).
Proof.
  apply (build_failure_marks_error buildFailsEnv sampleProject "pv-a" "/tmp/repo" 7
           (worldOf [liveRow "pv-a" 7 5007]) _ (liveRow "pv-a" 7 5007)).
  - vm_compute. reflexivity.
  - vm_compute. reflexivity.
Defined.

(** The three failures inside [buildPreview] do make it throw. *)
Example port_allocation_failure_throws :
  fst (buildPreview noPortsEnv sampleProject "pv-a" "/tmp/repo" 7
         (worldOf [liveRow "pv-a" 7 5007]))
  = inl noFreePorts.
Proof. vm_compute. reflexivity. Qed.

Example image_build_failure_throws :
  fst (buildPreview buildFailsEnv sampleProject "pv-a" "/tmp/repo" 7
         (worldOf [liveRow "pv-a" 7 5007]))
  = inl (JsError "Command failed with exit code 1").
Proof. vm_compute. reflexivity. Qed.

Example container_run_failure_throws :
  fst (buildPreview runFailsEnv sampleProject "pv-a" "/tmp/repo" 7
         (worldOf [liveRow "pv-a" 7 5007]))
  = inl (JsError "Command failed with exit code 1").
Proof. vm_compute. reflexivity. Qed.

(** C3 as stated fails for the clone: when the clone of a rebuild fails,
    the row stays in status building, keeps its port, and gets neither
    logs of the failure nor a completion time. *)
Lemma clone_failure_leaves_building :
  ∃ p, previews (snd (rebuildRoute cloneFailsEnv "user-1" "pv-a"
                        (worldOf [liveRow "pv-a" 7 5007]))) !! "pv-a" = Some p
       ∧ Preview.status p = Status.building
       ∧ Preview.port p = Some 5007
       ∧ Preview.buildLogs p = Some "built"
       ∧ Preview.buildCompletedAt p = None.
Proof. eexists. split; [vm_compute; reflexivity |]. repeat split. Qed.

(** ** Leaving the deleted state *)

Lemma failSummary_active id e p c : wroteOnly Active c (snd (failSummary id e p c)).
Proof.
  eapply wroteOnly_trans; [apply wroteOnly_tick |].
  by apply wroteOnly_write.
Qed.

Lemma launchSummary_active (env : Env) project id repoPath prNumber name q p2 c2 :
  Preview.status p2 = Status.building →
  wroteOnly Active c2 (snd (launchSummary env project id repoPath prNumber name q p2 c2)).
Proof.
  intros Hst. unfold launchSummary.
  eapply wroteOnly_trans.
  { apply (wroteOnly_write Active id (named name p2)). unfold Active. simpl.
    by rewrite Hst. }
  destruct (procOutcome (shell env _)) as [e|[]].
  { eapply wroteOnly_trans; [apply wroteOnly_logs | apply failSummary_active]. }
  eapply wroteOnly_trans; [apply wroteOnly_logs |].
  destruct (procOutcome (shell env _)) as [e|[]].
  { eapply wroteOnly_trans; [apply wroteOnly_logs | apply failSummary_active]. }
  eapply wroteOnly_trans; [apply wroteOnly_logs |].
  eapply wroteOnly_trans; [apply wroteOnly_tick |].
  by apply wroteOnly_write.
Qed.

Lemma buildSummary_active (env : Env) project id repoPath prNumber c p0 :
  wroteOnly Active c (snd (buildSummary env project id repoPath prNumber c p0)).
Proof.
  unfold buildSummary.
  eapply wroteOnly_trans; [apply wroteOnly_logs |].
  eapply wroteOnly_trans; [apply wroteOnly_tick |].
  eapply wroteOnly_trans.
  { by apply (wroteOnly_write Active id (started (cClock c) p0)). }
  destruct (portPlan env _ _) as [q|q|].
  - by apply launchSummary_active.
  - eapply wroteOnly_trans; [|by apply launchSummary_active].
    by apply wroteOnly_write.
  - apply failSummary_active.
Qed.

Lemma active_buildPreview (env : Env) project id repoPath prNumber :
  steps (wroteOnly Active) (buildPreview env project id repoPath prNumber).
Proof.
  intros c. destruct (cPreviews c !! id) as [p0|] eqn:Hp.
  - eapply post_weaken; [by apply buildPreview_summary |].
    intros r c' E. change c' with (snd (r, c')). rewrite E.
    apply buildSummary_active.
  - eapply post_weaken; [by apply buildPreview_missing |].
    intros r c' [_ ->].
    eapply wroteOnly_trans; [apply wroteOnly_logs | apply wroteOnly_tick].
Qed.

Ltac active_step :=
  first
    [ apply active_buildPreview
    | apply writes_prismaUpdate; intros; unfold Active; simpl; discriminate
    | apply writes_newDate
    | eapply writes_quiet; intros; first
        [ apply post_removeContainer | apply post_findPreviewWithProject
        | apply post_cloneRepoM | apply post_rmSync
        | apply post_prismaFindFirst | apply post_prismaFindUnique
        | apply post_notNull | apply post_emit | apply post_effect ]
    | apply writes_ret | apply writes_throw
    | apply writes_tryCatch | apply writes_bind
    | match goal with
      | |- steps _ (match ?x with _ => _ end) => destruct x
      | |- steps _ (if ?b then _ else _) => destruct b
      | |- ∀ _, _ => intro
      end ].

Lemma rebuildRoute_unfold (env : Env) (userId id : string) c p proj
    (R1 : Exn + Response → Core → Prop) :
  cPreviews c !! id = Some p →
  Preview.id p = id →
  cProjects c !! Preview.projectId p = Some proj →
  Project.userId proj = userId →
  post (rebuildTail env proj p)
       (coreWrite id (rebuildStarted (cClock c) p) (coreTick c)) R1 →
  post (rebuildRoute env userId id) c
       (λ r c', ∃ r0, R1 r0 c'
                      ∧ r = inr (match r0 with
                                 | inr resp => resp
                                 | inl _ => unexpectedError
                                 end)).
Proof.
  intros Hp Hid Hproj Howner Htail. subst id. unfold rebuildRoute.
  eapply post_tryCatch with (R1 := R1).
  - step post_findPreviewWithProject. intros found c1 [[= ->] ->].
    rewrite Hp, Hproj.
    step post_notNull. intros project c1 [[= ->] ->].
    rewrite Howner, String.eqb_refl. cbn [negb].
    eapply post_bind with (R1 := λ r c', r = inr tt ∧ c' = c).
    + destruct (truthyText (Preview.containerName p)); [|by apply post_ret].
      eapply post_bind; [apply post_removeContainer | |].
      * intros b c1 [_ ->]. by apply post_ret.
      * intros e c1 [[b Hb] _]. discriminate.
    + intros [] c1 [_ ->].
      step post_newDate. intros t c1 [[= ->] ->].
      eapply post_bind; [apply post_prismaUpdate | |];
        cbn [cPreviews coreTick]; rewrite Hp;
        [|intros ? ? [? _]; discriminate].
      intros row c1 [[= ->] ->]. exact Htail.
    + intros ? ? [? _]. discriminate.
  - intros e c1 HR.
    step post_effect. intros [] c2 [_ ->].
    apply post_ret. by exists (inl e).
  - intros resp c1 HR. by exists (inr resp).
Qed.

Lemma handlePROpenOrSync_unfold (env : Env) (project : Project.t) (prNumber : Z)
    (ref : option string) c id p (R : Exn + unit → Core → Prop) :
  onlyRowOf (cPreviews c) id p →
  Preview.projectId p = Project.id project →
  Preview.prNumber p = prNumber →
  post (syncTail env project prNumber ref (Preview.setStatus Status.building p))
       (coreWrite id (Preview.setStatus Status.building p) c) R →
  post (handlePROpenOrSync env project prNumber ref) c R.
Proof.
  intros (Hp & Hid & Honly) Hproj Hpr Htail.
  unfold handlePROpenOrSync, prismaUpsert.
  eapply post_bind with
    (R1 := λ r c', r = inr (Preview.setStatus Status.building p)
                   ∧ c' = coreWrite id (Preview.setStatus Status.building p) c).
  - step post_prismaFindFirst. intros found c1 [[= ->] ->].
    destruct (findFirst _ (cPreviews c)) as [p'|] eqn:E.
    + apply findFirst_Some in E as [Hf [k Hk]].
      apply andb_prop in Hf as [Hf1 Hf2].
      apply String.eqb_eq in Hf1. apply Z.eqb_eq in Hf2.
      assert (k = id) as -> by (apply (Honly k p'); congruence).
      assert (p' = p) as -> by congruence.
      eapply post_weaken; [apply post_prismaUpdate |].
      intros r c'. by rewrite Hid, Hp.
    + apply findFirst_None with (k := id) (p := p) in E; [|done].
      rewrite Hproj, Hpr, String.eqb_refl, Z.eqb_refl in E. discriminate.
  - intros preview c1 [[= ->] ->]. exact Htail.
  - intros ? ? [? _]. discriminate.
Qed.

Lemma active_rebuildTail env proj p : steps (wroteOnly Active) (rebuildTail env proj p).
Proof. unfold rebuildTail, snapshotOf. repeat active_step. Qed.

Lemma active_syncTail env project prNumber ref p :
  steps (wroteOnly Active) (syncTail env project prNumber ref p).
Proof. unfold syncTail. repeat active_step. Qed.

(** What follows a first write of an active row: the row is in the
    history, and the row under its key is active at the end. *)
Lemma after_first_write id b c c' :
  Active b → wroteOnly Active (coreWrite id b c) c' →
  (∃ rows, cHistory c' = (rows ++ b :: cHistory c)%list)
  ∧ ∃ pf, cPreviews c' !! id = Some pf ∧ Active pf.
Proof.
  intros Hb [(rows & E & _) [T D]]. split; [by exists rows |].
  destruct (D id) as [pf Hpf]; [simpl; rewrite lookup_insert_eq; eauto |].
  exists pf. split; [done |].
  destruct (T id pf Hpf) as [H|H]; [|done].
  simpl in H. rewrite lookup_insert_eq in H. by injection H as <-.
Qed.

(** Rows that were deleted stay deleted when only deleted rows are
    written. *)
Lemma stays_deleted (P : Preview.t → Prop) c c' k p p' :
  (∀ q, P q → Preview.status q = Status.deleted) →
  wroteOnly P c c' →
  cPreviews c !! k = Some p → Preview.status p = Status.deleted →
  cPreviews c' !! k = Some p' → Preview.status p' = Status.deleted.
Proof.
  intros HP [_ [T _]] Hk Hst Hk'.
  destruct (T k p' Hk') as [H|H]; [congruence | by apply HP].
Qed.

(** C5, as the code has it. The delete route and the pull-request-closed
    handler leave a deleted row deleted. The rebuild route and the
    open-or-sync handler do not look at the status: whatever it is,
    deleted included, the first row they write is the row marked building,
    a build attempt follows, and the row they leave behind is not
    deleted. *)
Theorem deleted_is_left_by_rebuild_and_sync :
  (∀ (env : Env) (userId id : string) (w : World) (k : string) (p p' : Preview.t),
      previews w !! k = Some p → Preview.status p = Status.deleted →
      previews (snd (deleteRoute env userId id w)) !! k = Some p' →
      Preview.status p' = Status.deleted)
  ∧ (∀ (env : Env) (project : Project.t) (prNumber : Z) (w : World) (k : string)
       (p p' : Preview.t),
      previews w !! k = Some p → Preview.status p = Status.deleted →
      previews (snd (handlePRClosed env project prNumber w)) !! k = Some p' →
      Preview.status p' = Status.deleted)
  ∧ (∀ (env : Env) (userId id : string) (w : World) (p : Preview.t) (proj : Project.t),
      previews w !! id = Some p → Preview.id p = id →
      projects w !! Preview.projectId p = Some proj →
      Project.userId proj = userId →
      (∃ b rows, Preview.status b = Status.building
                 ∧ history (snd (rebuildRoute env userId id w))
                   = (rows ++ b :: history w)%list)
      ∧ ∃ pf, previews (snd (rebuildRoute env userId id w)) !! id = Some pf
              ∧ Preview.status pf ≠ Status.deleted)
  ∧ (∀ (env : Env) (project : Project.t) (prNumber : Z) (ref : option string)
       (w : World) (id : string) (p : Preview.t),
      onlyRowOf (previews w) id p →
      Preview.projectId p = Project.id project →
      Preview.prNumber p = prNumber →
      (∃ b rows, Preview.status b = Status.building
                 ∧ history (snd (handlePROpenOrSync env project prNumber ref w))
                   = (rows ++ b :: history w)%list)
      ∧ ∃ pf, previews (snd (handlePROpenOrSync env project prNumber ref w)) !! id = Some pf
              ∧ Preview.status pf ≠ Status.deleted).
Proof.
  split; [|split; [|split]].
  - intros env userId id w k p p' Hk Hst Hk'.
    pose proof (deleteRoute_writes env userId id (core w) w eq_refl) as Hw.
    exact (stays_deleted _ _ _ k p p' (λ q Hq, proj1 Hq) Hw Hk Hst Hk').
  - intros env project prNumber w k p p' Hk Hst Hk'.
    pose proof (handlePRClosed_writes env project prNumber (core w) w eq_refl) as Hw.
    exact (stays_deleted _ _ _ k p p' (λ q Hq, proj1 Hq) Hw Hk Hst Hk').
  - intros env userId id w p proj Hp Hid Hproj Howner.
    pose proof (rebuildRoute_unfold env userId id (core w) p proj _ Hp Hid Hproj Howner
                  (active_rebuildTail env proj p _) w eq_refl) as (r0 & Hw & _).
    apply after_first_write in Hw as [[rows Hrows] Hpf]; [|discriminate].
    split; [|exact Hpf].
    by exists (rebuildStarted (clock w) p), rows.
  - intros env project prNumber ref w id p Honly Hproj Hpr.
    pose proof (handlePROpenOrSync_unfold env project prNumber ref (core w) id p _
                  Honly Hproj Hpr
                  (active_syncTail env project prNumber ref _ _) w eq_refl) as Hw.
    apply after_first_write in Hw as [[rows Hrows] Hpf]; [|discriminate].
    split; [|exact Hpf].
    by exists (Preview.setStatus Status.building p), rows.
Qed.

Lemma deleted_is_left_by_rebuild_and_sync_witness :
  (∃ b rows, Preview.status b = Status.building
             ∧ history (snd (rebuildRoute calmEnv "user-1" "pv-a"
                               (worldOf [deletedRow "pv-a" 7 5007])))
               = (rows ++ b :: history (worldOf [deletedRow "pv-a" 7 5007]))%list)
  ∧ ∃ pf, previews (snd (rebuildRoute calmEnv "user-1" "pv-a"
                           (worldOf [deletedRow "pv-a" 7 5007]))) !! "pv-a" = Some pf
          ∧ Preview.status pf ≠ Status.deleted.
Proof.
  apply (proj1 (proj2 (proj2 deleted_is_left_by_rebuild_and_sync)) calmEnv "user-1" "pv-a"
           (worldOf [deletedRow "pv-a" 7 5007]) (deletedRow "pv-a" 7 5007) sampleProject).
  - vm_compute. reflexivity.
  - reflexivity.
  - vm_compute. reflexivity.
  - reflexivity.
Defined.

(** C5 as stated fails: a preview deleted by the closing of its pull
    request is built again, and is live again, after a rebuild request and
    after a synchronisation of the pull request. *)
Lemma deleted_preview_is_rebuilt :
  (∃ p, previews (runOps openThenClose emptyWorld) !! "pv-new" = Some p
        ∧ Preview.status p = Status.deleted)
  ∧ (∃ p, previews (runOps openCloseRebuild emptyWorld) !! "pv-new" = Some p
          ∧ Preview.status p = Status.live ∧ Preview.buildNumber p = 3)
  ∧ (∃ p, previews (runOps openCloseSync emptyWorld) !! "pv-new" = Some p
          ∧ Preview.status p = Status.live ∧ Preview.buildNumber p = 3).
Proof.
  repeat split; eexists; (split; [vm_compute; reflexivity |]); repeat split.
Qed.

(** ** The build counter across a rebuild *)

Lemma reservedIn_spec (db : gmap string Preview.t) (q : Z) :
  reservedIn db q = true ↔ ∃ k r, db !! k = Some r ∧ holdsPort q r = true.
Proof.
  unfold reservedIn. split.
  - destruct (findFirst (holdsPort q) db) as [r|] eqn:E; [|done].
    intros _. apply findFirst_Some in E as [Hf [k Hk]]. by exists k, r.
  - intros (k & r & Hk & Hf).
    destruct (findFirst (holdsPort q) db) as [r'|] eqn:E; [done |].
    apply findFirst_None with (k := k) (p := r) in E; [congruence | done].
Qed.

Lemma holdsPort_spec (q : Z) (r : Preview.t) :
  holdsPort q r = true ↔ Preview.port r = Some q ∧ Preview.status r ≠ Status.deleted.
Proof.
  unfold holdsPort. rewrite andb_true_iff, bool_decide_eq_true, negb_true_iff.
  split; intros [H1 H2]; (split; [done |]).
  - intros E. rewrite E in H2. discriminate.
  - by destruct (Preview.status r).
Qed.

(** Marking a row building keeps what it reserves, and reserves nothing
    but its own port. *)
Lemma reservedIn_marked (db : gmap string Preview.t) id p p1 q :
  db !! id = Some p →
  Preview.port p1 = Preview.port p → Preview.status p1 = Status.building →
  (reservedIn db q = true → reservedIn (<[id := p1]> db) q = true)
  ∧ (reservedIn (<[id := p1]> db) q = true →
     reservedIn db q = true ∨ Preview.port p = Some q).
Proof.
  intros Hp Hport Hst. rewrite !reservedIn_spec. split.
  - intros (k & r & Hk & Hf). destruct (decide (k = id)) as [->|Hne].
    + exists id, p1. rewrite lookup_insert_eq. split; [done |].
      apply holdsPort_spec in Hf as [Hq _]. apply holdsPort_spec.
      rewrite Hport, Hst. split; [congruence | discriminate].
    + exists k, r. by rewrite lookup_insert_ne.
  - intros (k & r & Hk & Hf). destruct (decide (k = id)) as [->|Hne].
    + rewrite lookup_insert_eq in Hk. injection Hk as <-.
      apply holdsPort_spec in Hf as [Hq _]. right. congruence.
    + rewrite lookup_insert_ne in Hk by done. left. by exists k, r.
Qed.

Lemma firstFree_exhausted (env : Env) db lo hi :
  Exhausted env db lo hi → firstFree env db (Z.to_nat (hi - lo + 1)) lo = None.
Proof. intros H. apply firstFree_None. intros q Hq. apply H. lia. Qed.

Lemma firstFree_available (env : Env) db lo hi :
  Available env db lo hi → firstFree env db (Z.to_nat (hi - lo + 1)) lo ≠ None.
Proof.
  intros (q & Hq & Hr & Hf) E.
  apply firstFree_None with (q := q) in E as [E|E]; [congruence.. | lia].
Qed.

Lemma portPlan_fails (env : Env) db id p p1 :
  db !! id = Some p →
  Preview.port p1 = Preview.port p → Preview.status p1 = Status.building →
  portStepFails env db (Preview.port p) →
  portPlan env (<[id := p1]> db) (Preview.port p) = NoPort.
Proof.
  intros Hp Hport Hst. unfold portStepFails, portPlan.
  assert (∀ lo hi, Exhausted env db lo hi → Exhausted env (<[id := p1]> db) lo hi) as Hmono.
  { intros lo hi H q Hq. destruct (H q Hq) as [Hr|Hf]; [left | by right].
    by apply (reservedIn_marked db id p p1 q). }
  destruct (truthyNumber (Preview.port p)) as [q0|].
  - intros [Hbound Hex]. rewrite Hbound.
    pose proof (firstFree_exhausted env _ 4000 4999 (Hmono _ _ Hex)) as E.
    change (Z.to_nat (4999 - 4000 + 1)) with 1000%nat in E. by rewrite E.
  - intros Hex.
    pose proof (firstFree_exhausted env _ 5000 5999 (Hmono _ _ Hex)) as E.
    change (Z.to_nat (5999 - 5000 + 1)) with 1000%nat in E. by rewrite E.
Qed.

Lemma portPlan_succeeds (env : Env) db id p p1 :
  db !! id = Some p →
  Preview.port p1 = Preview.port p → Preview.status p1 = Status.building →
  portStepSucceeds env db (Preview.port p) →
  portPlan env (<[id := p1]> db) (Preview.port p) ≠ NoPort.
Proof.
  intros Hp Hport Hst. unfold portStepSucceeds, portPlan.
  assert (∀ lo hi, (∀ q, lo ≤ q ≤ hi → osPortFree env q = true → Preview.port p ≠ Some q) →
            Available env db lo hi → Available env (<[id := p1]> db) lo hi) as Hmono.
  { intros lo hi Hother (q & Hq & Hr & Hf). exists q. split; [done |]. split; [|done].
    destruct (reservedIn (<[id:=p1]> db) q) eqn:E; [|done].
    apply (reservedIn_marked db id p p1 q) in E as [E|E]; try done.
    - congruence.
    - by destruct (Hother q Hq Hf). }
  destruct (truthyNumber (Preview.port p)) as [q0|] eqn:Hheld.
  - apply truthyNumber_Some in Hheld as [Hheld Hq0].
    destruct (osPortFree env q0) eqn:Hfree; [done |].
    intros [?|Hav]; [done |].
    apply (Hmono 4000 4999) in Hav.
    + apply firstFree_available in Hav.
      change (Z.to_nat (4999 - 4000 + 1)) with 1000%nat in Hav.
      by destruct (firstFree env (<[id:=p1]> db) 1000 4000).
    + intros q _ Hf E. rewrite Hheld in E. injection E as ->. congruence.
  - intros Hav. apply (Hmono 5000 5999) in Hav.
    + apply firstFree_available in Hav.
      change (Z.to_nat (5999 - 5000 + 1)) with 1000%nat in Hav.
      by destruct (firstFree env (<[id:=p1]> db) 1000 5000).
    + intros q Hq _ E. rewrite E in Hheld. simpl in Hheld.
      destruct (Z.eqb_spec q 0); [lia | done].
Qed.

Lemma post_emit_cause (env : Env) room topic payload c :
  post (emit env room topic payload) c
       (λ r c', c' = c ∧ (r = inr tt
                          ∨ (r = inl (ioError env) ∧ ∃ n, ioFails env n = true))).
Proof.
  intros w <-. unfold emit. destruct (ioFails env (ioCalls w)) eqn:E; simpl; eauto.
Qed.

Lemma sameCounter_refl id c : sameCounter id c c.
Proof. intros p Hp. by exists p. Qed.

Lemma sameCounter_trans id c1 c2 c3 :
  sameCounter id c1 c2 → sameCounter id c2 c3 → sameCounter id c1 c3.
Proof.
  intros H1 H2 p Hp. destruct (H1 p Hp) as (p' & Hp' & E1).
  destruct (H2 p' Hp') as (p'' & Hp'' & E2). exists p''. split; [done | congruence].
Qed.

Lemma sameCounter_tick id c : sameCounter id c (coreTick c).
Proof. intros p Hp. by exists p. Qed.

Lemma sameCounter_prismaUpdate id k (data : Preview.t → Preview.t) :
  (∀ p, Preview.buildNumber (data p) = Preview.buildNumber p) →
  steps (sameCounter id) (prismaUpdate k data).
Proof.
  intros Hdata c. eapply post_weaken; [apply post_prismaUpdate |].
  intros r c'. destruct (cPreviews c !! k) as [q|] eqn:Hq; intros [_ ->].
  - intros p Hp. simpl. rewrite lookup_insert. case_decide as Hk.
    + subst k. exists (data q). split; [done |]. rewrite Hdata. congruence.
    + by exists p.
  - apply sameCounter_refl.
Qed.

Ltac counter_step :=
  first
    [ apply sameCounter_prismaUpdate; intros; reflexivity
    | apply (steps_quiet _ (sameCounter_refl _)) with (R := λ _ _, True); intros;
        eapply post_weaken;
        [ first [ apply post_rmSync | apply post_effect | apply post_emit
                | apply post_prismaFindUnique | apply post_notNull ]
        | simpl; intros ? ? [_ ->]; done ]
    | intros ?; eapply post_weaken; [apply post_newDate |];
        intros ? ? [_ ->]; apply sameCounter_tick
    | apply steps_ret; apply sameCounter_refl
    | apply steps_throw; apply sameCounter_refl
    | apply steps_tryCatch; [apply sameCounter_trans | |]
    | apply steps_bind; [apply sameCounter_trans | |]
    | match goal with
      | |- steps _ (match ?x with _ => _ end) => destruct x
      | |- ∀ _, _ => intro
      end ].

Lemma rebuildTail_counter (env : Env) (proj : Project.t) (p : Preview.t) c :
  cPreviews c !! Preview.id p = Some p →
  let id := Preview.id p in
  let p0 := rebuildStarted (cClock c) p in
  let plan := portPlan env (<[id := started (cClock c + 1) p0]> (cPreviews c))
                (Preview.port p) in
  post (rebuildTail env proj p) (coreWrite id p0 (coreTick c))
       (λ _ c', ∃ pf, cPreviews c' !! id = Some pf
          ∧ ((Preview.buildNumber pf = Preview.buildNumber p
              ∧ ((∃ n, ioFails env n = true)
                 ∨ ∃ e, cloneRepo env (Project.repoOwner proj) (Project.repoName proj) None
                        = inl e))
             ∨ ((∃ path, cloneRepo env (Project.repoOwner proj) (Project.repoName proj) None
                         = inr path)
                ∧ Preview.buildNumber pf
                  = Preview.buildNumber p + (if isNoPort plan then 0 else 1)))).
Proof.
  intros Hp id p0 plan. unfold rebuildTail. fold id.
  set (c1 := coreWrite id p0 (coreTick c)).
  assert (cPreviews c1 !! id = Some p0) as Hp0 by apply lookup_insert_eq.
  assert (∀ path r c2,
            buildSummary env proj id path (Preview.prNumber p) c1 p0 = (r, c2) →
            ∃ pf2, cPreviews c2 !! id = Some pf2
                   ∧ Preview.buildNumber pf2
                     = Preview.buildNumber p + (if isNoPort plan then 0 else 1)) as Hsum.
  { intros path r c2 E.
    apply buildSummary_result in E as (pf & Hpf & _ & _ & Hn & _).
    exists pf. split; [exact Hpf |]. rewrite Hn. subst plan c1.
    cbn [cPreviews coreWrite coreTick cClock].
    rewrite insert_insert_eq.
    change (Preview.port p0) with (Preview.port p).
    change (Preview.buildNumber p0) with (Preview.buildNumber p).
    reflexivity. }
  clearbody plan.
  eapply post_bind; [apply post_emit_cause | |].
  - intros [] cx [-> _].
    eapply post_bind; [apply post_cloneRepoM | |].
    + intros path cx [Hclone ->].
      eapply post_weaken with
        (R1 := λ _ c2, ∃ pf2, cPreviews c2 !! id = Some pf2
                 ∧ Preview.buildNumber pf2
                   = Preview.buildNumber p + (if isNoPort plan then 0 else 1)).
      * eapply post_tryCatch with
          (R1 := λ _ c2, ∃ pf2, cPreviews c2 !! id = Some pf2
                   ∧ Preview.buildNumber pf2
                     = Preview.buildNumber p + (if isNoPort plan then 0 else 1)).
        -- eapply post_bind; [apply (buildPreview_summary _ _ _ _ _ _ _ Hp0) | |].
           ++ intros url c2 E. cbv beta in E. symmetry in E.
              apply Hsum in E as (pf & Hpf & Hn).
              assert (steps (sameCounter id)
                        (tryCatch (rmSync path) (λ _, ret tt) ;;
                         updated <- snapshotOf id ;;
                         emit env None "preview-status-update" (Snapshot updated) ;;
                         ret (mkResponse 200 (OkUrlBody url)))) as Hrest.
              { unfold snapshotOf. repeat counter_step. }
              eapply post_weaken; [apply Hrest |].
              intros r c' Hsame. destruct (Hsame pf Hpf) as (pf' & Hpf' & Hbn).
              exists pf'. split; [exact Hpf' | congruence].
           ++ intros e c2 E. cbv beta in E. symmetry in E. by apply Hsum in E.
        -- intros e c2 (pf & Hpf & Hn).
           assert (steps (sameCounter id)
                     (completedAt <- newDate ;;
                      prismaUpdate id
                        (λ p, Preview.setContainerName None
                                (Preview.setUrl None
                                   (Preview.setBuildCompletedAt (Some completedAt)
                                      (Preview.setStatus Status.error p)))) ;;
                      updated <- snapshotOf id ;;
                      emit env None "preview-status-update" (Snapshot updated) ;;
                      tryCatch (rmSync path) (λ _, ret tt) ;;
                      ret (mkResponse 500 (FailedBody "Build failed")))) as Hrest.
           { unfold snapshotOf. repeat counter_step. }
           eapply post_weaken; [apply Hrest |].
           intros r c' Hsame. destruct (Hsame pf Hpf) as (pf' & Hpf' & Hbn).
           exists pf'. split; [exact Hpf' | congruence].
        -- intros a c2 H. exact H.
      * intros r c' (pf & Hpf & Hn). exists pf. split; [exact Hpf |]. right. eauto.
    + intros e cx [Hclone ->]. exists p0. split; [exact Hp0 |]. left. eauto.
  - intros e cx [-> [?|[_ Hio]]]; [discriminate |].
    exists p0. split; [exact Hp0 |]. left. eauto.
Qed.

(** C2, as the code has it. For a rebuild request of the owner on an
    existing preview: the build counter is unchanged when the port step
    cannot succeed and when the clone fails; it is the counter before plus
    exactly 1 when the socket works, the clone succeeds and the port step
    succeeds, whatever the image build and the container run do after
    that. *)
Theorem rebuild_increments_buildNumber :
  ∀ (env : Env) (userId id : string) (w : World) (p : Preview.t) (proj : Project.t),
    previews w !! id = Some p → Preview.id p = id →
    projects w !! Preview.projectId p = Some proj →
    Project.userId proj = userId →
    ∃ pf, previews (snd (rebuildRoute env userId id w)) !! id = Some pf
      ∧ (portStepFails env (previews w) (Preview.port p) →
         Preview.buildNumber pf = Preview.buildNumber p)
      ∧ ((∃ e, cloneRepo env (Project.repoOwner proj) (Project.repoName proj) None = inl e) →
         Preview.buildNumber pf = Preview.buildNumber p)
      ∧ ((∀ n, ioFails env n = false) →
         (∃ path, cloneRepo env (Project.repoOwner proj) (Project.repoName proj) None
                  = inr path) →
         portStepSucceeds env (previews w) (Preview.port p) →
         Preview.buildNumber pf = Preview.buildNumber p + 1).
Proof.
  intros env userId id w p proj Hp Hid Hproj Howner. subst id.
  pose proof (rebuildRoute_unfold env userId (Preview.id p) (core w) p proj _
                Hp eq_refl Hproj Howner
                (rebuildTail_counter env proj p (core w) Hp) w eq_refl)
    as (r0 & (pf & Hpf & Hcases) & _).
  exists pf. split; [exact Hpf |].
  cbv zeta in Hcases. cbn [cPreviews cClock core] in Hcases.
  set (p1 := started (clock w + 1) (rebuildStarted (clock w) p)) in Hcases.
  split; [|split].
  - intros Hfails.
    rewrite (portPlan_fails env (previews w) (Preview.id p) p p1 Hp eq_refl eq_refl Hfails)
      in Hcases.
    cbn [isNoPort] in Hcases. destruct Hcases as [[E _]|[_ E]]; lia.
  - intros [e He]. destruct Hcases as [[E _]|[[path Hpath] _]]; [exact E | congruence].
  - intros Hio Hclone Hok.
    pose proof (portPlan_succeeds env (previews w) (Preview.id p) p p1 Hp eq_refl eq_refl Hok)
      as Hplan.
    destruct Hcases as [[_ [[n Hn]|[e He]]]|[_ E]].
    + rewrite Hio in Hn. discriminate.
    + destruct Hclone as [path Hpath]. congruence.
    + rewrite E. by destruct (portPlan env _ _).
Qed.

Lemma rebuild_increments_buildNumber_witness :
  ∃ pf, previews (snd (rebuildRoute buildFailsEnv "user-1" "pv-a"
                         (worldOf [liveRow "pv-a" 7 5007]))) !! "pv-a" = Some pf
    ∧ (portStepFails buildFailsEnv (previews (worldOf [liveRow "pv-a" 7 5007])) (Some 5007) →
       Preview.buildNumber pf = 2)
    ∧ ((∃ e, cloneRepo buildFailsEnv "Acme" "Web_App" None = inl e) →
       Preview.buildNumber pf = 2)
    ∧ ((∀ n, ioFails buildFailsEnv n = false) →
       (∃ path, cloneRepo buildFailsEnv "Acme" "Web_App" None = inr path) →
       portStepSucceeds buildFailsEnv (previews (worldOf [liveRow "pv-a" 7 5007])) (Some 5007) →
       Preview.buildNumber pf = 2 + 1).
Proof.
  apply (rebuild_increments_buildNumber buildFailsEnv "user-1" "pv-a"
           (worldOf [liveRow "pv-a" 7 5007]) (liveRow "pv-a" 7 5007) sampleProject).
  - vm_compute. reflexivity.
  - reflexivity.
  - vm_compute. reflexivity.
  - reflexivity.
Defined.

(** C2 as stated fails: a rebuild whose clone fails, and a rebuild that
    finds no port, leave the build counter as it was. *)
Lemma rebuild_without_increment :
  (∃ p, previews (snd (rebuildRoute cloneFailsEnv "user-1" "pv-a"
                         (worldOf [liveRow "pv-a" 7 5007]))) !! "pv-a" = Some p
        ∧ Preview.buildNumber p = Preview.buildNumber (liveRow "pv-a" 7 5007))
  ∧ (∃ p, previews (snd (rebuildRoute noPortsEnv "user-1" "pv-a"
                           (worldOf [liveRow "pv-a" 7 5007]))) !! "pv-a" = Some p
          ∧ Preview.status p = Status.error
          ∧ Preview.buildNumber p = Preview.buildNumber (liveRow "pv-a" 7 5007)).
Proof.
  split; eexists; (split; [vm_compute; reflexivity |]); repeat split.
Qed.

(** ** Port reuse and fallback *)

(** C6, on the code. The port step of a build first probes the port the
    row holds and reuses it when it can be bound, without writing
    anything; when that port is bound it allocates a fresh one, and this
    fresh port comes from 4000-4999, whereas a row without port gets one
    from 5000-5999. *)
Theorem fallback_port_range :
  ∀ (env : Env) (id : string) (preview p : Preview.t) (w w' : World) (q : Z),
    previews w !! id = Some p →
    assignPort env id preview w = (inr q, w') →
    match truthyNumber (Preview.port preview) with
    | None => 5000 ≤ q ≤ 5999
    | Some held =>
        (osPortFree env held = true ∧ q = held ∧ core w' = core w)
        ∨ (osPortFree env held = false ∧ 4000 ≤ q ≤ 4999)
    end.
Proof.
  intros env id preview p w w' q Hp E.
  pose proof (post_assignPort env id preview p (core w) Hp w eq_refl) as H.
  rewrite E in H. cbn [fst snd] in H. unfold portPlan in H.
  destruct (truthyNumber (Preview.port preview)) as [held|].
  - destruct (osPortFree env held) eqn:Hfree.
    + destruct H as [[= ->] ->]. by left.
    + right. split; [done |].
      destruct (firstFree env (cPreviews (core w)) 1000 4000) as [q'|] eqn:Hq;
        destruct H as [[= ->] _].
      apply firstFree_Some in Hq as (Hq & _ & _). lia.
  - destruct (firstFree env (cPreviews (core w)) 1000 5000) as [q'|] eqn:Hq;
      destruct H as [[= ->] _].
    apply firstFree_Some in Hq as (Hq & _ & _). lia.
Qed.

Lemma fallback_port_range_witness :
  (osPortFree env5007Bound 5007 = true ∧ 4000 = 5007
   ∧ core (snd (assignPort env5007Bound "pv-a" (liveRow "pv-a" 7 5007)
                  (worldOf [liveRow "pv-a" 7 5007])))
     = core (worldOf [liveRow "pv-a" 7 5007]))
  ∨ (osPortFree env5007Bound 5007 = false ∧ 4000 ≤ 4000 ≤ 4999).
Proof.
  apply (fallback_port_range env5007Bound "pv-a" (liveRow "pv-a" 7 5007)
           (liveRow "pv-a" 7 5007) (worldOf [liveRow "pv-a" 7 5007]) _ 4000).
  - vm_compute. reflexivity.
  - vm_compute. reflexivity.
Defined.

(** ** Which counter the container name carries *)

(** C7, on the code. A build attempt that gets past the port step stores
    the name generated from the counter as it was before the attempt, and
    then the counter plus 1: the stored name is not the name of the new
    counter. An attempt that fails at the port step leaves counter and
    stored name alone, so the next attempt generates the same name
    again. *)
Theorem containerName_from_old_buildNumber :
  ∀ (env : Env) (project : Project.t) (id repoPath : string) (prNumber : Z)
    (w w' : World) (p0 : Preview.t) (r : Exn + string),
    previews w !! id = Some p0 →
    1 ≤ Preview.buildNumber p0 →
    buildPreview env project id repoPath prNumber w = (r, w') →
    ∃ pf, previews w' !! id = Some pf
      ∧ ((Preview.buildNumber pf = Preview.buildNumber p0 + 1
          ∧ Preview.containerName pf
            = Some (generateContainerName project prNumber (Preview.buildNumber p0))
          ∧ Preview.containerName pf
            ≠ Some (generateContainerName project prNumber (Preview.buildNumber pf)))
         ∨ (r = inl noFreePorts
            ∧ Preview.buildNumber pf = Preview.buildNumber p0
            ∧ Preview.containerName pf = Preview.containerName p0)).
Proof.
  intros env project id repoPath prNumber w w' p0 r Hp Hbn E.
  apply (buildPreview_result _ _ _ _ _ _ _ _ _ Hp) in E.
  apply buildSummary_result in E as (pf & Hpf & _ & _ & Hn & Hname & Hr).
  exists pf. split; [exact Hpf |].
  assert (nextBuildNumberOf p0 = Preview.buildNumber p0) as Hnext.
  { unfold nextBuildNumberOf. destruct (Z.eqb_spec (Preview.buildNumber p0) 0); lia. }
  rewrite Hnext in Hname.
  destruct (isNoPort (portPlan env _ (Preview.port p0))) eqn:Hplan.
  - right. destruct r as [e|url].
    + destruct Hr as (_ & _ & _ & _ & He). rewrite (He eq_refl).
      repeat split; [lia | done].
    + destruct Hr as (_ & _ & _ & Hno & _). discriminate.
  - left. repeat split; [lia | done |].
    rewrite Hname, Hn. intros Heq. apply (inj Some) in Heq.
    apply generateContainerName_buildNumber_inj in Heq. lia.
Qed.

Lemma containerName_from_old_buildNumber_witness :
  ∃ pf, previews (snd (buildPreview calmEnv sampleProject "pv-a" "/tmp/repo" 7
                         (worldOf [liveRow "pv-a" 7 5007]))) !! "pv-a" = Some pf
    ∧ ((Preview.buildNumber pf = 2 + 1
        ∧ Preview.containerName pf = Some (generateContainerName sampleProject 7 2)
        ∧ Preview.containerName pf
          ≠ Some (generateContainerName sampleProject 7 (Preview.buildNumber pf)))
       ∨ (inr "http://localhost:5007" = inl noFreePorts
          ∧ Preview.buildNumber pf = 2
          ∧ Preview.containerName pf = Some (generateContainerName sampleProject 7 1))).
Proof.
  apply (containerName_from_old_buildNumber calmEnv sampleProject "pv-a" "/tmp/repo" 7
           (worldOf [liveRow "pv-a" 7 5007]) _ (liveRow "pv-a" 7 5007)).
  - vm_compute. reflexivity.
  - simpl. lia.
  - vm_compute. reflexivity.
Defined.

(** Two attempts in a row that find no port look for stale containers
    under one and the same name. *)
Example failing_attempts_share_name :
  let w1 := snd (buildPreview noPortsEnv sampleProject "pv-a" "/tmp/repo" 7
                   (worldOf [liveRow "pv-a" 7 5007])) in
  let w2 := snd (buildPreview noPortsEnv sampleProject "pv-a" "/tmp/repo" 7 w1) in
  let failed := Emit (Some "pv-a") "log-error" (LogError (message noFreePorts)) in
  let lookup := Exec "docker ps -aq -f name=preview-pckv9x2ab-pr7-b2" in
  effects w1 = [failed; lookup] ∧ effects w2 = [failed; lookup; failed; lookup].
Proof. vm_compute. split; reflexivity. Qed.

(** ** Failing emissions *)

(** C9, on the code. In [handlePROpenOrSync] the first announcement is not
    guarded: when the socket throws there, the handler throws that very
    error straight after the upsert, and neither clone nor build takes
    place; the row stays in status building. *)
Theorem emit_failure_aborts_sync :
  ∀ (env : Env) (project : Project.t) (prNumber : Z) (ref : option string)
    (w : World) (id : string) (p : Preview.t),
    onlyRowOf (previews w) id p →
    Preview.projectId p = Project.id project →
    Preview.prNumber p = prNumber →
    ioFails env (ioCalls w) = true →
    fst (handlePROpenOrSync env project prNumber ref w) = inl (ioError env)
    ∧ previews (snd (handlePROpenOrSync env project prNumber ref w))
      = <[id := Preview.setStatus Status.building p]> (previews w)
    ∧ effects (snd (handlePROpenOrSync env project prNumber ref w)) = effects w.
Proof.
  intros env project prNumber ref w id p (Hp & Hid & Honly) Hproj Hpr Hio.
  assert (handlePROpenOrSync env project prNumber ref w
          = (inl (ioError env),
             countIo (writeRow id (Preview.setStatus Status.building p) w))) as ->.
  { unfold handlePROpenOrSync, prismaUpsert.
    unfold bind at 1. unfold bind at 1. unfold prismaFindFirst, gets.
    destruct (findFirst _ (previews w)) as [p'|] eqn:E.
    - apply findFirst_Some in E as [Hf [k Hk]].
      apply andb_prop in Hf as [Hf1 Hf2].
      apply String.eqb_eq in Hf1. apply Z.eqb_eq in Hf2.
      assert (k = id) as -> by (apply (Honly k p'); congruence).
      assert (p' = p) as -> by congruence.
      unfold prismaUpdate. rewrite Hid, Hp.
      unfold bind, emit. cbn [ioCalls writeRow]. by rewrite Hio.
    - apply findFirst_None with (k := id) (p := p) in E; [|done].
      rewrite Hproj, Hpr, String.eqb_refl, Z.eqb_refl in E. discriminate. }
  done.
Qed.

Lemma emit_failure_aborts_sync_witness :
  fst (handlePROpenOrSync socketDownEnv sampleProject 7 None
         (worldOf [liveRow "pv-a" 7 5007])) = inl (ioError socketDownEnv)
  ∧ previews (snd (handlePROpenOrSync socketDownEnv sampleProject 7 None
                     (worldOf [liveRow "pv-a" 7 5007])))
    = <["pv-a" := Preview.setStatus Status.building (liveRow "pv-a" 7 5007)]>
        (previews (worldOf [liveRow "pv-a" 7 5007]))
  ∧ effects (snd (handlePROpenOrSync socketDownEnv sampleProject 7 None
                    (worldOf [liveRow "pv-a" 7 5007])))
    = effects (worldOf [liveRow "pv-a" 7 5007]).
Proof.
  apply (emit_failure_aborts_sync socketDownEnv sampleProject 7 None
           (worldOf [liveRow "pv-a" 7 5007]) "pv-a" (liveRow "pv-a" 7 5007)).
  - split; [vm_compute; reflexivity |]. split; [reflexivity |].
    intros k q Hk _ _.
    destruct (decide (k = "pv-a")) as [->|Hne]; [done |].
    unfold worldOf in Hk. cbn [previews fmap list_fmap list_to_map foldr] in Hk.
    rewrite lookup_insert_ne in Hk by done. rewrite lookup_empty in Hk. discriminate.
  - reflexivity.
  - reflexivity.
  - reflexivity.
Defined.

(** The same request ends differently with and without a working socket:
    with it the preview is built and live, without it the handler throws
    and the preview stays building; and a rebuild that succeeds is
    recorded as an error, and answered with status 500, when the socket
    drops before the final announcement. *)
Example socket_changes_the_outcome :
  (let r := handlePROpenOrSync calmEnv sampleProject 7 None
              (worldOf [liveRow "pv-a" 7 5007]) in
   fst r = inr tt
   ∧ Preview.status <$> (previews (snd r) !! "pv-a") = Some Status.live)
  ∧ (let r := handlePROpenOrSync socketDownEnv sampleProject 7 None
                (worldOf [liveRow "pv-a" 7 5007]) in
     fst r = inl (ioError socketDownEnv)
     ∧ Preview.status <$> (previews (snd r) !! "pv-a") = Some Status.building)
  ∧ (let r := rebuildRoute calmEnv "user-1" "pv-a" (worldOf [liveRow "pv-a" 7 5007]) in
     fst r = inr (mkResponse 200 (OkUrlBody "http://localhost:5007"))
     ∧ Preview.status <$> (previews (snd r) !! "pv-a") = Some Status.live)
  ∧ (let r := rebuildRoute socketDropsEnv "user-1" "pv-a"
                (worldOf [liveRow "pv-a" 7 5007]) in
     fst r = inr unexpectedError
     ∧ Preview.status <$> (previews (snd r) !! "pv-a") = Some Status.error)
  ∧ (let r := deleteRoute socketDownEnv "user-1" "pv-a"
                (worldOf [liveRow "pv-a" 7 5007]) in
     fst r = inr (mkResponse 500 (ErrorBody "Delete failed"))
     ∧ Preview.status <$> (previews (snd r) !! "pv-a") = Some Status.deleted).
Proof. vm_compute. repeat split. Qed.

(** * Further properties of the code *)

(** ** The routes at their boundary *)

(** X1. A rebuild or delete request for an id that is not in the table is
    answered 404, and one from a user who does not own the project of the
    preview is answered 403; in both cases nothing at all has happened:
    no row is written, no container removed, no event emitted. *)
Theorem routes_reject_without_effect :
  ∀ (env : Env) (userId id : string) (w : World),
    (previews w !! id = None →
     rebuildRoute env userId id w = (inr notFound, w)
     ∧ deleteRoute env userId id w = (inr notFound, w))
    ∧ (∀ (p : Preview.t) (proj : Project.t),
        previews w !! id = Some p →
        projects w !! Preview.projectId p = Some proj →
        Project.userId proj ≠ userId →
        rebuildRoute env userId id w = (inr notAllowed, w)
        ∧ deleteRoute env userId id w = (inr notAllowed, w)).
Proof.
  intros env userId id w. split.
  - intros Hp. unfold rebuildRoute, deleteRoute, tryCatch, bind,
      findPreviewWithProject, gets. by rewrite Hp.
  - intros p proj Hp Hproj Hne.
    assert ((Project.userId proj =? userId)%string = false) as Heq
      by (by apply String.eqb_neq).
    unfold rebuildRoute, deleteRoute, tryCatch, bind, findPreviewWithProject, gets.
    rewrite Hp, Hproj. cbn [notNull ret]. by rewrite Heq.
Qed.

Lemma routes_reject_without_effect_witness :
  rebuildRoute calmEnv "user-2" "pv-a" (worldOf [liveRow "pv-a" 7 5007])
  = (inr notAllowed, worldOf [liveRow "pv-a" 7 5007])
  ∧ deleteRoute calmEnv "user-2" "pv-a" (worldOf [liveRow "pv-a" 7 5007])
    = (inr notAllowed, worldOf [liveRow "pv-a" 7 5007]).
Proof.
  apply (proj2 (routes_reject_without_effect calmEnv "user-2" "pv-a"
                  (worldOf [liveRow "pv-a" 7 5007]))
           (liveRow "pv-a" 7 5007) sampleProject).
  - vm_compute. reflexivity.
  - vm_compute. reflexivity.
  - discriminate.
Defined.

Lemma answers_ret (resp : Response) : knownCode resp → answers (ret resp).
Proof. intros H w. exact H. Qed.

Lemma answers_throw (e : Exn) : answers (throw e).
Proof. by intros w. Qed.

Lemma answers_bind {A} (m : M World A) (k : A → M World Response) :
  (∀ a, answers (k a)) → answers (bind m k).
Proof.
  intros Hk w. unfold bind. destruct (m w) as [[e|a] w1]; [done | apply Hk].
Qed.

Lemma answers_tryCatch (m : M World Response) (h : Exn → M World Response) :
  answers m → (∀ e, answers (h e)) → answers (tryCatch m h).
Proof.
  intros Hm Hh w. unfold tryCatch. specialize (Hm w).
  destruct (m w) as [[e|a] w1]; [apply Hh | exact Hm].
Qed.

Ltac answers_step :=
  first
    [ apply answers_ret; unfold knownCode; simpl; tauto
    | apply answers_throw
    | apply answers_tryCatch
    | apply answers_bind
    | match goal with
      | |- answers (match ?x with _ => _ end) => destruct x
      | |- answers (if ?b then _ else _) => destruct b
      | |- ∀ _, _ => intro
      end ].

(** Whatever is thrown inside a route is turned into an answer. *)
Lemma caught_answers (m : M World Response) (note : string) (resp : Response) w :
  answers m → knownCode resp →
  ∃ r, fst (tryCatch m (λ _, effect (Console note) ;; ret resp) w) = inr r
       ∧ knownCode r.
Proof.
  intros Hm Hresp. unfold tryCatch. specialize (Hm w).
  destruct (m w) as [[e|a] w1]; simpl in *; eauto.
Qed.

(** X2. The two routes never throw: whatever the surroundings do (socket,
    clone, docker, store), every request is answered, and the status of
    the answer is 200, 403, 404 or 500. *)
Theorem routes_always_answer :
  ∀ (env : Env) (userId id : string) (w : World),
    (∃ resp, fst (rebuildRoute env userId id w) = inr resp ∧ knownCode resp)
    ∧ (∃ resp, fst (deleteRoute env userId id w) = inr resp ∧ knownCode resp).
Proof.
  intros env userId id w. split.
  - apply caught_answers; [|unfold knownCode; simpl; tauto].
    repeat answers_step.
  - apply caught_answers; [|unfold knownCode; simpl; tauto].
    repeat answers_step.
Qed.

(** ** The build does not depend on the socket *)

Lemma firstFree_ext (env1 env2 : Env) db (n : nat) :
  (∀ q, osPortFree env1 q = osPortFree env2 q) →
  ∀ lo, firstFree env1 db n lo = firstFree env2 db n lo.
Proof.
  intros Hports. induction n as [|n IH]; intros lo; [done |].
  change (firstFree env1 db (Datatypes.S n) lo)
    with (if reservedIn db lo || negb (osPortFree env1 lo)
          then firstFree env1 db n (lo + 1) else Some lo).
  change (firstFree env2 db (Datatypes.S n) lo)
    with (if reservedIn db lo || negb (osPortFree env2 lo)
          then firstFree env2 db n (lo + 1) else Some lo).
  by rewrite Hports, IH.
Qed.

Lemma portPlan_ext (env1 env2 : Env) db held :
  (∀ q, osPortFree env1 q = osPortFree env2 q) →
  portPlan env1 db held = portPlan env2 db held.
Proof.
  intros Hports. unfold portPlan.
  rewrite !(firstFree_ext env1 env2 db _ Hports).
  destruct (truthyNumber held) as [q0|]; [|done]. by rewrite Hports.
Qed.

Lemma launchSummary_ext (env1 env2 : Env) project id repoPath prNumber name q p2 c2 :
  sameMachine env1 env2 →
  launchSummary env1 project id repoPath prNumber name q p2 c2
  = launchSummary env2 project id repoPath prNumber name q p2 c2.
Proof.
  intros (_ & Hshell & Hfile). unfold launchSummary, logsAfter.
  by rewrite Hfile, !Hshell.
Qed.

Lemma buildSummary_ext (env1 env2 : Env) project id repoPath prNumber c p0 :
  sameMachine env1 env2 →
  buildSummary env1 project id repoPath prNumber c p0
  = buildSummary env2 project id repoPath prNumber c p0.
Proof.
  intros Hsame. unfold buildSummary.
  rewrite (portPlan_ext env1 env2 _ _ (proj1 Hsame)).
  destruct (portPlan env2 _ _); [| |done]; by apply launchSummary_ext.
Qed.

(** X3. The result of [buildPreview] and everything it persists (rows,
    history of writes, log buffer, clock) are the same whether or not the
    socket throws, at whichever emission: they depend only on the store,
    on which ports can be bound and on what the docker commands do. *)
Theorem buildPreview_ignores_socket :
  ∀ (env1 env2 : Env) (project : Project.t) (id repoPath : string) (prNumber : Z)
    (w1 w2 : World),
    sameMachine env1 env2 →
    core w1 = core w2 →
    fst (buildPreview env1 project id repoPath prNumber w1)
    = fst (buildPreview env2 project id repoPath prNumber w2)
    ∧ core (snd (buildPreview env1 project id repoPath prNumber w1))
      = core (snd (buildPreview env2 project id repoPath prNumber w2)).
Proof.
  intros env1 env2 project id repoPath prNumber w1 w2 Hsame Hcore.
  destruct (cPreviews (core w2) !! id) as [p0|] eqn:Hp.
  - pose proof (buildPreview_summary env1 project id repoPath prNumber (core w2) p0 Hp
                  w1 Hcore) as H1.
    pose proof (buildPreview_summary env2 project id repoPath prNumber (core w2) p0 Hp
                  w2 eq_refl) as H2.
    cbv beta in H1, H2. rewrite (buildSummary_ext env1 env2) in H1 by done.
    rewrite <- H2 in H1. split; [exact (f_equal fst H1) | exact (f_equal snd H1)].
  - pose proof (buildPreview_missing env1 project id repoPath prNumber (core w2) Hp
                  w1 Hcore) as [H1 H1'].
    pose proof (buildPreview_missing env2 project id repoPath prNumber (core w2) Hp
                  w2 eq_refl) as [H2 H2'].
    split; congruence.
Qed.

Lemma buildPreview_ignores_socket_witness :
  fst (buildPreview socketDownEnv sampleProject "pv-a" "/tmp/repo" 7
         (worldOf [liveRow "pv-a" 7 5007]))
  = fst (buildPreview calmEnv sampleProject "pv-a" "/tmp/repo" 7
           (worldOf [liveRow "pv-a" 7 5007]))
  ∧ core (snd (buildPreview socketDownEnv sampleProject "pv-a" "/tmp/repo" 7
                 (worldOf [liveRow "pv-a" 7 5007])))
    = core (snd (buildPreview calmEnv sampleProject "pv-a" "/tmp/repo" 7
                   (worldOf [liveRow "pv-a" 7 5007]))).
Proof.
  apply buildPreview_ignores_socket; [|reflexivity].
  repeat split.
Defined.

(** ** Commands and clean-up *)

(** X4. [run] with the log listener of [buildPreview]: the promise resolves
    exactly when the command exits with status 0; any other exit status
    rejects with the status in the message, a spawn error rejects with
    that error; in every case the whole output has been appended to the
    log buffer, in arrival order, and the table is as it was. *)
Theorem run_settles_by_exit_code :
  ∀ (env : Env) (id command : string) (w : World),
    let after := run env command (push env id) w in
    (fst after = inr tt ↔ ending (shell env command) = Exited (Some 0))
    ∧ (∀ code, ending (shell env command) = Exited code → code ≠ Some 0 →
         fst after
         = inl (JsError ("Command failed with exit code " +:+ codeToString code)))
    ∧ (∀ err, ending (shell env command) = Crashed err → fst after = inl err)
    ∧ logs (snd after) = logs w +:+ joinChunks (output (shell env command))
    ∧ previews (snd after) = previews w.
Proof.
  intros env id command w after.
  destruct (post_run env id command (core w) w eq_refl) as [Hr Hc].
  fold after in Hr, Hc. unfold procOutcome in Hr.
  assert (logs (snd after) = cLogs (core (snd after))) as Hl by done.
  assert (previews (snd after) = cPreviews (core (snd after))) as Hp by done.
  rewrite Hc in Hl, Hp. simpl in Hl, Hp.
  split; [|split; [|split; [|split]]]; try done.
  - rewrite Hr. destruct (ending (shell env command)) as [[[| |]|]|]; split; done.
  - intros code E Hcode. rewrite Hr, E. by destruct code as [[| |]|].
  - intros err E. by rewrite Hr, E.
Qed.

Lemma run_settles_by_exit_code_witness :
  fst (run buildFailsEnv "docker build ." (push buildFailsEnv "pv-a") emptyWorld)
  = inl (JsError "Command failed with exit code 1").
Proof.
  apply (proj1 (proj2 (run_settles_by_exit_code buildFailsEnv "pv-a" "docker build ."
                         emptyWorld)) (Some 1)).
  - reflexivity.
  - discriminate.
Defined.

(** X5. The two clean-up helpers never throw, whatever [docker] answers,
    and leave the table, the clock and the log buffer alone. *)
Theorem cleanup_never_throws :
  ∀ (env : Env) (name : string) (w : World),
    (∃ removed, fst (removeContainer env name w) = inr removed)
    ∧ core (snd (removeContainer env name w)) = core w
    ∧ fst (removeContainerIfExists env name w) = inr tt
    ∧ core (snd (removeContainerIfExists env name w)) = core w.
Proof.
  intros env name w.
  destruct (post_removeContainer env name (core w) w eq_refl) as [H1 H2].
  destruct (post_removeContainerIfExists env name (core w) w eq_refl) as [H3 H4].
  done.
Qed.

(** ** What a build leaves behind *)

Lemma bind_inr {S A B} (m : M S A) (k : A → M S B) s a s' :
  m s = (inr a, s') → bind m k s = k a s'.
Proof. intros E. unfold bind. by rewrite E. Qed.

Lemma bind_inl {S A B} (m : M S A) (k : A → M S B) s e s' :
  m s = (inl e, s') → bind m k s = (inl e, s').
Proof. intros E. unfold bind. by rewrite E. Qed.

(** X6. [buildPreview] for an id that is not in the table rejects with the
    error of the first [update], before any container is looked for and
    before anything is emitted; only the clock has been read and the log
    buffer reset. The check for a missing row that follows in the source
    is never reached in that case. *)
Theorem buildPreview_on_missing_row :
  ∀ (env : Env) (project : Project.t) (id repoPath : string) (prNumber : Z) (w : World),
    previews w !! id = None →
    buildPreview env project id repoPath prNumber w
    = (inl recordNotFound, tick (setLogs EmptyString w)).
Proof.
  intros env project id repoPath prNumber w Hp. unfold buildPreview.
  rewrite (bind_inr _ _ w tt (setLogs EmptyString w)) by reflexivity.
  rewrite (bind_inr _ _ _ (clock w) (tick (setLogs EmptyString w))) by reflexivity.
  apply bind_inl. unfold prismaUpdate. cbn [previews tick setLogs]. by rewrite Hp.
Qed.

Lemma buildPreview_on_missing_row_witness :
  buildPreview calmEnv sampleProject "pv-a" "/tmp/repo" 7 emptyWorld
  = (inl recordNotFound, tick (setLogs EmptyString emptyWorld)).
Proof. apply buildPreview_on_missing_row. reflexivity. Defined.

Lemma procOutcome_inr (pr : Proc) u :
  procOutcome pr = inr u → ending pr = Exited (Some 0).
Proof. unfold procOutcome. by destruct (ending pr) as [[[| |]|]|]. Qed.

Lemma launchSummary_live (env : Env) project id repoPath prNumber name q p2 c2 url c' :
  launchSummary env project id repoPath prNumber name q p2 c2 = (inr url, c') →
  let image := baseName project prNumber in
  let buildCmd := dockerBuildCommand image (dockerfile env) repoPath in
  let runCmd := dockerRunCommand name q image in
  url = "http://localhost:" +:+ numToString q
  ∧ ending (shell env buildCmd) = Exited (Some 0)
  ∧ ending (shell env runCmd) = Exited (Some 0)
  ∧ cPreviews c' !! id
    = Some (finishedLive (cClock c2) (cLogs c2 +:+ buildTranscript env buildCmd runCmd)
              url (named name p2)).
Proof.
  intros E image buildCmd runCmd. unfold launchSummary in E.
  fold image in E. fold buildCmd in E. fold runCmd in E.
  destruct (procOutcome (shell env buildCmd)) as [e|[]] eqn:E1;
    [unfold failSummary in E; discriminate |].
  destruct (procOutcome (shell env runCmd)) as [e|[]] eqn:E2;
    [unfold failSummary in E; discriminate |].
  injection E as <- <-.
  split; [done |]. split; [by apply procOutcome_inr in E1 |].
  split; [by apply procOutcome_inr in E2 |].
  cbn [cPreviews coreWrite]. rewrite lookup_insert_eq. f_equal.
  unfold logsAfter, buildTranscript. cbn [cLogs coreLogs coreWrite cClock coreTick].
  by rewrite !append_assoc.
Qed.

(** X7. What a build that went through has persisted: the port of the row
    is the port of the returned url and the port the container was
    published on; [docker build] and [docker run] both exited with status
    0; and [buildLogs] holds exactly the announcement and the output of
    these two commands, nothing of an earlier attempt. *)
Theorem successful_build_record :
  ∀ (env : Env) (project : Project.t) (id repoPath : string) (prNumber : Z)
    (w w' : World) (p0 : Preview.t) (url : string),
    previews w !! id = Some p0 →
    buildPreview env project id repoPath prNumber w = (inr url, w') →
    ∃ (pf : Preview.t) (q : Z),
      let name := generateContainerName project prNumber (nextBuildNumberOf p0) in
      let image := baseName project prNumber in
      let buildCmd := dockerBuildCommand image (dockerfile env) repoPath in
      let runCmd := dockerRunCommand name q image in
      previews w' !! id = Some pf
      ∧ Preview.status pf = Status.live
      ∧ Preview.port pf = Some q
      ∧ Preview.url pf = Some url
      ∧ url = "http://localhost:" +:+ numToString q
      ∧ ending (shell env buildCmd) = Exited (Some 0)
      ∧ ending (shell env runCmd) = Exited (Some 0)
      ∧ Preview.buildLogs pf = Some (buildTranscript env buildCmd runCmd)
      ∧ Preview.buildStartedAt pf = Some (clock w)
      ∧ Preview.buildCompletedAt pf = Some (clock w + 1).
Proof.
  intros env project id repoPath prNumber w w' p0 url Hp E.
  apply (buildPreview_result _ _ _ _ _ _ _ _ _ Hp) in E.
  unfold buildSummary in E.
  change (nextBuildNumberOf (started (cClock (core w)) p0))
    with (nextBuildNumberOf p0) in E.
  change (Preview.port (started (cClock (core w)) p0)) with (Preview.port p0) in E.
  destruct (portPlan env _ (Preview.port p0)) as [q|q|] eqn:Hplan.
  - apply portPlan_Reuse in Hplan as [Hheld _].
    apply truthyNumber_Some in Hheld as [Hport _].
    apply launchSummary_live in E as (Hurl & Hb & Hr & Hrow).
    eexists _, q. cbv zeta. split; [exact Hrow |].
    repeat split; try done.
  - apply launchSummary_live in E as (Hurl & Hb & Hr & Hrow).
    eexists _, q. cbv zeta. split; [exact Hrow |].
    repeat split; try done.
  - unfold failSummary in E. discriminate.
Qed.

Lemma successful_build_record_witness :
  ∃ (pf : Preview.t) (q : Z),
    previews (snd (buildPreview calmEnv sampleProject "pv-a" "/tmp/repo" 7
                     (worldOf [liveRow "pv-a" 7 5007]))) !! "pv-a" = Some pf
    ∧ Preview.port pf = Some q
    ∧ Preview.buildLogs pf
      = Some (buildTranscript calmEnv
                (dockerBuildCommand (baseName sampleProject 7) (dockerfile calmEnv)
                   "/tmp/repo")
                (dockerRunCommand (generateContainerName sampleProject 7 2) q
                   (baseName sampleProject 7))).
Proof.
  destruct (successful_build_record calmEnv sampleProject "pv-a" "/tmp/repo" 7
              (worldOf [liveRow "pv-a" 7 5007])
              (snd (buildPreview calmEnv sampleProject "pv-a" "/tmp/repo" 7
                      (worldOf [liveRow "pv-a" 7 5007])))
              (liveRow "pv-a" 7 5007) "http://localhost:5007")
    as (pf & q & H); [vm_compute; reflexivity | vm_compute; reflexivity |].
  cbv zeta in H. destruct H as (H1 & _ & H3 & _ & _ & _ & _ & H8 & _).
  exists pf, q. split; [exact H1 |]. split; [exact H3 | exact H8].
Defined.

(** ** What a build and the other operations leave alone *)

Lemma buildSummary_frame (env : Env) project id repoPath prNumber c p0 k :
  k ≠ id →
  cPreviews (snd (buildSummary env project id repoPath prNumber c p0)) !! k
  = cPreviews c !! k
  ∧ cProjects (snd (buildSummary env project id repoPath prNumber c p0)) = cProjects c.
Proof.
  intros Hk. unfold buildSummary, launchSummary, failSummary. cbv zeta.
  destruct (portPlan env _ _) as [q|q|];
    repeat match goal with
           | |- context [procOutcome ?x] => destruct (procOutcome x) as [?|[]]
           end;
    cbn [snd cPreviews cProjects coreWrite coreTick coreLogs logsAfter];
    rewrite ?lookup_insert_ne by done; done.
Qed.

Lemma buildPreview_frame (env : Env) project id repoPath prNumber w k :
  k ≠ id →
  previews (snd (buildPreview env project id repoPath prNumber w)) !! k = previews w !! k
  ∧ projects (snd (buildPreview env project id repoPath prNumber w)) = projects w.
Proof.
  intros Hk. destruct (previews w !! id) as [p0|] eqn:Hp.
  - pose proof (buildPreview_summary env project id repoPath prNumber (core w) p0 Hp
                  w eq_refl) as H.
    cbv beta in H.
    destruct (buildSummary_frame env project id repoPath prNumber (core w) p0 k Hk)
      as [F1 F2].
    rewrite <- H in F1, F2. exact (conj F1 F2).
  - destruct (buildPreview_missing env project id repoPath prNumber (core w) Hp
                w eq_refl) as [_ H].
    change (previews (snd (buildPreview env project id repoPath prNumber w)))
      with (cPreviews (core (snd (buildPreview env project id repoPath prNumber w)))).
    change (projects (snd (buildPreview env project id repoPath prNumber w)))
      with (cProjects (core (snd (buildPreview env project id repoPath prNumber w)))).
    by rewrite H.
Qed.

Lemma keepsRow_refl k q c : keepsRow k q c c.
Proof. by split. Qed.

Lemma keepsRow_trans k q c1 c2 c3 :
  keepsRow k q c1 c2 → keepsRow k q c2 c3 → keepsRow k q c1 c3.
Proof. intros [H1 H2] [H3 H4]. split; [congruence | auto]. Qed.

Lemma keepsRow_tick k q c : keepsRow k q c (coreTick c).
Proof. by split. Qed.

Lemma keepsRow_prismaUpdate k q id (data : Preview.t → Preview.t) :
  id ≠ k → steps (keepsRow k q) (prismaUpdate id data).
Proof.
  intros Hne c. eapply post_weaken; [apply post_prismaUpdate |].
  intros r c'. destruct (cPreviews c !! id) as [p|]; intros [_ ->].
  - split; [done |]. intros Hq. simpl. by rewrite lookup_insert_ne.
  - apply keepsRow_refl.
Qed.

Lemma keepsRow_buildPreview k q (env : Env) project id repoPath prNumber :
  id ≠ k → steps (keepsRow k q) (buildPreview env project id repoPath prNumber).
Proof.
  intros Hne c w <-.
  destruct (buildPreview_frame env project id repoPath prNumber w k) as [H1 H2];
    [done |].
  split; [exact H2 |]. intros Hq. simpl. rewrite H1. exact Hq.
Qed.

Ltac keepsRow_step :=
  first
    [ apply keepsRow_buildPreview; assumption
    | apply keepsRow_prismaUpdate; assumption
    | apply (steps_quiet _ (keepsRow_refl _ _)) with (R := λ _ _, True); intros;
        eapply post_weaken;
        [ first [ apply post_rmSync | apply post_effect | apply post_emit
                | apply post_removeContainer | apply post_cloneRepoM
                | apply post_prismaFindUnique | apply post_notNull ]
        | simpl; intros ? ? [_ ->]; done ]
    | intros ?; eapply post_weaken; [apply post_newDate |];
        intros ? ? [_ ->]; apply keepsRow_tick
    | apply steps_ret; apply keepsRow_refl
    | apply steps_throw; apply keepsRow_refl
    | apply steps_tryCatch; [apply keepsRow_trans | |]
    | apply steps_bind; [apply keepsRow_trans | |]
    | match goal with
      | |- steps _ (match ?x with _ => _ end) => destruct x
      | |- steps _ (if ?b then _ else _) => destruct b
      | |- ∀ _, _ => intro
      end ].

Lemma wellKeyed_worldOf (rows : list Preview.t) : wellKeyed (previews (worldOf rows)).
Proof.
  unfold worldOf. cbn [previews].
  induction rows as [|row rows IH]; intros k p; cbn [fmap list_fmap list_to_map foldr].
  - by rewrite lookup_empty.
  - rewrite lookup_insert. case_decide as Hk.
    + intros [= <-]. exact Hk.
    + apply IH.
Qed.

(** X8. An operation changes no row but the one it is about: a build, a
    rebuild or a delete leaves every row under another id as it is, the
    two pull-request handlers leave the rows of every other pull request
    as they are; and no operation changes the table of projects. *)
Theorem operations_touch_one_preview :
  ∀ (env : Env) (op : Op) (w : World) (k : string) (q : Preview.t),
    wellKeyed (previews w) →
    previews w !! k = Some q →
    ¬ concerns op k q →
    previews (runOp env op w) !! k = Some q
    ∧ projects (runOp env op w) = projects w.
Proof.
  intros env op w k q Hkeys Hq Hcon.
  assert (∀ A (m : M World A),
            post m (core w) (λ _ c', keepsRow k q (core w) c') →
            previews (snd (m w)) !! k = Some q
            ∧ projects (snd (m w)) = projects w) as Hrun.
  { intros A m Hm. destruct (Hm w eq_refl) as [H1 H2]. split; [by apply H2 | exact H1]. }
  assert (∀ A (m : M World A) c1,
            keepsRow k q (core w) c1 → steps (keepsRow k q) m →
            post m c1 (λ _ c', keepsRow k q (core w) c')) as Hthen.
  { intros A m c1 H1 Hm. eapply post_weaken; [apply Hm |].
    intros r c' H2. by apply (keepsRow_trans k q _ c1). }
  assert (∀ (project : Project.t) (prNumber : Z) p,
            findFirst (λ p, String.eqb (Preview.projectId p) (Project.id project)
                            && Z.eqb (Preview.prNumber p) prNumber) (previews w) = Some p →
            ¬ (Preview.projectId q = Project.id project ∧ Preview.prNumber q = prNumber) →
            Preview.id p ≠ k) as Hfound.
  { intros project prNumber p E Hnot Hid.
    apply findFirst_Some in E as [Hf [k' Hk']].
    rewrite (Hkeys k' p Hk') in Hid. subst k'.
    assert (p = q) as -> by congruence.
    apply andb_prop in Hf as [Hf1 Hf2].
    apply String.eqb_eq in Hf1. apply Z.eqb_eq in Hf2. by apply Hnot. }
  destruct op as [project prNumber ref|project prNumber|project id repoPath prNumber
                 |userId id|userId id]; simpl in Hcon; unfold runOp; apply Hrun.
  - unfold handlePROpenOrSync, prismaUpsert.
    eapply post_bind with
      (R1 := λ r c', keepsRow k q (core w) c'
                     ∧ match r with
                       | inr preview => Preview.id preview ≠ k
                       | inl _ => True
                       end).
    + step post_prismaFindFirst. intros found c1 [[= ->] ->].
      destruct (findFirst _ (previews w)) as [p|] eqn:E.
      * assert (Preview.id p ≠ k) as Hne by (by apply (Hfound project prNumber)).
        eapply post_weaken; [apply post_prismaUpdate |].
        intros r c'.
        destruct (cPreviews (core w) !! Preview.id p) as [p'|] eqn:Hp'; intros [-> ->].
        -- split.
           ++ split; [done |]. intros _. simpl. by rewrite lookup_insert_ne.
           ++ simpl. by rewrite (Hkeys _ _ Hp').
        -- split; [apply keepsRow_refl | done].
      * eapply post_weaken; [apply post_prismaCreate |].
        cbn [Preview.id Preview.created].
        intros r c'.
        destruct (cPreviews (core w) !! newId env) as [p'|] eqn:Hn; intros [-> ->].
        -- split; [apply keepsRow_refl | done].
        -- assert (newId env ≠ k) as Hne.
           { intros Heq. rewrite Heq in Hn. simpl in Hn. congruence. }
           split; [|done].
           split; [done |]. intros _. simpl. by rewrite lookup_insert_ne.
    + intros preview c1 [Hc1 Hne]. apply Hthen; [done |].
      unfold rmSync. repeat keepsRow_step.
    + intros e c1 [Hc1 _]. exact Hc1.
  - unfold handlePRClosed.
    step post_prismaFindFirst. intros found c1 [[= ->] ->].
    destruct (findFirst _ (previews w)) as [p|] eqn:E;
      [|apply post_ret, keepsRow_refl].
    assert (Preview.id p ≠ k) as Hne by (by apply (Hfound project prNumber)).
    apply Hthen; [apply keepsRow_refl |]. repeat keepsRow_step.
  - apply Hthen; [apply keepsRow_refl |]. apply keepsRow_buildPreview. congruence.
  - unfold rebuildRoute.
    eapply post_tryCatch with (R1 := λ _ c', keepsRow k q (core w) c').
    + step post_findPreviewWithProject. intros found c1 [[= ->] ->].
      destruct (previews w !! id) as [p|] eqn:Hp;
        [|apply post_ret, keepsRow_refl].
      assert (Preview.id p ≠ k) as Hne by (rewrite (Hkeys id p Hp); congruence).
      cbv beta iota.
      apply Hthen; [apply keepsRow_refl |].
      unfold snapshotOf, rmSync. repeat keepsRow_step.
    + intros e c1 H1. apply Hthen; [done |]. repeat keepsRow_step.
    + intros a c1 H1. exact H1.
  - unfold deleteRoute.
    eapply post_tryCatch with (R1 := λ _ c', keepsRow k q (core w) c').
    + step post_findPreviewWithProject. intros found c1 [[= ->] ->].
      destruct (previews w !! id) as [p|] eqn:Hp;
        [|apply post_ret, keepsRow_refl].
      assert (Preview.id p ≠ k) as Hne by (rewrite (Hkeys id p Hp); congruence).
      cbv beta iota.
      apply Hthen; [apply keepsRow_refl |].
      unfold snapshotOf. repeat keepsRow_step.
    + intros e c1 H1. apply Hthen; [done |]. repeat keepsRow_step.
    + intros a c1 H1. exact H1.
Qed.

Lemma operations_touch_one_preview_witness :
  previews (runOp calmEnv (Rebuild "user-1" "pv-a")
              (worldOf [liveRow "pv-a" 7 5007; liveRow "pv-b" 8 5008])) !! "pv-b"
  = Some (liveRow "pv-b" 8 5008)
  ∧ projects (runOp calmEnv (Rebuild "user-1" "pv-a")
                (worldOf [liveRow "pv-a" 7 5007; liveRow "pv-b" 8 5008]))
    = projects (worldOf [liveRow "pv-a" 7 5007; liveRow "pv-b" 8 5008]).
Proof.
  apply operations_touch_one_preview.
  - apply wellKeyed_worldOf.
  - vm_compute. reflexivity.
  - simpl. discriminate.
Defined.

(** ** The port of a first build *)

Lemma firstFree_least (env : Env) db (n : nat) :
  ∀ lo q, firstFree env db n lo = Some q →
    ∀ q', lo ≤ q' < q → reservedIn db q' = true ∨ osPortFree env q' = false.
Proof.
  induction n as [|n IH]; intros lo q; [done |].
  change (firstFree env db (Datatypes.S n) lo)
    with (if reservedIn db lo || negb (osPortFree env lo)
          then firstFree env db n (lo + 1) else Some lo).
  destruct (reservedIn db lo) eqn:Hr; [|destruct (osPortFree env lo) eqn:Hf];
    cbn [orb negb].
  - intros H q' Hq'. destruct (decide (q' = lo)) as [->|]; [by left |].
    apply (IH _ _ H). lia.
  - intros [= <-] q' Hq'. lia.
  - intros H q' Hq'. destruct (decide (q' = lo)) as [->|]; [by right |].
    apply (IH _ _ H). lia.
Qed.

Lemma truthyNumber_None (v : option Z) (q : Z) :
  truthyNumber v = None → v = Some q → q = 0.
Proof.
  intros H ->. simpl in H. by destruct (Z.eqb_spec q 0).
Qed.

(** X9. The port of a build that went through on a row without a port: it
    lies in 5000-5999, it could be bound, no other row that is not deleted
    holds it, and every smaller port of the range was bound or held by a
    row that is not deleted. *)
Theorem first_port_is_free_and_unclaimed :
  ∀ (env : Env) (project : Project.t) (id repoPath : string) (prNumber : Z)
    (w w' : World) (p0 : Preview.t) (url : string),
    previews w !! id = Some p0 →
    truthyNumber (Preview.port p0) = None →
    buildPreview env project id repoPath prNumber w = (inr url, w') →
    ∃ (q : Z) (pf : Preview.t),
      previews w' !! id = Some pf
      ∧ Preview.port pf = Some q
      ∧ 5000 ≤ q ≤ 5999
      ∧ osPortFree env q = true
      ∧ (∀ k r, k ≠ id → previews w' !! k = Some r → Preview.port r = Some q →
                Preview.status r = Status.deleted)
      ∧ (∀ q', 5000 ≤ q' < q →
           osPortFree env q' = false
           ∨ ∃ k r, previews w !! k = Some r ∧ Preview.port r = Some q'
                    ∧ Preview.status r ≠ Status.deleted).
Proof.
  intros env project id repoPath prNumber w w' p0 url Hp Hheld E.
  assert (∀ k, k ≠ id → previews w' !! k = previews w !! k) as Hframe.
  { intros k Hk.
    destruct (buildPreview_frame env project id repoPath prNumber w k Hk) as [H _].
    by rewrite E in H. }
  apply (buildPreview_result _ _ _ _ _ _ _ _ _ Hp) in E.
  unfold buildSummary in E.
  change (nextBuildNumberOf (started (cClock (core w)) p0))
    with (nextBuildNumberOf p0) in E.
  change (Preview.port (started (cClock (core w)) p0)) with (Preview.port p0) in E.
  change (cPreviews (coreWrite id (started (cClock (core w)) p0)
                       (coreTick (coreLogs EmptyString (core w)))))
    with (<[id := started (clock w) p0]> (previews w)) in E.
  unfold portPlan in E. rewrite Hheld in E.
  destruct (firstFree env (<[id := started (clock w) p0]> (previews w)) 1000 5000)
    as [q|] eqn:Hff; [|unfold failSummary in E; discriminate].
  apply launchSummary_live in E as (_ & _ & _ & Hrow).
  pose proof (firstFree_least _ _ _ _ _ Hff) as Hleast.
  apply firstFree_Some in Hff as (Hrange & Hres & Hfree).
  exists q. eexists. split; [exact Hrow |].
  split; [reflexivity |]. split; [lia |]. split; [exact Hfree |]. split.
  - intros k r Hk Hr Hport.
    assert (Preview.status r ≠ Status.deleted → False) as Hst.
    { intros Hst.
      assert (reservedIn (<[id := started (clock w) p0]> (previews w)) q = true)
        as Hres'; [|congruence].
      apply (reservedIn_true _ q k r); [|done..].
      rewrite lookup_insert_ne by done. by rewrite <- Hframe. }
    destruct (Preview.status r); try done; exfalso; apply Hst; discriminate.
  - intros q' Hq'. destruct (Hleast q' Hq') as [Hr|Hf]; [|by left]. right.
    apply reservedIn_spec in Hr as (k & r & Hk & Hholds).
    apply holdsPort_spec in Hholds as [Hport Hst].
    destruct (decide (k = id)) as [->|Hne].
    + rewrite lookup_insert_eq in Hk. injection Hk as <-.
      apply (truthyNumber_None _ q' Hheld) in Hport. lia.
    + rewrite lookup_insert_ne in Hk by done. by exists k, r.
Qed.

Lemma first_port_is_free_and_unclaimed_witness :
  ∃ (q : Z) (pf : Preview.t),
    previews (snd (buildPreview calmEnv sampleProject "pv-c" "/tmp/repo" 9
                     (worldOf [newRow "pv-c" 9; liveRow "pv-a" 7 5000]))) !! "pv-c"
    = Some pf
    ∧ Preview.port pf = Some q
    ∧ 5000 ≤ q ≤ 5999.
Proof.
  destruct (first_port_is_free_and_unclaimed calmEnv sampleProject "pv-c" "/tmp/repo" 9
              (worldOf [newRow "pv-c" 9; liveRow "pv-a" 7 5000])
              (snd (buildPreview calmEnv sampleProject "pv-c" "/tmp/repo" 9
                      (worldOf [newRow "pv-c" 9; liveRow "pv-a" 7 5000])))
              (newRow "pv-c" 9) "http://localhost:5001")
    as (q & pf & H1 & H2 & H3 & _);
    [vm_compute; reflexivity | reflexivity | vm_compute; reflexivity |].
  exists q, pf. split; [exact H1 |]. split; [exact H2 | exact H3].
Defined.

(** ** Rows over a sequence of operations *)

Lemma grownFrom_refl p : grownFrom p p.
Proof. unfold grownFrom. repeat split; (done || lia). Qed.

Lemma grownFrom_trans p1 p2 p3 : grownFrom p1 p2 → grownFrom p2 p3 → grownFrom p1 p3.
Proof.
  intros (A1 & A2 & A3 & A4) (B1 & B2 & B3 & B4).
  unfold grownFrom. repeat split; (congruence || lia).
Qed.

Lemma evolves_refl c : evolves c c.
Proof.
  split; [done |]. split; [lia |]. split; [by exists [] |].
  intros k p Hp. exists p. split; [done | apply grownFrom_refl].
Qed.

Lemma evolves_trans c1 c2 c3 : evolves c1 c2 → evolves c2 c3 → evolves c1 c3.
Proof.
  intros (A1 & A2 & [r1 A3] & A4) (B1 & B2 & [r2 B3] & B4).
  split; [congruence |]. split; [lia |]. split.
  - exists (r2 ++ r1)%list. rewrite B3, A3. by rewrite app_assoc.
  - intros k p Hp. destruct (A4 k p Hp) as (p' & Hp' & G1).
    destruct (B4 k p' Hp') as (p'' & Hp'' & G2).
    exists p''. split; [done | by apply (grownFrom_trans _ p')].
Qed.

Lemma evolves_tick c : evolves c (coreTick c).
Proof.
  split; [done |]. split; [simpl; lia |]. split; [by exists [] |].
  intros k p Hp. exists p. split; [done | apply grownFrom_refl].
Qed.

Lemma evolves_logs text c : evolves c (coreLogs text c).
Proof.
  split; [done |]. split; [simpl; lia |]. split; [by exists [] |].
  intros k p Hp. exists p. split; [done | apply grownFrom_refl].
Qed.

Lemma evolves_prismaUpdate (id : string) (data : Preview.t → Preview.t) :
  (∀ p, grownFrom p (data p)) → steps evolves (prismaUpdate id data).
Proof.
  intros Hdata c. eapply post_weaken; [apply post_prismaUpdate |].
  intros r c'. destruct (cPreviews c !! id) as [p0|] eqn:Hp0; intros [_ ->];
    [|apply evolves_refl].
  split; [done |]. split; [simpl; lia |]. split; [by exists [data p0] |].
  intros k p Hp. simpl. rewrite lookup_insert. case_decide as Hk.
  - subst k. exists (data p0). split; [done |].
    assert (p = p0) as -> by congruence. apply Hdata.
  - exists p. split; [done | apply grownFrom_refl].
Qed.

Lemma evolves_prismaCreate (row : Preview.t) : steps evolves (prismaCreate row).
Proof.
  intros c. eapply post_weaken; [apply post_prismaCreate |].
  intros r c'. destruct (cPreviews c !! Preview.id row) as [p0|] eqn:Hp0; intros [_ ->];
    [apply evolves_refl |].
  split; [done |]. split; [simpl; lia |]. split; [by exists [row] |].
  intros k p Hp. simpl. rewrite lookup_insert. case_decide as Hk.
  - subst k. congruence.
  - exists p. split; [done | apply grownFrom_refl].
Qed.

Lemma evolves_newDate : steps evolves newDate.
Proof.
  intros c. eapply post_weaken; [apply post_newDate |].
  intros r c' [_ ->]. apply evolves_tick.
Qed.

Lemma evolves_setLogs text : steps evolves (modify (setLogs text)).
Proof.
  intros c. eapply post_weaken; [apply post_setLogs |].
  intros r c' [_ ->]. apply evolves_logs.
Qed.

Lemma evolves_push env id chunk : steps evolves (push env id chunk).
Proof.
  intros c. eapply post_weaken; [apply post_push |].
  intros r c' [_ ->]. apply evolves_logs.
Qed.

Lemma evolves_run env id command : steps evolves (run env command (push env id)).
Proof.
  intros c. eapply post_weaken; [apply post_run |].
  intros r c' [_ ->]. apply evolves_logs.
Qed.

Ltac evolves_step :=
  first
    [ apply evolves_run | apply evolves_push | apply evolves_setLogs
    | apply evolves_newDate
    | apply evolves_prismaUpdate; intros; unfold grownFrom; simpl;
        repeat split; (reflexivity || lia)
    | apply evolves_prismaCreate
    | apply (steps_quiet _ evolves_refl) with (R := λ _ _, True); intros;
        eapply post_weaken;
        [ first [ apply post_removeContainer | apply post_removeContainerIfExists
                | apply post_findPreviewWithProject | apply post_cloneRepoM
                | apply post_prismaFindFirst | apply post_prismaFindUnique
                | apply post_findAvailablePort | apply post_isPortFree
                | apply post_getLogs | apply post_notNull | apply post_emit
                | apply post_effect ]
        | simpl; intros ? ? [_ ->]; done ]
    | apply steps_ret; apply evolves_refl
    | apply steps_throw; apply evolves_refl
    | apply steps_tryCatch; [apply evolves_trans | |]
    | apply steps_bind; [apply evolves_trans | |]
    | match goal with
      | |- steps _ (match ?x with _ => _ end) => destruct x
      | |- steps _ (if ?b then _ else _) => destruct b
      | |- ∀ _, _ => intro
      end ].

Lemma evolves_buildPreview env project id repoPath prNumber :
  steps evolves (buildPreview env project id repoPath prNumber).
Proof. unfold buildPreview, assignPort. repeat evolves_step. Qed.

Lemma evolves_runOp (env : Env) (op : Op) (w : World) :
  evolves (core w) (core (runOp env op w)).
Proof.
  assert (∀ A (m : M World A), steps evolves m →
            evolves (core w) (core (snd (m w)))) as Hrun.
  { intros A m Hm. by apply (Hm (core w) w). }
  destruct op; simpl; apply Hrun.
  - unfold handlePROpenOrSync, prismaUpsert, rmSync.
    repeat first [apply evolves_buildPreview | evolves_step].
  - unfold handlePRClosed. repeat evolves_step.
  - apply evolves_buildPreview.
  - unfold rebuildRoute, snapshotOf, rmSync.
    repeat first [apply evolves_buildPreview | evolves_step].
  - unfold deleteRoute, snapshotOf. repeat evolves_step.
Qed.

(** X10. Over any sequence of operations, in any surroundings: no row is
    ever removed from the table; a row keeps its id, its project and its
    pull request number; its build counter never goes down; the clock
    never goes back; the record of writes only grows; and the table of
    projects is never changed. *)
Theorem rows_persist_and_counters_grow :
  ∀ (ops : list (Env * Op)) (w : World),
    projects (runOps ops w) = projects w
    ∧ clock w ≤ clock (runOps ops w)
    ∧ (∃ rows, history (runOps ops w) = (rows ++ history w)%list)
    ∧ ∀ k p, previews w !! k = Some p →
        ∃ p', previews (runOps ops w) !! k = Some p'
              ∧ Preview.id p' = Preview.id p
              ∧ Preview.projectId p' = Preview.projectId p
              ∧ Preview.prNumber p' = Preview.prNumber p
              ∧ Preview.buildNumber p ≤ Preview.buildNumber p'.
Proof.
  intros ops w. change (evolves (core w) (core (runOps ops w))).
  revert w. induction ops as [|[env op] ops IH]; intros w; simpl.
  - apply evolves_refl.
  - eapply evolves_trans; [apply evolves_runOp | apply IH].
Qed.

Lemma rows_persist_and_counters_grow_witness :
  ∃ p', previews (runOps openCloseRebuild
                    (worldOf [liveRow "pv-a" 7 5007])) !! "pv-a" = Some p'
        ∧ Preview.prNumber p' = 7
        ∧ 2 ≤ Preview.buildNumber p'.
Proof.
  destruct (proj2 (proj2 (proj2 (rows_persist_and_counters_grow openCloseRebuild
                                   (worldOf [liveRow "pv-a" 7 5007]))))
              "pv-a" (liveRow "pv-a" 7 5007))
    as (p' & H1 & _ & _ & H4 & H5); [vm_compute; reflexivity |].
  exists p'. split; [exact H1 |]. split; [exact H4 | exact H5].
Defined.

(** ** What the answers of the routes say about the row *)

Lemma post_rmSync_guarded (path : string) c :
  post (tryCatch (rmSync path) (λ _, ret tt)) c (λ r c', r = inr tt ∧ c' = c).
Proof.
  eapply post_tryCatch; [apply post_rmSync | |].
  - intros e c1 [? _]. discriminate.
  - intros [] c1 H. exact H.
Qed.

Lemma post_snapshotOf (id : string) c :
  post (snapshotOf id) c (λ _ c', c' = c).
Proof.
  unfold snapshotOf. step post_prismaFindUnique. intros found c1 [_ ->].
  eapply post_weaken; [apply post_notNull |]. by intros r c' [_ ->].
Qed.

Lemma post_removeIfNamed (env : Env) (name : option string) c :
  post (match truthyText name with
        | Some name => removeContainer env name ;; ret tt
        | None => ret tt
        end) c (λ r c', r = inr tt ∧ c' = c).
Proof.
  destruct (truthyText name); [|by apply post_ret].
  eapply post_bind; [apply post_removeContainer | |].
  - intros b c1 [_ ->]. by apply post_ret.
  - intros e c1 [[b Hb] _]. discriminate.
Qed.

(** The rebuild route from the point where the row has been marked
    building: whatever it answers is true of the row. *)
Lemma rebuildTail_answer (env : Env) (proj : Project.t) (p : Preview.t) c :
  post (rebuildTail env proj p) c
       (λ r c', match r with
                | inr resp => rebuildAnswerOk (Preview.id p) resp (cPreviews c')
                | inl _ => True
                end).
Proof.
  unfold rebuildTail.
  eapply post_bind; [apply post_emit | | done].
  intros [] c1 [_ ->].
  eapply post_bind; [apply post_cloneRepoM | | done].
  intros path c1 [_ ->].
  eapply post_tryCatch with
    (R1 := λ r c', match r with
                   | inr resp => rebuildAnswerOk (Preview.id p) resp (cPreviews c')
                   | inl _ => True
                   end).
  - destruct (cPreviews c !! Preview.id p) as [p0|] eqn:Hp0.
    + eapply post_bind; [apply (buildPreview_summary _ _ _ _ _ _ _ Hp0) | | done].
      intros url c2 E. cbv beta in E. symmetry in E.
      apply buildSummary_result in E as (pf & Hpf & _ & _ & _ & _ & Hst & Hurl & _).
      step post_rmSync_guarded. intros [] c3 [_ ->].
      eapply post_bind; [apply post_snapshotOf | | done].
      intros updated c3 ->.
      eapply post_bind; [apply post_emit | | done].
      intros [] c3 [_ ->]. apply post_ret.
      split; [done |]. by exists pf.
    + eapply post_bind; [apply (buildPreview_missing _ _ _ _ _ _ Hp0) | | done].
      intros url c2 [? _]. discriminate.
  - intros e c2 _.
    step post_newDate. intros t c3 [[= ->] ->].
    eapply post_bind; [apply post_prismaUpdate | | done].
    intros row c3 H.
    destruct (cPreviews (coreTick c2) !! Preview.id p) as [p'|];
      [|destruct H; discriminate].
    destruct H as [_ ->].
    eapply post_bind; [apply post_snapshotOf | | done].
    intros updated c3 ->.
    eapply post_bind; [apply post_emit | | done].
    intros [] c3 [_ ->].
    step post_rmSync_guarded. intros [] c3 [_ ->]. apply post_ret.
    split; [done |]. eexists. split; [apply lookup_insert_eq |]. done.
  - intros resp c2 H. exact H.
Qed.

(** X11. Whatever the rebuild route answers is true of the row: on 200
    with a url the row is live with that url; on 500 "Build failed" the
    row is in error, without url and without container name; every other
    answer is an error answer with a status other than 200. *)
Theorem rebuild_answer_matches_row :
  ∀ (env : Env) (userId id : string) (w : World) (resp : Response),
    wellKeyed (previews w) →
    fst (rebuildRoute env userId id w) = inr resp →
    rebuildAnswerOk id resp (previews (snd (rebuildRoute env userId id w))).
Proof.
  intros env userId id w resp Hkeys Hresp.
  assert (post (rebuildRoute env userId id) (core w)
            (λ r c', match r with
                     | inr resp => rebuildAnswerOk id resp (cPreviews c')
                     | inl _ => True
                     end)) as Hpost.
  { unfold rebuildRoute.
    eapply post_tryCatch with
      (R1 := λ r c', match r with
                     | inr resp => rebuildAnswerOk id resp (cPreviews c')
                     | inl _ => True
                     end).
    - step post_findPreviewWithProject. intros found c1 [[= ->] ->].
      destruct (previews w !! id) as [p|] eqn:Hp; [|by apply post_ret].
      cbv beta iota.
      assert (Preview.id p = id) as Hid by exact (Hkeys id p Hp).
      eapply post_bind; [apply post_notNull | | done].
      intros project c1 [_ ->].
      destruct (negb _); [by apply post_ret |].
      step post_removeIfNamed. intros [] c1 [_ ->].
      step post_newDate. intros t c1 [[= ->] ->].
      eapply post_bind; [apply post_prismaUpdate | | done].
      intros row c1 _. rewrite <- Hid. apply rebuildTail_answer.
    - intros e c1 _.
      step post_effect. intros [] c2 [_ ->]. by apply post_ret.
    - intros a c1 H. exact H. }
  specialize (Hpost w eq_refl). cbv beta in Hpost. rewrite Hresp in Hpost. exact Hpost.
Qed.

Lemma rebuild_answer_matches_row_witness :
  rebuildAnswerOk "pv-a" (mkResponse 500 (FailedBody "Build failed"))
    (previews (snd (rebuildRoute buildFailsEnv "user-1" "pv-a"
                      (worldOf [liveRow "pv-a" 7 5007])))).
Proof.
  apply rebuild_answer_matches_row.
  - apply wellKeyed_worldOf.
  - vm_compute. reflexivity.
Defined.

(** X12. Whatever the delete route answers is true of the row: on 200 the
    row is the row as it was, marked deleted, without url and without
    container name, completed at the time of the request; its port, its
    build counter and its logs are as before. Every other answer is an
    error answer with a status other than 200. *)
Theorem delete_answer_matches_row :
  ∀ (env : Env) (userId id : string) (w : World) (resp : Response),
    wellKeyed (previews w) →
    fst (deleteRoute env userId id w) = inr resp →
    deleteAnswerOk id resp (previews w) (clock w)
      (previews (snd (deleteRoute env userId id w))).
Proof.
  intros env userId id w resp Hkeys Hresp.
  assert (post (deleteRoute env userId id) (core w)
            (λ r c', match r with
                     | inr resp =>
                         deleteAnswerOk id resp (previews w) (clock w) (cPreviews c')
                     | inl _ => True
                     end)) as Hpost.
  { unfold deleteRoute.
    eapply post_tryCatch with
      (R1 := λ r c', match r with
                     | inr resp =>
                         deleteAnswerOk id resp (previews w) (clock w) (cPreviews c')
                     | inl _ => True
                     end).
    - step post_findPreviewWithProject. intros found c1 [[= ->] ->].
      destruct (previews w !! id) as [p|] eqn:Hp; [|by apply post_ret].
      cbv beta iota.
      assert (Preview.id p = id) as Hid by exact (Hkeys id p Hp).
      eapply post_bind; [apply post_notNull | | done].
      intros project c1 [_ ->].
      destruct (negb _); [by apply post_ret |].
      step post_removeIfNamed. intros [] c1 [_ ->].
      step post_newDate. intros t c1 [[= ->] ->].
      eapply post_bind; [apply post_prismaUpdate | | done].
      intros row c1 H. rewrite Hid in H. cbn [cPreviews coreTick core] in H.
      rewrite Hp in H. destruct H as [_ ->].
      eapply post_bind; [apply post_snapshotOf | | done].
      intros updated c3 ->.
      eapply post_bind; [apply post_emit | | done].
      intros [] c3 [_ ->]. apply post_ret.
      split; [done |]. exists p. split; [done |].
      apply lookup_insert_eq.
    - intros e c1 _.
      step post_effect. intros [] c2 [_ ->]. by apply post_ret.
    - intros a c1 H. exact H. }
  specialize (Hpost w eq_refl). cbv beta in Hpost. rewrite Hresp in Hpost. exact Hpost.
Qed.

Lemma delete_answer_matches_row_witness :
  deleteAnswerOk "pv-a" (mkResponse 200 OkBody)
    (previews (worldOf [liveRow "pv-a" 7 5007])) 100
    (previews (snd (deleteRoute calmEnv "user-1" "pv-a"
                      (worldOf [liveRow "pv-a" 7 5007])))).
Proof.
  apply (delete_answer_matches_row calmEnv "user-1" "pv-a"
           (worldOf [liveRow "pv-a" 7 5007])).
  - apply wellKeyed_worldOf.
  - vm_compute. reflexivity.
Defined.

(** ** Closing a pull request *)

Lemma findFirst_no_match (f : Preview.t → bool) (db : gmap string Preview.t) :
  (∀ k p, db !! k = Some p → f p = false) → findFirst f db = None.
Proof.
  intros H. destruct (findFirst f db) as [p|] eqn:E; [|done].
  apply findFirst_Some in E as [Hf [k Hk]]. rewrite (H k p Hk) in Hf. discriminate.
Qed.

Lemma findFirst_only (db : gmap string Preview.t) id p :
  onlyRowOf db id p →
  findFirst (λ r, String.eqb (Preview.projectId r) (Preview.projectId p)
                  && Z.eqb (Preview.prNumber r) (Preview.prNumber p)) db = Some p.
Proof.
  intros (Hp & Hid & Honly).
  destruct (findFirst _ db) as [p'|] eqn:E.
  - apply findFirst_Some in E as [Hf [k Hk]].
    apply andb_prop in Hf as [Hf1 Hf2].
    apply String.eqb_eq in Hf1. apply Z.eqb_eq in Hf2.
    assert (k = id) as -> by (by apply (Honly k p')).
    congruence.
  - apply findFirst_None with (k := id) (p := p) in E; [|done].
    rewrite String.eqb_refl, Z.eqb_refl in E. discriminate.
Qed.

(** X13. Closing a pull request. When the table has no row for it,
    nothing at all happens. When it has one, that row ends as it was but
    marked deleted and without url, whether or not the container could be
    removed and whether or not the socket throws; port, container name,
    build counter and logs stay on the row. *)
Theorem pr_close_marks_deleted :
  ∀ (env : Env) (project : Project.t) (prNumber : Z) (w : World),
    (noRowOf (previews w) project prNumber →
     handlePRClosed env project prNumber w = (inr tt, w))
    ∧ (∀ id p,
        onlyRowOf (previews w) id p →
        Preview.projectId p = Project.id project →
        Preview.prNumber p = prNumber →
        previews (snd (handlePRClosed env project prNumber w)) !! id
        = Some (closedRow p)).
Proof.
  intros env project prNumber w. split.
  - intros Hnone. unfold handlePRClosed.
    rewrite (bind_inr _ _ w None w); [done |].
    unfold prismaFindFirst, gets. f_equal. f_equal.
    apply findFirst_no_match. intros k p Hk.
    destruct (String.eqb_spec (Preview.projectId p) (Project.id project)) as [E1|];
      [|done].
    destruct (Z.eqb_spec (Preview.prNumber p) prNumber) as [E2|]; [|done].
    by destruct (Hnone k p Hk).
  - intros id p Honly Hproj Hpr.
    assert (post (handlePRClosed env project prNumber) (core w)
              (λ _ c', cPreviews c' !! id = Some (closedRow p))) as Hpost;
      [|exact (Hpost w eq_refl)].
    pose proof (findFirst_only _ _ _ Honly) as Hfind.
    rewrite Hproj, Hpr in Hfind.
    destruct Honly as (Hp & Hid & _).
    unfold handlePRClosed.
    step post_prismaFindFirst. intros found c1 [[= ->] ->].
    rewrite Hfind.
    step post_removeIfNamed. intros [] c1 [_ ->].
    rewrite Hid.
    eapply post_bind; [apply post_prismaUpdate | |];
      cbn [cPreviews core]; rewrite Hp.
    + intros row c1 [_ ->].
      eapply post_weaken; [apply post_emit |].
      intros r c' [_ ->]. apply lookup_insert_eq.
    + intros e c1 [? _]. discriminate.
Qed.

Lemma pr_close_marks_deleted_witness :
  handlePRClosed calmEnv sampleProject 8 (worldOf [liveRow "pv-a" 7 5007])
  = (inr tt, worldOf [liveRow "pv-a" 7 5007]).
Proof.
  apply (proj1 (pr_close_marks_deleted calmEnv sampleProject 8
                  (worldOf [liveRow "pv-a" 7 5007]))).
  intros k p Hk [_ Hpr].
  unfold worldOf in Hk. cbn [previews fmap list_fmap list_to_map foldr] in Hk.
  rewrite lookup_insert in Hk. case_decide as Hkey.
  - injection Hk as <-. discriminate Hpr.
  - by rewrite lookup_empty in Hk.
Defined.

(** ** Container names *)

Lemma allChars_sanitized (s : string) : allChars nameChar (replaceDisallowed s) = true.
Proof.
  unfold replaceDisallowed. induction s as [|c s IH]; [done |].
  cbn [mapString allChars]. rewrite IH, andb_true_r.
  unfold sanitizeChar. fold (nameChar c).
  destruct (nameChar c) eqn:E; [exact E | reflexivity].
Qed.

Lemma prefix_app (a b : string) : String.prefix a (a +:+ b) = true.
Proof.
  induction a as [|c a IH]; [by destruct b |].
  rewrite append_cons. cbn [String.prefix].
  destruct (ascii_dec c c); [exact IH | done].
Qed.

(** X14. A container name is made of lower-case letters, digits and
    hyphens only, whatever the id of the project and whatever the two
    numbers are, and it starts with "preview-p". *)
Theorem generateContainerName_charset :
  ∀ (project : Project.t) (prNumber buildNumber : Z),
    allChars nameChar (generateContainerName project prNumber buildNumber) = true
    ∧ String.prefix "preview-p" (generateContainerName project prNumber buildNumber)
      = true.
Proof.
  intros project prNumber buildNumber. split.
  - unfold generateContainerName. cbv zeta. apply allChars_sanitized.
  - unfold generateContainerName, replaceDisallowed, toLowerCase. cbv zeta.
    rewrite !mapString_app.
    change (mapString sanitizeChar (mapString lowerChar "preview-p")) with "preview-p".
    apply prefix_app.
Qed.

Lemma uint_lacks_b (d : Decimal.uint) : lacks "b" (NilEmpty.string_of_uint d).
Proof. induction d; simpl; (done || (split; [discriminate | assumption])). Qed.

Lemma numToString_lacks_b (n : Z) : lacks "b" (numToString n).
Proof.
  unfold numToString. destruct (Z.to_int n) as [d|d]; simpl.
  - apply uint_lacks_b.
  - split; [discriminate | apply uint_lacks_b].
Qed.

Lemma split_at_b (s1 : string) :
  ∀ s2 t1 t2, lacks "b" s1 → lacks "b" s2 →
    s1 +:+ "-b" +:+ t1 = s2 +:+ "-b" +:+ t2 → s1 = s2 ∧ t1 = t2.
Proof.
  induction s1 as [|c s1 IH]; intros s2 t1 t2 H1 H2 E.
  - destruct s2 as [|c2 s2].
    + rewrite !append_nil, !append_cons, !append_nil in E.
      injection E as E. by split.
    + rewrite ?append_nil, ?append_cons, ?append_nil in E.
      injection E as Ec E. destruct H2 as [_ H2].
      destruct s2 as [|c3 s2].
      * rewrite ?append_nil, ?append_cons, ?append_nil in E. discriminate E.
      * rewrite ?append_cons in E. injection E as Ec3 E.
        destruct H2 as [H2 _]. by subst c3.
  - destruct s2 as [|c2 s2].
    + rewrite ?append_nil, ?append_cons, ?append_nil in E.
      injection E as Ec E. destruct H1 as [_ H1].
      destruct s1 as [|c3 s1].
      * rewrite ?append_nil, ?append_cons, ?append_nil in E. discriminate E.
      * rewrite ?append_cons in E. injection E as Ec3 E.
        destruct H1 as [H1 _]. by subst c3.
    + rewrite (append_cons c), (append_cons c2) in E. injection E as -> E.
      destruct H1 as [_ H1]. destruct H2 as [_ H2].
      destruct (IH s2 t1 t2 H1 H2 E) as [-> ->]. by split.
Qed.

(** The name is the part that comes from the project, the pull request
    number, "-b", and the build number. *)
Lemma generateContainerName_parts (project : Project.t) (prNumber buildNumber : Z) :
  generateContainerName project prNumber buildNumber
  = namePrefix project +:+ numToString prNumber +:+ "-b" +:+ numToString buildNumber.
Proof.
  unfold generateContainerName, namePrefix. cbv zeta.
  rewrite <- (sanitized_number buildNumber) at 2.
  rewrite <- (sanitized_number prNumber) at 2.
  unfold replaceDisallowed, toLowerCase.
  change "-b" with (mapString sanitizeChar (mapString lowerChar "-b")) at 2.
  rewrite <- !mapString_app. do 2 f_equal.
  by rewrite !append_assoc.
Qed.

(** X15. What a container name tells apart and what it does not. For one
    project, two names are equal only when both the pull request number
    and the build number are equal. Of the project, the name carries the
    first eight characters of the id and nothing else: two projects whose
    ids start with the same eight characters get the same names. *)
Theorem generateContainerName_distinguishes :
  (∀ (project : Project.t) (pr1 pr2 b1 b2 : Z),
      generateContainerName project pr1 b1 = generateContainerName project pr2 b2 →
      pr1 = pr2 ∧ b1 = b2)
  ∧ (∀ (project1 project2 : Project.t) (prNumber buildNumber : Z),
        slice8 (Project.id project1) = slice8 (Project.id project2) →
        generateContainerName project1 prNumber buildNumber
        = generateContainerName project2 prNumber buildNumber).
Proof.
  split.
  - intros project pr1 pr2 b1 b2 E.
    rewrite !generateContainerName_parts in E.
    apply String.app_inj in E.
    apply split_at_b in E as [E1 E2]; try apply numToString_lacks_b.
    split; by apply numToString_inj.
  - intros project1 project2 prNumber buildNumber E.
    unfold generateContainerName. cbv zeta. by rewrite E.
Qed.

Lemma generateContainerName_distinguishes_witness :
  generateContainerName sampleProject 7 2 = generateContainerName siblingProject 7 2.
Proof.
  apply (proj2 generateContainerName_distinguishes). reflexivity.
Defined.

(** ** A first synchronisation *)

Lemma procOutcome_ok (pr : Proc) : ending pr = Exited (Some 0) → procOutcome pr = inr tt.
Proof. intros E. unfold procOutcome. by rewrite E. Qed.

Lemma Available_insert_portless (env : Env) db k r lo hi :
  Preview.port r = None →
  Available env db lo hi → Available env (<[k := r]> db) lo hi.
Proof.
  intros Hport (q & Hq & Hres & Hfree). exists q. split; [done |]. split; [|done].
  destruct (reservedIn (<[k := r]> db) q) eqn:E; [|done].
  apply reservedIn_spec in E as (k' & r' & Hk' & Hholds).
  rewrite lookup_insert in Hk'. case_decide as Hkey.
  - injection Hk' as <-. apply holdsPort_spec in Hholds as [Hp _]. congruence.
  - assert (reservedIn db q = true) by (apply reservedIn_spec; by exists k', r').
    congruence.
Qed.

(** A build on a row without a port, with a port left in 5000-5999 and
    every command exiting with status 0, goes through. *)
Lemma buildSummary_first (env : Env) project id repoPath prNumber c p0 :
  Preview.port p0 = None →
  (∀ command, ending (shell env command) = Exited (Some 0)) →
  Available env (<[id := started (cClock c) p0]> (cPreviews c)) 5000 5999 →
  ∃ q t text c',
    5000 ≤ q ≤ 5999
    ∧ buildSummary env project id repoPath prNumber c p0
      = (inr ("http://localhost:" +:+ numToString q), c')
    ∧ cPreviews c' !! id
      = Some (finishedLive t text ("http://localhost:" +:+ numToString q)
                (named (generateContainerName project prNumber (nextBuildNumberOf p0))
                   (Preview.setPort (Some q) (started (cClock c) p0)))).
Proof.
  intros Hport Hshell Hav. unfold buildSummary.
  change (nextBuildNumberOf (started (cClock c) p0)) with (nextBuildNumberOf p0).
  change (Preview.port (started (cClock c) p0)) with (Preview.port p0).
  change (cPreviews (coreWrite id (started (cClock c) p0)
                       (coreTick (coreLogs EmptyString c))))
    with (<[id := started (cClock c) p0]> (cPreviews c)).
  unfold portPlan. rewrite Hport. cbn [truthyNumber].
  apply firstFree_available in Hav.
  change (Z.to_nat (5999 - 5000 + 1)) with 1000%nat in Hav.
  destruct (firstFree env (<[id := started (cClock c) p0]> (cPreviews c)) 1000 5000)
    as [q|] eqn:Hff; [|done].
  apply firstFree_Some in Hff as (Hrange & _ & _).
  unfold launchSummary. cbv zeta.
  rewrite !(procOutcome_ok _ (Hshell _)).
  exists q. eexists _, _, _. split; [lia |]. split; [reflexivity |].
  cbn [cPreviews coreWrite]. apply lookup_insert_eq.
Qed.

(** X16. A first synchronisation of a pull request, when everything
    outside goes well (the socket works, the clone succeeds, every command
    exits with status 0, a port of 5000-5999 is left): the handler
    returns, and the row it created is live, on a port of 5000-5999, with
    the url of that port, with build counter 2 and with the container name
    of build number 1. *)
Theorem first_sync_goes_live :
  ∀ (env : Env) (project : Project.t) (prNumber : Z) (ref : option string)
    (w : World) (path : string),
    noRowOf (previews w) project prNumber →
    previews w !! newId env = None →
    (∀ n, ioFails env n = false) →
    cloneRepo env (Project.repoOwner project) (Project.repoName project) ref = inr path →
    (∀ command, ending (shell env command) = Exited (Some 0)) →
    Available env (previews w) 5000 5999 →
    fst (handlePROpenOrSync env project prNumber ref w) = inr tt
    ∧ ∃ (pf : Preview.t) (q : Z),
        previews (snd (handlePROpenOrSync env project prNumber ref w)) !! newId env
        = Some pf
        ∧ Preview.projectId pf = Project.id project
        ∧ Preview.prNumber pf = prNumber
        ∧ Preview.status pf = Status.live
        ∧ Preview.port pf = Some q
        ∧ 5000 ≤ q ≤ 5999
        ∧ Preview.url pf = Some ("http://localhost:" +:+ numToString q)
        ∧ Preview.buildNumber pf = 2
        ∧ Preview.containerName pf = Some (generateContainerName project prNumber 1).
Proof.
  intros env project prNumber ref w path Hnone Hnew Hup Hclone Hshell Hav.
  set (row := Preview.created (newId env) (Project.id project) prNumber Status.building).
  set (Live := λ (r : Exn + unit) (c' : Core),
         r = inr tt
         ∧ ∃ (pf : Preview.t) (q : Z),
             cPreviews c' !! newId env = Some pf
             ∧ Preview.projectId pf = Project.id project
             ∧ Preview.prNumber pf = prNumber
             ∧ Preview.status pf = Status.live
             ∧ Preview.port pf = Some q
             ∧ 5000 ≤ q ≤ 5999
             ∧ Preview.url pf = Some ("http://localhost:" +:+ numToString q)
             ∧ Preview.buildNumber pf = 2
             ∧ Preview.containerName pf
               = Some (generateContainerName project prNumber 1)).
  assert (post (handlePROpenOrSync env project prNumber ref) (core w) Live) as Hpost;
    [|exact (Hpost w eq_refl)].
  unfold handlePROpenOrSync, prismaUpsert. fold row.
  eapply post_bind with
    (R1 := λ r c', r = inr row ∧ c' = coreWrite (newId env) row (core w)).
  - step post_prismaFindFirst. intros found c1 [[= ->] ->].
    rewrite findFirst_no_match.
    + eapply post_weaken; [apply post_prismaCreate |].
      intros r c'. change (Preview.id row) with (newId env).
      cbn [cPreviews core]. by rewrite Hnew.
    + intros k p Hk.
      destruct (String.eqb_spec (Preview.projectId p) (Project.id project)) as [E1|];
        [|done].
      destruct (Z.eqb_spec (Preview.prNumber p) prNumber) as [E2|]; [|done].
      by destruct (Hnone k p Hk).
  - intros preview c1 [[= ->] ->].
    step (post_emit_up env None "preview-status-update"
            (StatusUpdate None (Project.id project) prNumber Status.building None)
            _ Hup).
    intros [] c2 [_ ->].
    eapply post_bind; [apply post_cloneRepoM | |]; rewrite Hclone;
      [|intros e c2 [? _]; discriminate].
    intros path' c2 [[= ->] ->].
    change (Preview.id row) with (newId env).
    destruct (buildSummary_first env project (newId env) path prNumber
                (coreWrite (newId env) row (core w)) row eq_refl Hshell)
      as (q & t & text & c3 & Hq & Hsum & Hrow).
    { cbn [cPreviews coreWrite].
      apply Available_insert_portless; [reflexivity |].
      apply Available_insert_portless; [reflexivity | exact Hav]. }
    eapply post_tryCatch with (R1 := Live).
    + eapply post_bind;
        [apply (buildPreview_summary env project (newId env) path prNumber _ row);
         apply lookup_insert_eq | |].
      * intros url c4 E. cbv beta in E. rewrite Hsum in E. injection E as -> ->.
        step post_rmSync. intros [] c4 [_ ->].
        eapply post_weaken;
          [apply (post_emit_up env None "preview-status-update" _ _ Hup) |].
        intros r c' [-> ->]. split; [done |].
        eexists _, q. split; [exact Hrow |]. repeat split; (done || lia).
      * intros e c4 E. cbv beta in E. rewrite Hsum in E. discriminate.
    + intros e c4 [? _]. discriminate.
    + intros a c4 H. exact H.
  - intros e c1 [? _]. discriminate.
Qed.

Lemma first_sync_goes_live_witness :
  fst (handlePROpenOrSync calmEnv sampleProject 42 (Some "refs/pull/42/head") emptyWorld)
  = inr tt.
Proof.
  apply (first_sync_goes_live calmEnv sampleProject 42 (Some "refs/pull/42/head")
           emptyWorld "/tmp/repo").
  - intros k p Hk. unfold emptyWorld in Hk. cbn [previews] in Hk.
    by rewrite lookup_empty in Hk.
  - reflexivity.
  - reflexivity.
  - reflexivity.
  - reflexivity.
  - exists 5000. split; [lia |]. split; vm_compute; reflexivity.
Defined.

(** ** Rows stay under their ids *)

Lemma keepsKeys_refl c : keepsKeys c c.
Proof. by intros H. Qed.

Lemma keepsKeys_trans c1 c2 c3 : keepsKeys c1 c2 → keepsKeys c2 c3 → keepsKeys c1 c3.
Proof. intros H1 H2 H. by apply H2, H1. Qed.

Lemma keepsKeys_still c c' : cPreviews c' = cPreviews c → keepsKeys c c'.
Proof. intros E H. by rewrite E. Qed.

Lemma keys_prismaUpdate (id : string) (data : Preview.t → Preview.t) :
  (∀ p, Preview.id (data p) = Preview.id p) → steps keepsKeys (prismaUpdate id data).
Proof.
  intros Hdata c. eapply post_weaken; [apply post_prismaUpdate |].
  intros r c'. destruct (cPreviews c !! id) as [p0|] eqn:Hp0; intros [_ ->];
    [|apply keepsKeys_refl].
  intros Hkeys k p. simpl. rewrite lookup_insert. case_decide as Hk.
  - intros [= <-]. rewrite Hdata. subst k. by apply Hkeys.
  - apply Hkeys.
Qed.

Lemma keys_prismaCreate (row : Preview.t) : steps keepsKeys (prismaCreate row).
Proof.
  intros c. eapply post_weaken; [apply post_prismaCreate |].
  intros r c'. destruct (cPreviews c !! Preview.id row) as [p0|]; intros [_ ->];
    [apply keepsKeys_refl |].
  intros Hkeys k p. simpl. rewrite lookup_insert. case_decide as Hk.
  - by intros [= <-].
  - apply Hkeys.
Qed.

Ltac keys_step :=
  first
    [ apply keys_prismaUpdate; intros; reflexivity
    | apply keys_prismaCreate
    | intros ?; eapply post_weaken;
        [ first [ apply post_newDate | apply post_setLogs | apply post_push
                | apply post_run ]
        | intros ? ? [_ ->]; by apply keepsKeys_still ]
    | apply (steps_quiet _ keepsKeys_refl) with (R := λ _ _, True); intros;
        eapply post_weaken;
        [ first [ apply post_removeContainer | apply post_removeContainerIfExists
                | apply post_findPreviewWithProject | apply post_cloneRepoM
                | apply post_prismaFindFirst | apply post_prismaFindUnique
                | apply post_findAvailablePort | apply post_isPortFree
                | apply post_getLogs | apply post_notNull | apply post_emit
                | apply post_effect ]
        | simpl; intros ? ? [_ ->]; done ]
    | apply steps_ret; apply keepsKeys_refl
    | apply steps_throw; apply keepsKeys_refl
    | apply steps_tryCatch; [apply keepsKeys_trans | |]
    | apply steps_bind; [apply keepsKeys_trans | |]
    | match goal with
      | |- steps _ (match ?x with _ => _ end) => destruct x
      | |- steps _ (if ?b then _ else _) => destruct b
      | |- ∀ _, _ => intro
      end ].

Lemma keys_buildPreview env project id repoPath prNumber :
  steps keepsKeys (buildPreview env project id repoPath prNumber).
Proof. unfold buildPreview, assignPort. repeat keys_step. Qed.

Lemma keys_runOp (env : Env) (op : Op) (w : World) :
  wellKeyed (previews w) → wellKeyed (previews (runOp env op w)).
Proof.
  assert (∀ A (m : M World A), steps keepsKeys m →
            wellKeyed (previews w) → wellKeyed (previews (snd (m w)))) as Hrun.
  { intros A m Hm Hw. by apply (Hm (core w) w). }
  destruct op; simpl; apply Hrun.
  - unfold handlePROpenOrSync, prismaUpsert, rmSync.
    repeat first [apply keys_buildPreview | keys_step].
  - unfold handlePRClosed. repeat keys_step.
  - apply keys_buildPreview.
  - unfold rebuildRoute, snapshotOf, rmSync.
    repeat first [apply keys_buildPreview | keys_step].
  - unfold deleteRoute, snapshotOf. repeat keys_step.
Qed.

(** X17. When every row is stored under its own id, this stays so over
    any sequence of operations: an update never changes the id of a row,
    and a created row is stored under the id it was given. *)
Theorem keys_stay_ids :
  ∀ (ops : list (Env * Op)) (w : World),
    wellKeyed (previews w) → wellKeyed (previews (runOps ops w)).
Proof.
  induction ops as [|[env op] ops IH]; intros w Hw; simpl; [done |].
  by apply IH, keys_runOp.
Qed.

Lemma keys_stay_ids_witness :
  wellKeyed (previews (runOps openCloseRebuild emptyWorld)).
Proof.
  apply keys_stay_ids. intros k p Hk. unfold emptyWorld in Hk. cbn [previews] in Hk.
  by rewrite lookup_empty in Hk.
Defined.

(** ** What a build does to the outside *)

Lemma addsOnly_refl P w : addsOnly P w w.
Proof. by exists []. Qed.

Lemma addsOnly_trans P w1 w2 w3 :
  addsOnly P w1 w2 → addsOnly P w2 w3 → addsOnly P w1 w3.
Proof.
  intros (e1 & E1 & F1) (e2 & E2 & F2). exists (e2 ++ e1)%list.
  split; [by rewrite E2, E1, app_assoc | by apply Forall_app].
Qed.

Section Acts.
Context (P : Effect → Prop).

Lemma acts_ret {A} (a : A) : acts P (ret a).
Proof. intros w. apply addsOnly_refl. Qed.

Lemma acts_throw {A} (e : Exn) : acts P (@throw World A e).
Proof. intros w. apply addsOnly_refl. Qed.

Lemma acts_bind {A B} (m : M World A) (k : A → M World B) :
  acts P m → (∀ a, acts P (k a)) → acts P (bind m k).
Proof.
  intros Hm Hk w. specialize (Hm w). unfold bind.
  destruct (m w) as [[e|a] w1]; [exact Hm |].
  eapply addsOnly_trans; [exact Hm | apply Hk].
Qed.

Lemma acts_tryCatch {A} (m : M World A) (h : Exn → M World A) :
  acts P m → (∀ e, acts P (h e)) → acts P (tryCatch m h).
Proof.
  intros Hm Hh w. specialize (Hm w). unfold tryCatch.
  destruct (m w) as [[e|a] w1]; [|exact Hm].
  eapply addsOnly_trans; [exact Hm | apply Hh].
Qed.

Lemma acts_still {A} (m : M World A) :
  (∀ w, effects (snd (m w)) = effects w) → acts P m.
Proof. intros H w. exists []. by rewrite H. Qed.

Lemma acts_effect (e : Effect) : P e → acts P (effect e).
Proof. intros He w. exists [e]. split; [done | by constructor]. Qed.

Lemma acts_emit (env : Env) room topic payload :
  P (Emit room topic payload) → acts P (emit env room topic payload).
Proof.
  intros He w. unfold emit. destruct (ioFails env (ioCalls w)).
  - by exists [].
  - exists [Emit room topic payload]. split; [done | by constructor].
Qed.

Lemma acts_forEach {X} (l : list X) (f : X → M World unit) :
  (∀ x, acts P (f x)) → acts P (forEach l f).
Proof.
  intros Hf. induction l as [|x l IH]; [apply acts_ret |].
  apply acts_bind; [apply Hf | intros _; exact IH].
Qed.

Lemma acts_prismaUpdate (id : string) (data : Preview.t → Preview.t) :
  acts P (prismaUpdate id data).
Proof.
  apply acts_still. intros w. unfold prismaUpdate. by destruct (previews w !! id).
Qed.

Lemma acts_findAvailablePort (env : Env) (lo hi : Z) :
  acts P (findAvailablePort portReservedInDB (isPortFree env) lo hi).
Proof.
  apply acts_still. intros w. unfold findAvailablePort. by rewrite scanPorts_firstFree.
Qed.
End Acts.

Lemma prefix_mono (a : string) : ∀ b c,
  String.prefix a b = true → String.prefix a (b +:+ c) = true.
Proof.
  induction a as [|x a IH]; intros b c; [by destruct (b +:+ c) |].
  destruct b as [|y b]; [done |].
  rewrite append_cons. cbn [String.prefix].
  destruct (ascii_dec x y); [apply IH | done].
Qed.

Ltac acts_step :=
  first
    [ apply acts_prismaUpdate | apply acts_findAvailablePort
    | apply acts_forEach
    | apply acts_effect; first [exact I | apply prefix_mono; reflexivity]
    | apply acts_emit; split; [reflexivity | tauto]
    | apply acts_still; intros; reflexivity
    | apply acts_ret | apply acts_throw
    | apply acts_bind | apply acts_tryCatch
    | match goal with
      | |- acts _ (match ?x with _ => _ end) => destruct x
      | |- acts _ (if ?b then _ else _) => destruct b
      | |- ∀ _, _ => intro
      end ].

Lemma buildPreview_acts (env : Env) project id repoPath prNumber :
  acts (scoped id) (buildPreview env project id repoPath prNumber).
Proof.
  unfold buildPreview, assignPort, removeContainerIfExists, run, push, isPortFree,
    prismaFindUnique, newDate, dockerBuildCommand, dockerRunCommand.
  repeat acts_step.
Qed.

(** X18. What [buildPreview] does to the outside, in every case: the
    commands it runs are docker commands; what it emits goes to the room
    of the preview, under the topics log, log-finish and log-error, never
    to everyone; and it never removes the checkout, which is left to its
    callers. *)
Theorem buildPreview_effects_are_scoped :
  ∀ (env : Env) (project : Project.t) (id repoPath : string) (prNumber : Z) (w : World),
    ∃ added,
      effects (snd (buildPreview env project id repoPath prNumber w))
      = (added ++ effects w)%list
      ∧ Forall (scoped id) added.
Proof.
  intros env project id repoPath prNumber w.
  exact (buildPreview_acts env project id repoPath prNumber w).
Qed.

(** ** The callers of a build *)

(** What a build returns and persists is fixed by the store it starts
    from. *)
Lemma buildPreview_from (env : Env) project id repoPath prNumber (w0 : World) :
  post (buildPreview env project id repoPath prNumber) (core w0)
       (λ r c', r = fst (buildPreview env project id repoPath prNumber w0)
                ∧ c' = core (snd (buildPreview env project id repoPath prNumber w0))).
Proof.
  intros w Hw. destruct (cPreviews (core w0) !! id) as [p0|] eqn:Hp.
  - pose proof (buildPreview_summary env project id repoPath prNumber (core w0) p0 Hp
                  w Hw) as H1.
    pose proof (buildPreview_summary env project id repoPath prNumber (core w0) p0 Hp
                  w0 eq_refl) as H2.
    cbv beta in H1, H2. rewrite <- H2 in H1.
    split; [exact (f_equal fst H1) | exact (f_equal snd H1)].
  - destruct (buildPreview_missing env project id repoPath prNumber (core w0) Hp
                w Hw) as [H1 H1'].
    destruct (buildPreview_missing env project id repoPath prNumber (core w0) Hp
                w0 eq_refl) as [H2 H2'].
    split; congruence.
Qed.

Lemma post_snapshotOf_found (id : string) (pf : Preview.t) c :
  cPreviews c !! id = Some pf →
  post (snapshotOf id) c (λ r c', r = inr pf ∧ c' = c).
Proof.
  intros Hpf. unfold snapshotOf.
  step post_prismaFindUnique. intros found c1 [[= ->] ->]. rewrite Hpf.
  eapply post_weaken; [apply post_notNull |]. by intros r c' [-> ->].
Qed.

(** X19. The open-or-sync handler on a pull request that has a row, with
    the socket working and the clone succeeding, is the upsert followed by
    the build: it returns when the build returns, it throws the error of
    the build when the build throws, and what it leaves in the store is
    what the build leaves, started from the store in which the row has
    been marked building. *)
Theorem sync_is_upsert_then_build :
  ∀ (env : Env) (project : Project.t) (prNumber : Z) (ref : option string)
    (w : World) (id : string) (p : Preview.t) (path : string),
    onlyRowOf (previews w) id p →
    Preview.projectId p = Project.id project →
    Preview.prNumber p = prNumber →
    (∀ n, ioFails env n = false) →
    cloneRepo env (Project.repoOwner project) (Project.repoName project) ref = inr path →
    let marked := writeRow id (Preview.setStatus Status.building p) w in
    let built := buildPreview env project id path prNumber marked in
    fst (handlePROpenOrSync env project prNumber ref w) = passedOn (fst built)
    ∧ core (snd (handlePROpenOrSync env project prNumber ref w)) = core (snd built).
Proof.
  intros env project prNumber ref w id p path Honly Hproj Hpr Hup Hclone marked built.
  assert (post (handlePROpenOrSync env project prNumber ref) (core w)
            (λ r c', r = passedOn (fst built) ∧ c' = core (snd built))) as Hpost;
    [|exact (Hpost w eq_refl)].
  assert (Preview.id p = id) as Hid by apply Honly.
  apply (handlePROpenOrSync_unfold env project prNumber ref (core w) id p); try done.
  unfold syncTail.
  step (post_emit_up env None "preview-status-update"
          (StatusUpdate None (Project.id project) prNumber Status.building None) _ Hup).
  intros [] c1 [_ ->].
  eapply post_bind; [apply post_cloneRepoM | |]; rewrite Hclone;
    [|intros e c2 [? _]; discriminate].
  intros path' c2 [[= ->] ->].
  change (Preview.id (Preview.setStatus Status.building p)) with (Preview.id p).
  rewrite Hid.
  eapply post_tryCatch with
    (R1 := λ r c', (r = inr tt ∨ ∃ e, r = inl e) ∧ r = passedOn (fst built)
                   ∧ c' = core (snd built)).
  - eapply post_bind; [apply (buildPreview_from env project id path prNumber marked) | |].
    + intros url c3 [E ->]. fold built in E |- *.
      step post_rmSync. intros [] c3 [_ ->].
      eapply post_weaken;
        [apply (post_emit_up env None "preview-status-update" _ _ Hup) |].
      intros r c' [-> ->]. rewrite <- E. split; [by left | done].
    + intros e c3 [E ->]. fold built in E |- *. rewrite <- E.
      split; [right; by exists e | done].
  - intros e c3 (_ & E & ->).
    step post_rmSync. intros [] c3 [_ ->].
    step (post_emit_up env None "preview-status-update"
            (StatusUpdate None (Project.id project) prNumber Status.error None) _ Hup).
    intros [] c3 [_ ->]. by apply post_throw.
  - intros a c3 (_ & E & ->). done.
Qed.

Lemma sync_is_upsert_then_build_witness :
  fst (handlePROpenOrSync buildFailsEnv sampleProject 7 None
         (worldOf [liveRow "pv-a" 7 5007]))
  = passedOn (fst (buildPreview buildFailsEnv sampleProject "pv-a" "/tmp/repo" 7
                     (writeRow "pv-a"
                        (Preview.setStatus Status.building (liveRow "pv-a" 7 5007))
                        (worldOf [liveRow "pv-a" 7 5007])))).
Proof.
  apply (sync_is_upsert_then_build buildFailsEnv sampleProject 7 None
           (worldOf [liveRow "pv-a" 7 5007]) "pv-a" (liveRow "pv-a" 7 5007) "/tmp/repo").
  - split; [vm_compute; reflexivity |]. split; [reflexivity |].
    intros k q Hk _ _. unfold worldOf in Hk.
    cbn [previews fmap list_fmap list_to_map foldr] in Hk.
    rewrite lookup_insert in Hk. case_decide as Hkey; [by symmetry |].
    by rewrite lookup_empty in Hk.
  - reflexivity.
  - reflexivity.
  - reflexivity.
  - reflexivity.
Defined.

(** X20. The rebuild route for the owner of an existing preview, with the
    socket working and the clone succeeding, is the marking of the row
    followed by the build: when the build returns a url the answer is 200
    with that url and the store is as the build left it; when the build
    throws the answer is 500 "Build failed" and the row is the row the
    build left, which is in error and has no port, with url and
    container name cleared. *)
Theorem rebuild_is_mark_then_build :
  ∀ (env : Env) (userId id : string) (w : World) (p : Preview.t) (proj : Project.t)
    (path : string),
    previews w !! id = Some p →
    Preview.id p = id →
    projects w !! Preview.projectId p = Some proj →
    Project.userId proj = userId →
    (∀ n, ioFails env n = false) →
    cloneRepo env (Project.repoOwner proj) (Project.repoName proj) None = inr path →
    let marked := writeRow id (rebuildStarted (clock w) p) (tick w) in
    let built := buildPreview env proj id path (Preview.prNumber p) marked in
    match fst built with
    | inr url =>
        fst (rebuildRoute env userId id w) = inr (mkResponse 200 (OkUrlBody url))
        ∧ core (snd (rebuildRoute env userId id w)) = core (snd built)
    | inl _ =>
        fst (rebuildRoute env userId id w)
        = inr (mkResponse 500 (FailedBody "Build failed"))
        ∧ ∃ pf, previews (snd built) !! id = Some pf
                ∧ Preview.status pf = Status.error
                ∧ Preview.port pf = None
                ∧ previews (snd (rebuildRoute env userId id w)) !! id
                  = Some (rebuildFailed (clock (snd built)) pf)
    end.
Proof.
  intros env userId id w p proj path Hp Hid Hproj Howner Hup Hclone marked built.
  set (Ends := λ (r : Exn + Response) (c' : Core),
         match fst built with
         | inr url => r = inr (mkResponse 200 (OkUrlBody url)) ∧ c' = core (snd built)
         | inl _ =>
             r = inr (mkResponse 500 (FailedBody "Build failed"))
             ∧ ∃ pf, previews (snd built) !! id = Some pf
                     ∧ Preview.status pf = Status.error
                     ∧ Preview.port pf = None
                     ∧ cPreviews c' !! id = Some (rebuildFailed (clock (snd built)) pf)
         end).
  assert (∃ pf, previews (snd built) !! id = Some pf
                ∧ match fst built with
                  | inr _ => True
                  | inl _ => Preview.status pf = Status.error ∧ Preview.port pf = None
                  end) as (pf & Hpf & Hfailed).
  { assert (previews marked !! id = Some (rebuildStarted (clock w) p)) as Hrow
      by apply lookup_insert_eq.
    destruct (buildPreview env proj id path (Preview.prNumber p) marked) as [r w']
      eqn:E.
    apply (buildPreview_result _ _ _ _ _ _ _ _ _ Hrow) in E.
    apply buildSummary_result in E as (pf & Hpf & _ & _ & _ & _ & Hr).
    exists pf. subst built. cbn [fst snd]. split; [exact Hpf |].
    destruct r as [e|url]; [|done]. by destruct Hr as (? & ? & _). }
  assert (post (rebuildRoute env userId id) (core w)
            (λ r c', ∃ r0, Ends r0 c'
                           ∧ r = inr (match r0 with
                                      | inr resp => resp
                                      | inl _ => unexpectedError
                                      end))) as Hpost.
  { apply (rebuildRoute_unfold env userId id (core w) p proj Ends); try done.
    unfold rebuildTail. rewrite Hid.
    step (post_emit_up env None "preview-status-update"
            (StatusUpdate (Some id) (Preview.projectId p) (Preview.prNumber p)
               Status.building None) _ Hup).
    intros [] c1 [_ ->].
    eapply post_bind; [apply post_cloneRepoM | |]; rewrite Hclone;
      [|intros e c2 [? _]; discriminate].
    intros path' c2 [[= ->] ->].
    eapply post_tryCatch with
      (R1 := λ r c', match r with
                     | inr _ => Ends r c'
                     | inl _ => (∃ e, fst built = inl e) ∧ c' = core (snd built)
                     end).
    - eapply post_bind;
        [apply (buildPreview_from env proj id path (Preview.prNumber p) marked) | |].
      + intros url c3 [E ->]. fold built in E |- *.
        step post_rmSync_guarded. intros [] c3 [_ ->].
        step (post_snapshotOf_found id pf (core (snd built)) Hpf).
        intros updated c3 [[= ->] ->].
        step (post_emit_up env None "preview-status-update" (Snapshot pf) _ Hup).
        intros [] c3 [_ ->]. apply post_ret. unfold Ends. by rewrite <- E.
      + intros e c3 [E ->]. fold built in E |- *. split; [by exists e | done].
    - intros e c3 [[e' E] ->].
      step post_newDate. intros t c4 [[= ->] ->].
      eapply post_bind; [apply post_prismaUpdate | |];
        change (cPreviews (coreTick (core (snd built))) !! id)
          with (previews (snd built) !! id); rewrite Hpf;
        [|intros ? ? [? _]; discriminate].
      intros row c4 [_ ->].
      eapply post_bind; [apply post_snapshotOf_found, lookup_insert_eq | |];
        [|intros ? ? [? _]; discriminate].
      intros updated c4 [[= ->] ->].
      step (post_emit_up env None "preview-status-update" _ _ Hup).
      intros [] c4 [_ ->].
      step post_rmSync_guarded. intros [] c4 [_ ->].
      apply post_ret. unfold Ends. rewrite E. rewrite E in Hfailed.
      split; [done |]. exists pf. destruct Hfailed as [Hst Hport].
      split; [done |]. split; [done |]. split; [done |].
      cbn [cPreviews coreWrite]. apply lookup_insert_eq.
    - intros resp c3 H. exact H. }
  destruct (Hpost w eq_refl) as (r0 & Hends & Hr). unfold Ends in Hends.
  destruct (fst built) as [e|url].
  - destruct Hends as [-> Hrow]. split; [exact Hr | exact Hrow].
  - destruct Hends as [-> Hc]. split; [exact Hr | exact Hc].
Qed.

Lemma rebuild_is_mark_then_build_witness :
  fst (rebuildRoute runFailsEnv "user-1" "pv-a" (worldOf [liveRow "pv-a" 7 5007]))
  = inr (mkResponse 500 (FailedBody "Build failed")).
Proof.
  pose proof (rebuild_is_mark_then_build runFailsEnv "user-1" "pv-a"
                (worldOf [liveRow "pv-a" 7 5007]) (liveRow "pv-a" 7 5007) sampleProject
                "/tmp/repo") as H.
  cbv zeta in H.
  assert (fst (buildPreview runFailsEnv sampleProject "pv-a" "/tmp/repo"
                 (Preview.prNumber (liveRow "pv-a" 7 5007))
                 (writeRow "pv-a"
                    (rebuildStarted (clock (worldOf [liveRow "pv-a" 7 5007]))
                       (liveRow "pv-a" 7 5007))
                    (tick (worldOf [liveRow "pv-a" 7 5007]))))
          = inl (JsError "Command failed with exit code 1")) as E
    by (vm_compute; reflexivity).
  rewrite E in H.
  apply H; (vm_compute; reflexivity) || reflexivity.
Defined.

(** ** The checkout *)




(** ** A held port is revalidated against the machine only *)

Lemma buildSummary_reuse (env : Env) project id repoPath prNumber c p0 q :
  Preview.port p0 = Some q → q ≠ 0 →
  osPortFree env q = true →
  (∀ command, ending (shell env command) = Exited (Some 0)) →
  ∃ t text c',
    buildSummary env project id repoPath prNumber c p0
    = (inr ("http://localhost:" +:+ numToString q), c')
    ∧ cPreviews c' !! id
      = Some (finishedLive t text ("http://localhost:" +:+ numToString q)
                (named (generateContainerName project prNumber (nextBuildNumberOf p0))
                   (started (cClock c) p0))).
Proof.
  intros Hport Hq Hfree Hshell. unfold buildSummary.
  change (nextBuildNumberOf (started (cClock c) p0)) with (nextBuildNumberOf p0).
  change (Preview.port (started (cClock c) p0)) with (Preview.port p0).
  unfold portPlan. rewrite Hport, (truthyNumber_nonzero q Hq), Hfree.
  unfold launchSummary. cbv zeta.
  rewrite !(procOutcome_ok _ (Hshell _)).
  eexists _, _, _. split; [reflexivity |].
  cbn [cPreviews coreWrite]. apply lookup_insert_eq.
Qed.

(** X22. A build on a row that holds a port asks only whether the port can
    be bound, not whether another row holds it: when it can be bound and
    the two commands exit with status 0, the build returns the url of the
    held port and the row is live on it, while every other row is as
    before; a live row of another pull request that holds the same port
    stays live on that port. *)
Theorem held_port_is_reused_unchecked :
  ∀ (env : Env) (project : Project.t) (id repoPath : string) (prNumber : Z)
    (w : World) (p0 : Preview.t) (q : Z),
    previews w !! id = Some p0 →
    Preview.port p0 = Some q →
    q ≠ 0 →
    osPortFree env q = true →
    (∀ command, ending (shell env command) = Exited (Some 0)) →
    let after := buildPreview env project id repoPath prNumber w in
    fst after = inr ("http://localhost:" +:+ numToString q)
    ∧ (∃ pf, previews (snd after) !! id = Some pf
             ∧ Preview.status pf = Status.live ∧ Preview.port pf = Some q)
    ∧ ∀ k r, k ≠ id → previews w !! k = Some r → previews (snd after) !! k = Some r.
Proof.
  intros env project id repoPath prNumber w p0 q Hp Hport Hq Hfree Hshell after.
  destruct (buildSummary_reuse env project id repoPath prNumber (core w) p0 q
              Hport Hq Hfree Hshell) as (t & text & c' & Hsum & Hrow).
  pose proof (buildPreview_summary env project id repoPath prNumber (core w) p0 Hp
                w eq_refl) as H.
  cbv beta in H. fold after in H. rewrite Hsum in H. injection H as Hr Hc.
  split; [exact Hr |]. split.
  - eexists. change (previews (snd after)) with (cPreviews (core (snd after))).
    rewrite Hc. split; [exact Hrow |]. split; [reflexivity | exact Hport].
  - intros k r Hk Hkr.
    destruct (buildPreview_frame env project id repoPath prNumber w k Hk) as [Hf _].
    fold after in Hf. by rewrite Hf.
Qed.

Lemma held_port_is_reused_unchecked_witness :
  ∃ pf, previews (snd (buildPreview calmEnv sampleProject "pv-a" "/tmp/repo" 7
                         sharedPortWorld)) !! "pv-a" = Some pf
        ∧ Preview.status pf = Status.live
        ∧ Preview.port pf = Some 5007
        ∧ previews (snd (buildPreview calmEnv sampleProject "pv-a" "/tmp/repo" 7
                           sharedPortWorld)) !! "pv-b"
          = Some (liveRow "pv-b" 8 5007).
Proof.
  destruct (held_port_is_reused_unchecked calmEnv sampleProject "pv-a" "/tmp/repo" 7
              sharedPortWorld (deletedRow "pv-a" 7 5007) 5007)
    as (_ & (pf & H1 & H2 & H3) & H4);
    [vm_compute; reflexivity | reflexivity | lia | reflexivity | reflexivity |].
  exists pf. split; [exact H1 |]. split; [exact H2 |]. split; [exact H3 |].
  apply H4; [discriminate | vm_compute; reflexivity].
Defined.

(** ** The old container *)

Lemma acts_weaken (P Q : Effect → Prop) {A} (m : M World A) :
  (∀ e, P e → Q e) → acts P m → acts Q m.
Proof.
  intros HPQ Hm w. destruct (Hm w) as (es & E & F). exists es. split; [done |].
  eapply Forall_impl; [exact F | exact HPQ].
Qed.

Lemma acts_keeps (P : Effect → Prop) {A} (m : M World A) (e : Effect) w :
  acts P m → In e (effects w) → In e (effects (snd (m w))).
Proof.
  intros Hm He. destruct (Hm w) as (es & E & _). rewrite E.
  apply in_or_app. by right.
Qed.

Ltac grows_step :=
  first
    [ eapply (acts_weaken (scoped _) anyEffect); [intros ? ?; exact I | apply buildPreview_acts]
    | apply acts_prismaUpdate
    | apply acts_effect; exact I
    | apply acts_emit; exact I
    | apply acts_still; intros; reflexivity
    | apply acts_ret | apply acts_throw
    | apply acts_bind | apply acts_tryCatch
    | match goal with
      | |- acts _ (match ?x with _ => _ end) => destruct x
      | |- acts _ (if ?b then _ else _) => destruct b
      | |- ∀ _, _ => intro
      end ].

Lemma removeNamed_run (env : Env) (name : string) (w : World) :
  (removeContainer env name ;; ret tt) w
  = (inr tt, addEffect (Exec ("docker rm -f " +:+ name)) w).
Proof.
  unfold removeContainer, bind, effect, modify. cbn [fst snd].
  by destruct (ending (shell env ("docker rm -f " +:+ name))) as [[[| |]|]|].
Qed.

Lemma tryCatch_bind_inr {S A B} (m : M S A) (k : A → M S B) (h : Exn → M S B) s a s' :
  m s = (inr a, s') → tryCatch (bind m k) h s = tryCatch (k a) h s'.
Proof. intros E. unfold tryCatch, bind. by rewrite E. Qed.

(** X23. Rebuilding, deleting and closing all start by removing the
    container whose name is stored on the row: when the row has a
    container name, [docker rm -f] with that name has been run at the end
    of the rebuild route and of the delete route called by the owner, and
    at the end of the pull-request-closed handler, whatever happens after
    it. *)
Theorem old_container_is_removed :
  ∀ (env : Env) (w : World) (id : string) (p : Preview.t) (name : string),
    previews w !! id = Some p →
    truthyText (Preview.containerName p) = Some name →
    (∀ (userId : string) (proj : Project.t),
        projects w !! Preview.projectId p = Some proj →
        Project.userId proj = userId →
        In (Exec ("docker rm -f " +:+ name))
           (effects (snd (rebuildRoute env userId id w)))
        ∧ In (Exec ("docker rm -f " +:+ name))
             (effects (snd (deleteRoute env userId id w))))
    ∧ (∀ (project : Project.t),
          onlyRowOf (previews w) id p →
          Preview.projectId p = Project.id project →
          In (Exec ("docker rm -f " +:+ name))
             (effects (snd (handlePRClosed env project (Preview.prNumber p) w)))).
Proof.
  intros env w id p name Hp Hname.
  set (w1 := addEffect (Exec ("docker rm -f " +:+ name)) w).
  assert (In (Exec ("docker rm -f " +:+ name)) (effects w1)) as Hin by (by left).
  split.
  - intros userId proj Hproj Howner.
    assert ((Project.userId proj =? userId)%string = true) as Heq
      by (by apply String.eqb_eq).
    assert (findPreviewWithProject id w = (inr (Some (p, Some proj)), w)) as Hfind.
    { unfold findPreviewWithProject, gets. by rewrite Hp, Hproj. }
    split.
    + unfold rebuildRoute.
      rewrite (tryCatch_bind_inr _ _ _ w _ w Hfind). cbv beta iota.
      rewrite (tryCatch_bind_inr _ _ _ w proj w eq_refl). cbv beta.
      rewrite Heq. cbn [negb]. rewrite Hname.
      rewrite (tryCatch_bind_inr _ _ _ w tt w1 (removeNamed_run env name w)).
      apply (acts_keeps anyEffect); [|exact Hin].
      unfold snapshotOf, rmSync, prismaFindUnique, notNull, newDate, cloneRepoM.
      repeat grows_step.
    + unfold deleteRoute.
      rewrite (tryCatch_bind_inr _ _ _ w _ w Hfind). cbv beta iota.
      rewrite (tryCatch_bind_inr _ _ _ w proj w eq_refl). cbv beta.
      rewrite Heq. cbn [negb]. rewrite Hname.
      rewrite (tryCatch_bind_inr _ _ _ w tt w1 (removeNamed_run env name w)).
      apply (acts_keeps anyEffect); [|exact Hin].
      unfold snapshotOf, prismaFindUnique, notNull, newDate.
      repeat grows_step.
  - intros project Honly Hproj.
    pose proof (findFirst_only _ _ _ Honly) as Hfind. rewrite Hproj in Hfind.
    unfold handlePRClosed.
    rewrite (bind_inr _ _ w (Some p) w);
      [|unfold prismaFindFirst, gets; by rewrite Hfind].
    rewrite Hname.
    rewrite (bind_inr _ _ w tt w1 (removeNamed_run env name w)).
    apply (acts_keeps anyEffect); [|exact Hin].
    repeat grows_step.
Qed.

Lemma old_container_is_removed_witness :
  In (Exec "docker rm -f preview-pckv9x2ab-pr7-b1")
     (effects (snd (deleteRoute socketDownEnv "user-1" "pv-a"
                      (worldOf [liveRow "pv-a" 7 5007])))).
Proof.
  apply (proj1 (old_container_is_removed socketDownEnv (worldOf [liveRow "pv-a" 7 5007])
                  "pv-a" (liveRow "pv-a" 7 5007) "preview-pckv9x2ab-pr7-b1"
                  ltac:(vm_compute; reflexivity) ltac:(vm_compute; reflexivity))
           "user-1" sampleProject).
  - vm_compute. reflexivity.
  - reflexivity.
Defined.
